(** * compose-validator: field order and alphabetization of Compose services

    A shallow embedding of the Go packages [config], [parser], [validator],
    [fixer] and [main], followed by the properties of the checker, of the
    rewriter and of the command.

    Conventions of the embedding.
    - A Go [string] is a sequence of bytes: [string] of the standard library.
      [<] and [>] on Go strings are the bytewise lexicographic order,
      [String.ltb].
    - A Go [int] is a [Z] (no value below comes near the word size).
    - An [interface{}] holding a decoded YAML value is a [Value].
    - A [map[string]interface{}] is an association list with distinct keys.
      The order of the list is the order in which one [range] loop visits the
      entries.  Go leaves that order unspecified and does not keep it from one
      loop to the next, so statements quantify over all lists, and a map that
      the program has built is a result only up to the order of its list; a
      write to an absent key adds the entry at the end, a write to a present
      key replaces the value where it stands.
    - A run-time panic is the result [None].
    - The functions of the YAML library and [strings.ToLower] are parameters
      of the definitions that call them.
    - So are the operating system and [path/filepath]: the state of the file
      system is a value of a type [World], which [os.WriteFile] replaces; a
      library call that returns an [error] returns a [golang.result], which
      holds the text of the error.
    - What the command prints is a list of [main.Event], in the order of the
      calls. *)

From Stdlib Require Import String Ascii ZArith Bool Lia OrderedTypeEx.
From stdpp Require Import base option list sorting strings pretty gmap.

Set Warnings "-register-all".

Local Open Scope string_scope.
Local Open Scope list_scope.
Local Open Scope Z_scope.

(** ** Values held by [interface{}] *)

(** What [yaml.Unmarshal] stores in an [interface{}]: nil, a boolean, an
    integer, a string, a [[]interface{}] or a [map[string]interface{}].
    Floating-point scalars are left out of the model. *)
Inductive Value : Type :=
| VNull
| VBool (b : bool)
| VInt (n : Z)
| VString (s : string)
| VList (items : list Value)
| VMap (entries : list (string * Value)).

(** [map[string]interface{}] in the order a [range] loop visits it. *)
Abbreviation gomap := (list (string * Value)).

(** ** Go primitives used by the program *)

Module golang.

(** [m[k]] with its presence flag. *)
Fixpoint map_get {V : Type} (k : string) (m : list (string * V)) : option V :=
  match m with
  | [] => None
  | (k', v) :: m' => if String.eqb k' k then Some v else map_get k m'
  end.

(** The [ok] of [_, ok := m[k]]. *)
Definition map_has {V : Type} (k : string) (m : list (string * V)) : bool :=
  match map_get k m with
  | Some _ => true
  | None => false
  end.

(** [m[k] = v]. *)
Fixpoint map_set {V : Type} (k : string) (v : V) (m : list (string * V))
  : list (string * V) :=
  match m with
  | [] => [(k, v)]
  | (k', v') :: m' =>
      if String.eqb k' k then (k, v) :: m' else (k', v') :: map_set k v m'
  end.

(** [delete(m, k)]. *)
Fixpoint map_delete {V : Type} (k : string) (m : list (string * V))
  : list (string * V) :=
  match m with
  | [] => []
  | (k', v') :: m' =>
      if String.eqb k' k then map_delete k m' else (k', v') :: map_delete k m'
  end.

(** [strings.Index(s, substr)], [-1] when [substr] does not occur. *)
Definition strings_Index (s substr : string) : Z :=
  match String.index 0 substr s with
  | Some n => Z.of_nat n
  | None => -1
  end.

(** The slice expression [s[:n]]. *)
Definition slice_to (s : string) (n : Z) : string :=
  String.substring 0 (Z.to_nat n) s.

(** [strings.Split(s, sep)] for a separator of one byte, which is how the
    program calls it. *)
Fixpoint strings_Split (s : string) (sep : ascii) : list string :=
  match s with
  | EmptyString => [EmptyString]
  | String c s' =>
      if Ascii.eqb c sep then EmptyString :: strings_Split s' sep
      else match strings_Split s' sep with
           | p :: ps => String c p :: ps
           | [] => [String c EmptyString]
           end
  end.

(** [a != b] on two [interface{}] values.  Values of different dynamic types
    differ; two maps or two slices cannot be compared and the comparison
    panics. *)
Definition iface_neq (a b : Value) : option bool :=
  match a, b with
  | VNull, VNull => Some false
  | VBool x, VBool y => Some (negb (Bool.eqb x y))
  | VInt x, VInt y => Some (negb (x =? y))
  | VString x, VString y => Some (negb (String.eqb x y))
  | VList _, VList _ => None
  | VMap _, VMap _ => None
  | _, _ => Some true
  end.

(** [sort.Slice(x, less)].  The library sorts a slice of at most twelve
    elements by insertion, [insertionSortLessFunc]: element [i] moves left
    while [less] puts it before its left neighbour.  [insert_left] takes the
    part already sorted in reverse order.  A longer slice goes through the
    pattern-defeating quicksort of the library, whose result is sorted by
    [less] as well and which also leaves a sorted slice as it is. *)
Fixpoint insert_left {A : Type} (less : A -> A -> bool) (x : A) (rev_done : list A)
  : list A :=
  match rev_done with
  | [] => [x]
  | y :: rest => if less x y then y :: insert_left less x rest else x :: y :: rest
  end.

Definition sort_Slice {A : Type} (less : A -> A -> bool) (x : list A) : list A :=
  rev (fold_left (fun rev_done a => insert_left less a rev_done) x []).

(** A slice that may be [nil]: [make([]T, 0)] is [make_slice []]. *)
Inductive slice (A : Type) : Type :=
| nil_slice
| make_slice (elems : list A).
Arguments nil_slice {A}.
Arguments make_slice {A} elems.

(** [append(s, xs...)]: appending nothing to [nil] gives [nil]. *)
Definition append {A : Type} (s : slice A) (xs : list A) : slice A :=
  match s with
  | nil_slice => match xs with [] => nil_slice | _ => make_slice xs end
  | make_slice l => make_slice (l ++ xs)
  end.

Definition len {A : Type} (s : slice A) : Z :=
  match s with
  | nil_slice => 0
  | make_slice l => Z.of_nat (length l)
  end.

(** The elements that [for _, x := range s] visits. *)
Definition elems {A : Type} (s : slice A) : list A :=
  match s with
  | nil_slice => []
  | make_slice l => l
  end.

(** [strings.ToLower] restricted to the ASCII letters; the development is
    parametric in the lowering function and uses this one in its examples. *)
Definition ascii_lower (c : ascii) : ascii :=
  let n := N_of_ascii c in
  if ((65 <=? n) && (n <=? 90))%N then ascii_of_N (n + 32) else c.

Fixpoint ToLower_ascii (s : string) : string :=
  match s with
  | EmptyString => EmptyString
  | String c s' => String (ascii_lower c) (ToLower_ascii s')
  end.

(** [len(s)] of a string. *)
Definition strings_len (s : string) : Z := Z.of_nat (String.length s).

(** The slice expression [s[n:]]. *)
Definition slice_from (s : string) (n : Z) : string :=
  String.substring (Z.to_nat n) (String.length s - Z.to_nat n) s.

(** [strings.HasPrefix], [strings.HasSuffix] and [strings.TrimSuffix], as the
    library writes them. *)
Definition strings_HasPrefix (s prefix : string) : bool :=
  (strings_len prefix <=? strings_len s)
  && String.eqb (slice_to s (strings_len prefix)) prefix.

Definition strings_HasSuffix (s suffix : string) : bool :=
  (strings_len suffix <=? strings_len s)
  && String.eqb (slice_from s (strings_len s - strings_len suffix)) suffix.

Definition strings_TrimSuffix (s suffix : string) : string :=
  if strings_HasSuffix s suffix
  then slice_to s (strings_len s - strings_len suffix)
  else s.

(** A value returned with an [error]: the value when the error is [nil],
    the text of the error otherwise. *)
Inductive result (A : Type) : Type :=
| Ok (a : A)
| Err (text : string).
Arguments Ok {A} a.
Arguments Err {A} text.

(** [fmt.Errorf(prefix + ": %w", err)].Error(). *)
Definition wrap (prefix text : string) : string := prefix +:+ ": " +:+ text.

(** The line feed, and [%v] for a boolean and for a [[]string]. *)
Definition newline : string := String (ascii_of_nat 10) EmptyString.

Definition format_bool (b : bool) : string := if b then "true" else "false".

Fixpoint join_spaces (l : list string) : string :=
  match l with
  | [] => ""
  | [s] => s
  | s :: rest => s +:+ " " +:+ join_spaces rest
  end.

Definition format_strings (l : list string) : string := "[" +:+ join_spaces l +:+ "]".

End golang.

(** ** Package [config] *)

Module config.

Definition DefaultFieldOrder : list string :=
  [ "container_name"; "image"; "build";
    "user";
    "environment"; "env_file";
    "networks"; "network_mode"; "ports"; "devices";
    "healthcheck";
    "restart"; "cap_add"; "privileged"; "extra_hosts";
    "volumes";
    "labels" ].

Record AlphabetizationRules : Type := {
  Environment : bool;
  Volumes : bool;
  Labels : bool
}.

Record ServiceOverride : Type := {
  Override_FieldOrder : list string
}.

Record Config : Type := {
  FieldOrder : list string;
  Alphabetization : AlphabetizationRules;
  Strict : bool;
  Exclude : list string;
  ServiceOverrides : gmap string ServiceOverride
}.

Definition NewDefaultConfig : Config :=
  {| FieldOrder := DefaultFieldOrder;
     Alphabetization := {| Environment := true; Volumes := true; Labels := true |};
     Strict := false;
     Exclude := [];
     ServiceOverrides := ∅ |}.

Definition GetFieldOrder (c : Config) (serviceName : string) : list string :=
  match ServiceOverrides c !! serviceName with
  | Some override =>
      if 0 <? Z.of_nat (length (Override_FieldOrder override))
      then Override_FieldOrder override
      else FieldOrder c
  | None => FieldOrder c
  end.

Definition ShouldAlphabetize (c : Config) (field : string) : bool :=
  if String.eqb field "environment" then Environment (Alphabetization c)
  else if String.eqb field "volumes" then Volumes (Alphabetization c)
  else if String.eqb field "labels" then Labels (Alphabetization c)
  else false.

Section IsExcluded.

(** [filepath.Separator], the first result of [filepath.Match] (the method
    ignores the error) and [filepath.Base]. *)
Variable Separator : ascii.
Variable filepath_Match : string -> string -> bool.
Variable filepath_Base : string -> string.

(** What is left of a pattern that starts with [**/]: the rest, without a
    trailing [/**] and then without a trailing [/]. *)
Definition recursiveSuffix (pattern : string) : string :=
  let suffix := golang.slice_from pattern 3 in
  let suffix := golang.strings_TrimSuffix suffix "/**" in
  golang.strings_TrimSuffix suffix "/".

(** [for _, component := range pathComponents]. *)
Fixpoint matchesComponent (suffix : string) (pathComponents : list string) : bool :=
  match pathComponents with
  | [] => false
  | component :: rest =>
      if filepath_Match suffix component then true
      else matchesComponent suffix rest
  end.

(** [for _, pattern := range c.Exclude]. *)
Fixpoint isExcludedBy (patterns : list string) (path : string) : bool :=
  match patterns with
  | [] => false
  | pattern :: rest =>
      if golang.strings_HasPrefix pattern "**/" then
        if matchesComponent (recursiveSuffix pattern)
             (golang.strings_Split path Separator)
        then true
        else isExcludedBy rest path
      else if filepath_Match pattern path then true
      else if filepath_Match pattern (filepath_Base path) then true
      else isExcludedBy rest path
  end.

Definition IsExcluded (c : Config) (path : string) : bool :=
  isExcludedBy (Exclude c) path.

End IsExcluded.

Definition configFileNames : list string :=
  [ ".compose-validator.yaml";
    ".compose-validator.yml";
    "compose-validator.yaml";
    "compose-validator.yml" ].

Section Load.

(** The operating system: the state of the file system and of the process,
    [os.Getwd], [os.Stat] (whether its error is [nil]) and [os.ReadFile];
    [filepath.Join] of two elements and [filepath.Dir]; and [yaml.Unmarshal]
    of the bytes onto a [*Config]. *)
Variable World : Type.
Variable os_Getwd : World -> golang.result string.
Variable os_Stat : World -> string -> bool.
Variable os_ReadFile : World -> string -> golang.result string.
Variable filepath_Join : string -> string -> string.
Variable filepath_Dir : string -> string.
Variable yaml_Unmarshal : string -> Config -> golang.result Config.

Definition LoadFromFile (w : World) (path : string) : golang.result Config :=
  match os_ReadFile w path with
  | golang.Err err =>
      golang.Err (golang.wrap ("failed to read config file " +:+ path) err)
  | golang.Ok data =>
      let cfg := NewDefaultConfig in
      match yaml_Unmarshal data cfg with
      | golang.Err err =>
          golang.Err (golang.wrap ("failed to parse config file " +:+ path) err)
      | golang.Ok cfg =>
          let cfg :=
            if Z.of_nat (length (FieldOrder cfg)) =? 0
            then {| FieldOrder := DefaultFieldOrder;
                    Alphabetization := Alphabetization cfg;
                    Strict := Strict cfg;
                    Exclude := Exclude cfg;
                    ServiceOverrides := ServiceOverrides cfg |}
            else cfg in
          golang.Ok cfg
      end
  end.

(** [for _, name := range configFileNames]: the first name that [dir] holds. *)
Fixpoint findConfigFile (w : World) (dir : string) (names : list string)
  : option string :=
  match names with
  | [] => None
  | name :: rest =>
      let path := filepath_Join dir name in
      if os_Stat w path then Some path else findConfigFile w dir rest
  end.

(** The loop of [Load] that climbs from [dir] to the root.  It runs for at
    most [fuel] directories; [None] when that is not enough. *)
Fixpoint loadFrom (fuel : nat) (w : World) (dir : string)
  : option (golang.result Config) :=
  match fuel with
  | O => None
  | S fuel =>
      match findConfigFile w dir configFileNames with
      | Some path => Some (LoadFromFile w path)
      | None =>
          let parent := filepath_Dir dir in
          if String.eqb parent dir then Some (golang.Ok NewDefaultConfig)
          else loadFrom fuel w parent
      end
  end.

Definition Load (fuel : nat) (w : World) : option (golang.result Config) :=
  match os_Getwd w with
  | golang.Err err =>
      Some (golang.Err (golang.wrap "failed to get working directory" err))
  | golang.Ok dir => loadFrom fuel w dir
  end.

End Load.

End config.

(** ** Package [parser] *)

Module parser.

(** A mapping key of the syntax tree: [Key.String()] and the position of its
    token. *)
Record Key : Type := {
  Key_String : string;
  Key_Line : Z;
  Key_Column : Z
}.

(** [ast.Node]: a [*ast.MappingNode] with its [Values] in source order, or
    any other node. *)
Inductive Node : Type :=
| MappingNode (Values : list (Key * Node))
| OtherNode (text : string).

Record DocumentNode : Type := {
  Body : option Node
}.

Record ComposeFile : Type := {
  Path : string;
  Documents : list (option DocumentNode);
  RawData : string
}.

Record Service : Type := {
  Name : string;
  Config : gomap;
  FieldOrder : list string;
  Line : Z;
  Column : Z
}.

Section GetServices.

(** The YAML library: [Node.String()] and [yaml.Unmarshal] into an
    [interface{}], [None] for a decoding error. *)
Variable Node_String : Node -> string.
Variable yaml_Unmarshal : string -> option Value.

(** The loop over [mapping.Values] that looks for the [services] key; it
    stops at the first such key whose value is a mapping. *)
Fixpoint findServicesNode (values : list (Key * Node)) : option (list (Key * Node)) :=
  match values with
  | [] => None
  | (k, v) :: rest =>
      if String.eqb (Key_String k) "services" then
        match v with
        | MappingNode svcMap => Some svcMap
        | _ => findServicesNode rest
        end
      else findServicesNode rest
  end.

(** The loop over [svcMapping.Values]: the field order and the decoded
    configuration of one service. *)
Definition decodeFields (fields : list (Key * Node)) : list string * gomap :=
  fold_left
    (fun '(fieldOrder, svcConfig) '(k, v) =>
       let fieldName := Key_String k in
       (fieldOrder ++ [fieldName],
        match yaml_Unmarshal (Node_String v) with
        | Some value => golang.map_set fieldName value svcConfig
        | None => golang.map_set fieldName (VString (Node_String v)) svcConfig
        end))
    fields ([], []).

(** The loop over [servicesNode.Values]. *)
Definition extractServices (servicesNode : list (Key * Node))
    (services : gmap string Service) : gmap string Service :=
  fold_left
    (fun services '(k, v) =>
       let svcName := Key_String k in
       match v with
       | MappingNode svcMapping =>
           let '(fieldOrder, svcConfig) := decodeFields svcMapping in
           <[svcName := {| Name := svcName;
                           Config := svcConfig;
                           FieldOrder := fieldOrder;
                           Line := Key_Line k;
                           Column := Key_Column k |}]> services
       | _ => services
       end)
    servicesNode services.

(** One turn of the loop over [cf.Documents]. *)
Definition addDocument (services : gmap string Service) (doc : option DocumentNode)
  : gmap string Service :=
  match doc with
  | None => services
  | Some d =>
      match Body d with
      | Some (MappingNode mapping) =>
          match findServicesNode mapping with
          | Some servicesNode => extractServices servicesNode services
          | None => services
          end
      | _ => services
      end
  end.

Definition GetServicesOf (docs : list (option DocumentNode)) : gmap string Service :=
  fold_left addDocument docs ∅.

Definition GetServices (cf : ComposeFile) : gmap string Service :=
  GetServicesOf (Documents cf).

End GetServices.

Section Parse.

(** [os.ReadFile], and [parser.ParseBytes] of the YAML library, of which the
    program keeps the documents [file.Docs]. *)
Variable World : Type.
Variable os_ReadFile : World -> string -> golang.result string.
Variable yaml_ParseBytes : string -> golang.result (list (option DocumentNode)).

Definition ParseBytes (path data : string) : golang.result ComposeFile :=
  match yaml_ParseBytes data with
  | golang.Err err =>
      golang.Err (golang.wrap ("failed to parse YAML in " +:+ path) err)
  | golang.Ok docs =>
      golang.Ok {| Path := path; Documents := docs; RawData := data |}
  end.

Definition ParseFile (w : World) (path : string) : golang.result ComposeFile :=
  match os_ReadFile w path with
  | golang.Err err => golang.Err (golang.wrap ("failed to read file " +:+ path) err)
  | golang.Ok data => ParseBytes path data
  end.

End Parse.

End parser.

(** ** Package [validator] *)

Module validator.

Record Violation : Type := {
  Type_ : string;
  Service : string;
  Field : string;
  Message : string;
  Expected : string;
  Actual : string;
  Line : Z;
  Column : Z
}.

Record ValidationResult : Type := {
  File : string;
  Valid : bool;
  Violations : golang.slice Violation
}.

Fixpoint isInFieldOrder (field : string) (fieldOrder : list string) : bool :=
  match fieldOrder with
  | [] => false
  | f :: rest => if String.eqb f field then true else isInFieldOrder field rest
  end.

Definition extractEnvKey (item : Value) : string :=
  match item with
  | VString v =>
      let idx := golang.strings_Index v "=" in
      if 0 <? idx then golang.slice_to v idx else v
  | VMap v =>
      match v with
      | (k, _) :: _ => k
      | [] => ""
      end
  | _ => ""
  end.

Definition extractVolumeKey (item : Value) : string :=
  match item with
  | VString v =>
      match golang.strings_Split v ":"%char with
      | p :: _ => p
      | [] => v
      end
  | _ => ""
  end.

Definition extractLabelKey (item : Value) : string :=
  match item with
  | VString v =>
      let idx := golang.strings_Index v "=" in
      if 0 <? idx then golang.slice_to v idx else v
  | VMap v =>
      match v with
      | (k, _) :: _ => k
      | [] => ""
      end
  | _ => ""
  end.

(** The violation of the positional check, and the one of strict mode. *)
Definition orderViolation (serviceName : string) (service : parser.Service)
    (actual expected : string) : Violation :=
  {| Type_ := "order";
     Service := serviceName;
     Field := actual;
     Message := "field '" +:+ actual +:+ "' is out of order";
     Expected := expected;
     Actual := actual;
     Line := parser.Line service;
     Column := parser.Column service |}.

Definition strictViolation (serviceName field : string) : Violation :=
  {| Type_ := "order";
     Service := serviceName;
     Field := field;
     Message := "field '" +:+ field +:+ "' is not allowed in strict mode";
     Expected := "";
     Actual := "";
     Line := 0;
     Column := 0 |}.

Definition alphaViolation (serviceName : string) (service : parser.Service)
    (field message : string) : Violation :=
  {| Type_ := "alphabetization";
     Service := serviceName;
     Field := field;
     Message := message;
     Expected := "";
     Actual := "";
     Line := parser.Line service;
     Column := 0 |}.

(** The loop [for i, actual := range actualFields], from index [i] on. *)
Fixpoint checkOrder (serviceName : string) (service : parser.Service)
    (expectedFields : list string) (i : nat) (actualFields : list string)
  : list Violation :=
  match actualFields with
  | [] => []
  | actual :: rest =>
      match expectedFields !! i with
      | Some expected =>
          if negb (String.eqb actual expected)
          then orderViolation serviceName service actual expected
                 :: checkOrder serviceName service expectedFields (S i) rest
          else checkOrder serviceName service expectedFields (S i) rest
      | None => checkOrder serviceName service expectedFields (S i) rest
      end
  end.

Definition validateFieldOrder (serviceName : string) (service : parser.Service)
    (fieldOrder : list string) (cfg : config.Config) : list Violation :=
  let actualFields :=
    List.filter (fun field => isInFieldOrder field fieldOrder)
                (parser.FieldOrder service) in
  let expectedFields :=
    List.filter (fun field => golang.map_has field (parser.Config service))
                fieldOrder in
  let violations := checkOrder serviceName service expectedFields 0 actualFields in
  if config.Strict cfg then
    violations ++
    List.map (strictViolation serviceName)
      (List.filter (fun field => negb (isInFieldOrder field fieldOrder))
                   (parser.FieldOrder service))
  else violations.

Section WithToLower.

Variable ToLower : string -> string.

(** The body of the two sorting loops: exchange [sortedKeys[i]] and
    [sortedKeys[j]] when the first is greater, ignoring case. *)
Definition swapIfGreater (sortedKeys : list string) (i j : nat) : list string :=
  match sortedKeys !! i, sortedKeys !! j with
  | Some a, Some b =>
      if String.ltb (ToLower b) (ToLower a)
      then <[j := a]> (<[i := b]> sortedKeys)
      else sortedKeys
  | _, _ => sortedKeys
  end.

(** [for i := 0; i < n-1; i++ { for j := i+1; j < n; j++ { ... } }]. *)
Definition sortCaseInsensitive (keys : list string) : list string :=
  let n := length keys in
  fold_left
    (fun sortedKeys i =>
       fold_left (fun sortedKeys j => swapIfGreater sortedKeys i j)
                 (seq (S i) (n - S i)) sortedKeys)
    (seq 0 (n - 1)) keys.

(** [for i, key := range keys { if key != sortedKeys[i] { return false } }];
    the two slices have the same length. *)
Fixpoint keysUnchanged (keys sortedKeys : list string) : bool :=
  match keys, sortedKeys with
  | key :: keys', s :: sortedKeys' =>
      if String.eqb key s then keysUnchanged keys' sortedKeys' else false
  | _, _ => true
  end.

Definition isAlphabetized (items : list Value) (keyExtractor : Value -> string)
  : bool :=
  if Z.of_nat (length items) <? 2 then true
  else
    let keys := List.map keyExtractor items in
    keysUnchanged keys (sortCaseInsensitive keys).

Definition isMapAlphabetized (m : gomap) : bool :=
  if Z.of_nat (length m) <? 2 then true
  else
    let keys := List.map fst m in
    keysUnchanged keys (sortCaseInsensitive keys).

Definition validateAlphabetization (serviceName : string) (service : parser.Service)
    (cfg : config.Config) : list Violation :=
  let violations := [] in
  let violations :=
    if config.ShouldAlphabetize cfg "environment" then
      match golang.map_get "environment" (parser.Config service) with
      | Some (VList env) =>
          if negb (isAlphabetized env extractEnvKey)
          then violations ++ [alphaViolation serviceName service "environment"
                                "environment variables are not alphabetized"]
          else violations
      | Some (VMap envMap) =>
          if negb (isMapAlphabetized envMap)
          then violations ++ [alphaViolation serviceName service "environment"
                                "environment variables are not alphabetized"]
          else violations
      | _ => violations
      end
    else violations in
  let violations :=
    if config.ShouldAlphabetize cfg "volumes" then
      match golang.map_get "volumes" (parser.Config service) with
      | Some (VList vols) =>
          if negb (isAlphabetized vols extractVolumeKey)
          then violations ++ [alphaViolation serviceName service "volumes"
                                "volumes are not alphabetized by source path"]
          else violations
      | _ => violations
      end
    else violations in
  let violations :=
    if config.ShouldAlphabetize cfg "labels" then
      match golang.map_get "labels" (parser.Config service) with
      | Some (VList labels) =>
          if negb (isAlphabetized labels extractLabelKey)
          then violations ++ [alphaViolation serviceName service "labels"
                                "labels are not alphabetized"]
          else violations
      | Some (VMap labelMap) =>
          if negb (isMapAlphabetized labelMap)
          then violations ++ [alphaViolation serviceName service "labels"
                                "labels are not alphabetized"]
          else violations
      | _ => violations
      end
    else violations in
  violations.

Variable Node_String : parser.Node -> string.
Variable yaml_Unmarshal : string -> option Value.

(** [Validate]; its [error] result is always [nil] and is not modelled.  The
    loop visits the services in the order of [map_to_list]. *)
Definition Validate (file : parser.ComposeFile) (cfg : config.Config)
  : ValidationResult :=
  let result := {| File := parser.Path file;
                   Valid := true;
                   Violations := golang.make_slice [] |} in
  let services := parser.GetServices Node_String yaml_Unmarshal file in
  let result :=
    fold_left
      (fun result '(serviceName, service) =>
         let fieldOrder := config.GetFieldOrder cfg serviceName in
         let orderViolations :=
           validateFieldOrder serviceName service fieldOrder cfg in
         let result :=
           {| File := File result; Valid := Valid result;
              Violations := golang.append (Violations result) orderViolations |} in
         let alphaViolations := validateAlphabetization serviceName service cfg in
         {| File := File result; Valid := Valid result;
            Violations := golang.append (Violations result) alphaViolations |})
      (map_to_list services) result in
  if 0 <? golang.len (Violations result)
  then {| File := File result; Valid := false; Violations := Violations result |}
  else result.

End WithToLower.

End validator.

(** ** Package [fixer] *)

Module fixer.

(** The package repeats the three key extractors of [validator]. *)
Definition extractEnvKey (item : Value) : string :=
  match item with
  | VString v =>
      let idx := golang.strings_Index v "=" in
      if 0 <? idx then golang.slice_to v idx else v
  | VMap v =>
      match v with
      | (k, _) :: _ => k
      | [] => ""
      end
  | _ => ""
  end.

Definition extractVolumeKey (item : Value) : string :=
  match item with
  | VString v =>
      match golang.strings_Split v ":"%char with
      | p :: _ => p
      | [] => v
      end
  | _ => ""
  end.

Definition extractLabelKey (item : Value) : string :=
  match item with
  | VString v =>
      let idx := golang.strings_Index v "=" in
      if 0 <? idx then golang.slice_to v idx else v
  | VMap v =>
      match v with
      | (k, _) :: _ => k
      | [] => ""
      end
  | _ => ""
  end.

(** [getFieldIndex], counting from [i]. *)
Fixpoint getFieldIndexFrom (i : Z) (field : string) (fieldOrder : list string) : Z :=
  match fieldOrder with
  | [] => -1
  | f :: rest =>
      if String.eqb f field then i else getFieldIndexFrom (i + 1) field rest
  end.

Definition getFieldIndex (field : string) (fieldOrder : list string) : Z :=
  getFieldIndexFrom 0 field fieldOrder.

(** The loop of [isFieldOrderCorrect] with its variable [lastIndex]. *)
Fixpoint isFieldOrderCorrectFrom (lastIndex : Z) (svc : gomap)
    (fieldOrder : list string) : bool :=
  match svc with
  | [] => true
  | (field, _) :: rest =>
      let idx := getFieldIndex field fieldOrder in
      if 0 <=? idx then
        if idx <? lastIndex then false
        else isFieldOrderCorrectFrom idx rest fieldOrder
      else isFieldOrderCorrectFrom lastIndex rest fieldOrder
  end.

Definition isFieldOrderCorrect (svc : gomap) (fieldOrder : list string) : bool :=
  isFieldOrderCorrectFrom (-1) svc fieldOrder.

(** [for i := range v { if v[i] != sorted[i] { return sorted, true } }]: does
    the sorted copy differ from [v]?  The two slices have the same length. *)
Fixpoint sortingChanged (v sorted : list Value) : option bool :=
  match v, sorted with
  | a :: v', b :: sorted' =>
      match golang.iface_neq a b with
      | None => None
      | Some true => Some true
      | Some false => sortingChanged v' sorted'
      end
  | _, _ => Some false
  end.

(** [for i, key := range keys { if key != sortedKeys[i] { sorted = false } }]. *)
Fixpoint keysSorted (keys sortedKeys : list string) : bool :=
  match keys, sortedKeys with
  | key :: keys', s :: sortedKeys' =>
      if String.eqb key s then keysSorted keys' sortedKeys' else false
  | _, _ => true
  end.

Section WithToLower.

Variable ToLower : string -> string.

(** The [less] function given to [sort.Slice]. *)
Definition lessBy {A : Type} (keyOf : A -> string) (a b : A) : bool :=
  String.ltb (ToLower (keyOf a)) (ToLower (keyOf b)).

(** The case [[]interface{}], which the three functions below repeat with
    their own key extractor. *)
Definition alphabetizeList (keyOf : Value -> string) (value : Value)
    (v : list Value) : option (Value * bool) :=
  if Z.of_nat (length v) <? 2 then Some (value, false)
  else
    let sorted := golang.sort_Slice (lessBy keyOf) v in
    changed ← sortingChanged v sorted;
    if changed : bool then Some (VList sorted, true) else Some (value, false).

(** The case [map[string]interface{}] of environment and labels.  [keys] is
    in the order of the [range] of this call.  The map that the function
    builds from the sorted keys is listed in the order of its writes, which
    Go does not keep: a later [range] visits its keys in any order. *)
Definition alphabetizeMap (value : Value) (v : gomap) : option (Value * bool) :=
  if Z.of_nat (length v) <? 2 then Some (value, false)
  else
    let keys := List.map fst v in
    let sortedKeys := golang.sort_Slice (lessBy id) keys in
    if keysSorted keys sortedKeys then Some (value, false)
    else
      let ordered :=
        fold_left
          (fun ordered key =>
             golang.map_set key (default VNull (golang.map_get key v)) ordered)
          sortedKeys [] in
      Some (VMap ordered, true).

Definition alphabetizeEnvironment (value : Value) : option (Value * bool) :=
  match value with
  | VList v => alphabetizeList extractEnvKey value v
  | VMap v => alphabetizeMap value v
  | _ => Some (value, false)
  end.

Definition alphabetizeVolumes (value : Value) : option (Value * bool) :=
  match value with
  | VList v => alphabetizeList extractVolumeKey value v
  | _ => Some (value, false)
  end.

Definition alphabetizeLabels (value : Value) : option (Value * bool) :=
  match value with
  | VList v => alphabetizeList extractLabelKey value v
  | VMap v => alphabetizeMap value v
  | _ => Some (value, false)
  end.

Definition alphabetizeField (field : string) (value : Value) (cfg : config.Config)
  : option (Value * bool) :=
  if negb (config.ShouldAlphabetize cfg field) then Some (value, false)
  else if String.eqb field "environment" then alphabetizeEnvironment value
  else if String.eqb field "volumes" then alphabetizeVolumes value
  else if String.eqb field "labels" then alphabetizeLabels value
  else Some (value, false).

(** The variables of [fixService] while it runs. *)
Record FixState : Type := {
  changes : list string;
  fixed : bool;
  ordered : gomap;
  svc : gomap
}.

Definition alphabetizedMessage (name field : string) : string :=
  "service '" +:+ name +:+ "': alphabetized '" +:+ field +:+ "'".

Definition reorderedMessage (name : string) : string :=
  "service '" +:+ name +:+ "': reordered fields".

(** Both loops: alphabetize [value], log the change, write [ordered[field]]. *)
Definition addField (name : string) (cfg : config.Config) (field : string)
    (value : Value) (st : FixState) : option FixState :=
  '(alphabetizedValue, alphaFixed) ← alphabetizeField field value cfg;
  Some {| changes := if alphaFixed : bool
                     then changes st ++ [alphabetizedMessage name field]
                     else changes st;
          fixed := if alphaFixed : bool then true else fixed st;
          ordered := golang.map_set field alphabetizedValue (ordered st);
          svc := svc st |}.

(** [for _, field := range fieldOrder]. *)
Fixpoint addOrderedFields (name : string) (cfg : config.Config)
    (fieldOrder : list string) (st : FixState) : option FixState :=
  match fieldOrder with
  | [] => Some st
  | field :: rest =>
      match golang.map_get field (svc st) with
      | Some value =>
          st' ← addField name cfg field value st;
          addOrderedFields name cfg rest
            {| changes := changes st'; fixed := fixed st'; ordered := ordered st';
               svc := golang.map_delete field (svc st') |}
      | None => addOrderedFields name cfg rest st
      end
  end.

(** [for field, value := range svc], over what the first loop left. *)
Fixpoint addRemainingFields (name : string) (cfg : config.Config)
    (remaining : gomap) (st : FixState) : option FixState :=
  match remaining with
  | [] => Some st
  | (field, value) :: rest =>
      st' ← addField name cfg field value st;
      addRemainingFields name cfg rest st'
  end.

(** [fixService].  The result holds the two values the function returns and
    the final content of [svc], which the function changes in place.  It also
    holds the local map [ordered], listed in the order of its writes: Go
    keeps no order for it, and the function copies it back into [svc] and
    drops it, so that its entries reach the caller and their order does
    not. *)
Definition fixService (name : string) (svc0 : gomap) (fieldOrder : list string)
    (cfg : config.Config) : option FixState :=
  st ← addOrderedFields name cfg fieldOrder
         {| changes := []; fixed := false; ordered := []; svc := svc0 |};
  st ← addRemainingFields name cfg (svc st) st;
  let st :=
    if negb (isFieldOrderCorrect (svc st) fieldOrder)
    then {| changes := changes st ++ [reorderedMessage name]; fixed := true;
            ordered := ordered st; svc := svc st |}
    else st in
  Some {| changes := changes st; fixed := fixed st; ordered := ordered st;
          svc := fold_left (fun svc '(field, value) => golang.map_set field value svc)
                   (ordered st) (svc st) |}.

(** What [FixBytes] returns: the bytes and the changes, or an error. *)
Inductive FixBytesResult : Type :=
| Output (data : string) (changes : golang.slice string)
| Error (message : string).

Variable yaml_Unmarshal : string -> option gomap.
Variable yaml_Marshal : gomap -> option string.

(** The loop of [FixBytes] over the services: the changes, the flag [fixed]
    and the services map, whose service maps [fixService] changes in place. *)
Fixpoint fixServices (cfg : config.Config) (entries : gomap)
    (acc : list string * bool * gomap) : option (list string * bool * gomap) :=
  match entries with
  | [] => Some acc
  | (serviceName, VMap svcMap) :: rest =>
      let '(changes0, fixed0, services) := acc in
      let fieldOrder := config.GetFieldOrder cfg serviceName in
      st ← fixService serviceName svcMap fieldOrder cfg;
      let services := golang.map_set serviceName (VMap (svc st)) services in
      if fixed st
      then fixServices cfg rest (changes0 ++ changes st, true, services)
      else fixServices cfg rest (changes0, fixed0, services)
  | _ :: rest => fixServices cfg rest acc
  end.

Definition FixBytes (data : string) (cfg : config.Config) : option FixBytesResult :=
  match yaml_Unmarshal data with
  | None => Some (Error "failed to parse YAML")
  | Some composeContent =>
      match golang.map_get "services" composeContent with
      | Some (VMap services) =>
          '(changes, fixed, services) ← fixServices cfg services ([], false, services);
          if negb fixed then Some (Output data golang.nil_slice)
          else
            match yaml_Marshal
                    (golang.map_set "services" (VMap services) composeContent) with
            | None => Some (Error "failed to marshal fixed content")
            | Some output => Some (Output output (golang.make_slice changes))
            end
      | _ => Some (Output data golang.nil_slice)
      end
  end.

End WithToLower.

(** [FixResult]; no code assigns its field [Error]. *)
Record FixResult : Type := {
  File : string;
  Fixed : bool;
  Changes : golang.slice string;
  Error_ : option string
}.

Section Fix.

(** [strings.ToLower]; the file system with [os.ReadFile] and [os.WriteFile],
    which returns the file system it leaves and its error; the YAML library
    with the text of its errors. *)
Variable ToLower : string -> string.
Variable World : Type.
Variable os_ReadFile : World -> string -> golang.result string.
Variable os_WriteFile : World -> string -> string -> World * option string.
Variable yaml_Unmarshal : string -> golang.result gomap.
Variable yaml_Marshal : gomap -> golang.result string.

(** [Fix].  Its loop over the services is the one of [FixBytes].  The result
    is [None] when [fixService] panics. *)
Definition Fix (file : parser.ComposeFile) (cfg : config.Config) (w : World)
  : option (World * golang.result FixResult) :=
  let path := parser.Path file in
  match os_ReadFile w path with
  | golang.Err err =>
      Some (w, golang.Err (golang.wrap ("failed to read file " +:+ path) err))
  | golang.Ok data =>
      match yaml_Unmarshal data with
      | golang.Err err =>
          Some (w, golang.Err (golang.wrap ("failed to parse file " +:+ path) err))
      | golang.Ok composeContent =>
          match golang.map_get "services" composeContent with
          | Some (VMap services) =>
              '(changes, fixed, services) ←
                fixServices ToLower cfg services ([], false, services);
              if fixed : bool then
                match yaml_Marshal
                        (golang.map_set "services" (VMap services) composeContent) with
                | golang.Err err =>
                    Some (w, golang.Err
                               (golang.wrap "failed to marshal fixed content" err))
                | golang.Ok output =>
                    match os_WriteFile w path output with
                    | (w', Some err) =>
                        Some (w', golang.Err
                                    (golang.wrap ("failed to write fixed file " +:+ path)
                                                 err))
                    | (w', None) =>
                        Some (w', golang.Ok {| File := path;
                                               Fixed := true;
                                               Changes := golang.make_slice changes;
                                               Error_ := None |})
                    end
                end
              else Some (w, golang.Ok {| File := path;
                                         Fixed := false;
                                         Changes := golang.make_slice changes;
                                         Error_ := None |})
          | _ =>
              Some (w, golang.Ok {| File := path;
                                    Fixed := false;
                                    Changes := golang.make_slice [];
                                    Error_ := None |})
          end
      end
  end.

End Fix.

End fixer.

(** ** Package [main] *)

Module main.

(** The flags of the command line, which the program keeps in package
    variables. *)
Record Flags : Type := {
  verbose : bool;
  fixMode : bool;
  configPath : string;
  checkOrder : bool;
  checkAlpha : bool
}.

(** What the program writes to the standard output: the text of a
    [fmt.Printf] or [fmt.Println], or the line of a [color.Blue], [color.Green],
    [color.Red] or [color.Yellow]. *)
Inductive Color : Type := Blue | Green | Red | Yellow.

Inductive Event : Type :=
| Print (text : string)
| Colored (c : Color) (line : string).

(** How [run] ends: it returns its error, or it calls [os.Exit]. *)
Inductive Outcome : Type :=
| Return (err : option string)
| Exit (code : Z).

(** The end of [main]: it exits with status 1 when the command returns an
    error. *)
Definition exitStatus (o : Outcome) : Z :=
  match o with
  | Return None => 0
  | Return (Some _) => 1
  | Exit code => code
  end.

Definition printLine (v : validator.Violation) : list Event :=
  if 0 <? validator.Line v
  then [Print ("    Line: " +:+ pretty (validator.Line v) +:+ golang.newline)]
  else [].

Definition printViolation (v : validator.Violation) (cfg : config.Config)
  : list Event :=
  if String.eqb (validator.Type_ v) "order" then
    [Print ("  Service '" +:+ validator.Service v +:+ "': " +:+ validator.Message v
            +:+ golang.newline)]
    ++ (if negb (String.eqb (validator.Expected v) "")
           && negb (String.eqb (validator.Actual v) "")
        then [Print ("    Expected: '" +:+ validator.Expected v
                     +:+ "' at this position" +:+ golang.newline);
              Print ("    Actual: '" +:+ validator.Actual v +:+ "'" +:+ golang.newline)]
        else [])
    ++ printLine v
  else if String.eqb (validator.Type_ v) "alphabetization" then
    [Print ("  Service '" +:+ validator.Service v +:+ "': " +:+ validator.Message v
            +:+ golang.newline);
     Print ("    Field '" +:+ validator.Field v +:+ "' should be alphabetized"
            +:+ golang.newline)]
    ++ printLine v
  else [].

Section Run.

(** [strings.ToLower]; the operating system and [path/filepath]; the YAML
    library. *)
Variable ToLower : string -> string.
Variable World : Type.
Variable os_Getwd : World -> golang.result string.
Variable os_Stat : World -> string -> bool.
Variable os_ReadFile : World -> string -> golang.result string.
Variable os_WriteFile : World -> string -> string -> World * option string.
Variable filepath_Glob : World -> string -> golang.result (list string).
Variable filepath_Join : string -> string -> string.
Variable filepath_Dir : string -> string.
Variable filepath_Base : string -> string.
Variable filepath_Match : string -> string -> bool.
Variable Separator : ascii.
Variable Node_String : parser.Node -> string.
Variable yaml_ParseBytes : string -> golang.result (list (option parser.DocumentNode)).
Variable yaml_Unmarshal : string -> option Value.
Variable yaml_Unmarshal_map : string -> golang.result gomap.
Variable yaml_Unmarshal_config : string -> config.Config -> golang.result config.Config.
Variable yaml_Marshal : gomap -> golang.result string.

Local Abbreviation ParseFile := (parser.ParseFile World os_ReadFile yaml_ParseBytes).
Local Abbreviation Validate := (validator.Validate ToLower Node_String yaml_Unmarshal).
Local Abbreviation Fix :=
  (fixer.Fix ToLower World os_ReadFile os_WriteFile yaml_Unmarshal_map yaml_Marshal).
Local Abbreviation IsExcluded :=
  (config.IsExcluded Separator filepath_Match filepath_Base).
Local Abbreviation LoadFromFile :=
  (config.LoadFromFile World os_ReadFile yaml_Unmarshal_config).
Local Abbreviation Load :=
  (config.Load World os_Getwd os_Stat os_ReadFile filepath_Join filepath_Dir
     yaml_Unmarshal_config).

(** [processFile], from the file system [w] and after the output [out].
    The result is [None] when [Fix] panics. *)
Definition processFile (flags : Flags) (path : string) (cfg : config.Config)
    (w : World) (out : list Event)
  : option (World * list Event * golang.result validator.ValidationResult) :=
  match ParseFile w path with
  | golang.Err err => Some (w, out, golang.Err err)
  | golang.Ok file =>
      let result := Validate file cfg in
      if fixMode flags && negb (validator.Valid result) then
        '(w, fixed) ← Fix file cfg w;
        match fixed with
        | golang.Err err =>
            Some (w, out, golang.Err (golang.wrap "failed to fix file" err))
        | golang.Ok fixResult =>
            if fixer.Fixed fixResult then
              let out :=
                out ++ [Colored Green ("✓ Fixed " +:+ path +:+ ":")]
                    ++ List.map (fun change =>
                                   Print ("  - " +:+ change +:+ golang.newline))
                                (golang.elems (fixer.Changes fixResult)) in
              match ParseFile w path with
              | golang.Err err => Some (w, out, golang.Err err)
              | golang.Ok file => Some (w, out, golang.Ok (Validate file cfg))
              end
            else Some (w, out, golang.Ok result)
        end
      else if negb (validator.Valid result) then
        Some (w,
              out ++ [Colored Red ("✗ " +:+ path +:+ ":")]
                  ++ flat_map (fun v => printViolation v cfg)
                              (golang.elems (validator.Violations result)),
              golang.Ok result)
      else if verbose flags then
        Some (w, out ++ [Colored Green ("✓ " +:+ path +:+ ": valid")], golang.Ok result)
      else Some (w, out, golang.Ok result)
  end.

(** The variables of the loops of [run]. *)
Record RunState : Type := {
  world : World;
  stdout : list Event;
  allValid : bool;
  totalViolations : Z
}.

(** [for _, file := range files]. *)
Fixpoint processFiles (flags : Flags) (cfg : config.Config) (files : list string)
    (st : RunState) : option RunState :=
  match files with
  | [] => Some st
  | file :: rest =>
      if IsExcluded cfg file then
        processFiles flags cfg rest
          {| world := world st;
             stdout := if verbose flags
                       then stdout st ++ [Colored Yellow ("Skipping excluded file: " +:+ file)]
                       else stdout st;
             allValid := allValid st;
             totalViolations := totalViolations st |}
      else
        '(w, out, processed) ← processFile flags file cfg (world st) (stdout st);
        match processed with
        | golang.Err err =>
            processFiles flags cfg rest
              {| world := w;
                 stdout := out ++ [Colored Red ("Error processing " +:+ file +:+ ": "
                                                +:+ err)];
                 allValid := false;
                 totalViolations := totalViolations st |}
        | golang.Ok result =>
            if negb (validator.Valid result) then
              processFiles flags cfg rest
                {| world := w;
                   stdout := out;
                   allValid := false;
                   totalViolations :=
                     totalViolations st + golang.len (validator.Violations result) |}
            else
              processFiles flags cfg rest
                {| world := w;
                   stdout := out;
                   allValid := allValid st;
                   totalViolations := totalViolations st |}
        end
  end.

(** [for _, pattern := range args]; the error is the one of [filepath.Glob],
    with which [run] returns. *)
Fixpoint processPatterns (flags : Flags) (cfg : config.Config) (patterns : list string)
    (st : RunState) : option (RunState * option string) :=
  match patterns with
  | [] => Some (st, None)
  | pattern :: rest =>
      match filepath_Glob (world st) pattern with
      | golang.Err err =>
          Some (st, Some (golang.wrap ("invalid pattern " +:+ pattern) err))
      | golang.Ok files =>
          if Z.of_nat (length files) =? 0 then
            processPatterns flags cfg rest
              {| world := world st;
                 stdout := stdout st
                           ++ [Colored Yellow ("Warning: no files match pattern "
                                               +:+ pattern)];
                 allValid := allValid st;
                 totalViolations := totalViolations st |}
          else
            st ← processFiles flags cfg files st;
            processPatterns flags cfg rest st
      end
  end.

(** [run].  [fuel] bounds the number of directories that [config.Load]
    visits; the result is [None] when that is not enough or when the program
    panics. *)
Definition run (flags : Flags) (args : list string) (fuel : nat) (w : World)
    (out : list Event) : option (World * list Event * Outcome) :=
  if Z.of_nat (length args) =? 0 then
    Some (w, out, Return (Some "no files specified"))
  else
    loaded ← (if negb (String.eqb (configPath flags) "")
              then Some (LoadFromFile w (configPath flags))
              else Load fuel w);
    match loaded with
    | golang.Err err =>
        Some (w, out, Return (Some (golang.wrap "failed to load configuration" err)))
    | golang.Ok cfg =>
        let out :=
          if verbose flags then
            out ++ [Colored Blue "Loaded configuration";
                    Print ("Field order: " +:+ golang.format_strings (config.FieldOrder cfg)
                           +:+ golang.newline);
                    Print ("Alphabetization: env="
                           +:+ golang.format_bool
                                 (config.Environment (config.Alphabetization cfg))
                           +:+ ", volumes="
                           +:+ golang.format_bool
                                 (config.Volumes (config.Alphabetization cfg))
                           +:+ ", labels="
                           +:+ golang.format_bool
                                 (config.Labels (config.Alphabetization cfg))
                           +:+ golang.newline)]
          else out in
        '(st, err) ← processPatterns flags cfg args
                       {| world := w; stdout := out; allValid := true;
                          totalViolations := 0 |};
        match err with
        | Some err => Some (world st, stdout st, Return (Some err))
        | None =>
            if allValid st then
              Some (world st,
                    stdout st ++ [Colored Green "✓ All files are valid!"],
                    Return None)
            else
              Some (world st,
                    stdout st
                    ++ [Colored Red ("✗ Found " +:+ pretty (totalViolations st)
                                     +:+ " violation(s)")]
                    ++ (if negb (fixMode flags)
                        then [Print (golang.newline
                                     +:+ "Run with --fix to automatically correct issues"
                                     +:+ golang.newline)]
                        else []),
                    Exit 1)
        end
    end.

End Run.

Arguments Build_RunState {World} world stdout allValid totalViolations.
Arguments world {World} r.
Arguments stdout {World} r.
Arguments allValid {World} r.
Arguments totalViolations {World} r.

End main.

(** ** Notions used to state the properties *)

Module spec.

(** [a] is not greater than [b] once both are lowered: the order of the
    alphabetization rules. *)
Definition caseLe (ToLower : string -> string) (a b : string) : Prop :=
  String.ltb (ToLower b) (ToLower a) = false.

(** No name occurs twice in [names]. *)
Fixpoint distinct (names : list string) : bool :=
  match names with
  | [] => true
  | n :: rest => negb (validator.isInFieldOrder n rest) && distinct rest
  end.

(** A service map as Go can hold it: distinct field names, and distinct keys
    in every mapping that is the value of a field. *)
Definition wellFormed (svc : gomap) : bool :=
  distinct (List.map fst svc)
  && forallb (fun '(_, v) =>
                match v with
                | VMap m => distinct (List.map fst m)
                | _ => true
                end) svc.

(** A value that [!=] can compare with a value of its own type. *)
Definition comparable (v : Value) : bool :=
  match v with
  | VList _ | VMap _ => false
  | _ => true
  end.

(** Every sequence-valued field that the policy alphabetizes holds
    comparable entries only, strings for instance. *)
Definition comparableEntries (cfg : config.Config) (svc : gomap) : bool :=
  forallb (fun '(field, v) =>
             match v with
             | VList items =>
                 negb (config.ShouldAlphabetize cfg field) || forallb comparable items
             | _ => true
             end) svc.

(** The service that has the fields of [m], declared in the order of [m]. *)
Definition serviceOf (name : string) (m : gomap) (line column : Z) : parser.Service :=
  {| parser.Name := name;
     parser.Config := m;
     parser.FieldOrder := List.map fst m;
     parser.Line := line;
     parser.Column := column |}.

(** Step 1 of the checker: the declared fields that the canonical order
    names. *)
Definition actualFields (service : parser.Service) (fieldOrder : list string)
  : list string :=
  List.filter (fun f => validator.isInFieldOrder f fieldOrder)
              (parser.FieldOrder service).

(** Step 2: the canonical fields that the service has. *)
Definition expectedFields (service : parser.Service) (fieldOrder : list string)
  : list string :=
  List.filter (fun f => golang.map_has f (parser.Config service)) fieldOrder.

(** Step 3: walk the two sequences pairwise and report the pairs that
    differ. *)
Definition positionalDiff (serviceName : string) (service : parser.Service)
    (actual expected : list string) : list validator.Violation :=
  List.map (fun '(a, e) => validator.orderViolation serviceName service a e)
    (List.filter (fun '(a, e) => negb (String.eqb a e)) (combine actual expected)).

(** Step 4: the declared fields that the canonical order does not name. *)
Definition unknownFields (service : parser.Service) (fieldOrder : list string)
  : list string :=
  List.filter (fun f => negb (validator.isInFieldOrder f fieldOrder))
              (parser.FieldOrder service).

(** The sort keys of the entries of a special field, as the checker reads
    them: one key per entry of a sequence, the keys of a mapping for
    environment and labels, nothing otherwise. *)
Definition entryKeys (field : string) (value : option Value) : list string :=
  match value with
  | Some (VList items) =>
      if String.eqb field "environment" then List.map validator.extractEnvKey items
      else if String.eqb field "volumes" then List.map validator.extractVolumeKey items
      else if String.eqb field "labels" then List.map validator.extractLabelKey items
      else []
  | Some (VMap m) =>
      if String.eqb field "volumes" then [] else List.map fst m
  | _ => []
  end.

(** The violations of [vs] that name the field [field]. *)
Definition violationsOf (field : string) (vs : list validator.Violation)
  : list validator.Violation :=
  List.filter (fun v => String.eqb (validator.Field v) field) vs.

(** The fields of [svc] that the canonical order names, in canonical order,
    each once; and the fields it does not name, in the order of [svc]. *)
Fixpoint canonicalPart (fieldOrder : list string) (svc : gomap) : gomap :=
  match fieldOrder with
  | [] => []
  | f :: rest =>
      match golang.map_get f svc with
      | Some v => (f, v) :: canonicalPart rest (golang.map_delete f svc)
      | None => canonicalPart rest svc
      end
  end.

Definition unknownPart (fieldOrder : list string) (svc : gomap) : gomap :=
  List.filter (fun '(f, _) => negb (validator.isInFieldOrder f fieldOrder)) svc.

(** The sequence in which the rewriter places the fields of [svc]. *)
Definition placement (fieldOrder : list string) (svc : gomap) : gomap :=
  canonicalPart fieldOrder svc ++ unknownPart fieldOrder svc.

(** The writes [m[k] = v] for the entries of [entries], in their order. *)
Definition writeAll (entries m : gomap) : gomap :=
  fold_left (fun m '(k, v) => golang.map_set k v m) entries m.

(** Two values that hold the same entries, possibly in another order. *)
Definition sameEntries (v v' : Value) : Prop :=
  match v, v' with
  | VList l, VList l' => l ≡ₚ l'
  | VMap m, VMap m' => m ≡ₚ m'
  | _, _ => v = v'
  end.

Definition specialFields : list string := ["environment"; "volumes"; "labels"].

(** The byte [c] occurs in [s]. *)
Fixpoint hasByte (c : ascii) (s : string) : bool :=
  match s with
  | EmptyString => false
  | String c' s' => Ascii.eqb c' c || hasByte c s'
  end.

(** A value that is a mapping, as a volume in the long syntax is. *)
Definition isMapping (v : Value) : bool :=
  match v with
  | VMap _ => true
  | _ => false
  end.

(** The fields of a service mapping by their names, and the value that
    [GetServices] stores for a field: what [yaml.Unmarshal] decodes, or the
    text of the node when the decoding fails. *)
Definition named (fields : list (parser.Key * parser.Node))
  : list (string * parser.Node) :=
  List.map (fun '(k, v) => (parser.Key_String k, v)) fields.

Definition decoded (Node_String : parser.Node -> string)
    (yaml_Unmarshal : string -> option Value) (v : parser.Node) : Value :=
  match yaml_Unmarshal (Node_String v) with
  | Some value => value
  | None => VString (Node_String v)
  end.

(** What one turn of the loop of [Validate] adds to the violations. *)
Definition serviceViolations (ToLower : string -> string) (cfg : config.Config)
    (entry : string * parser.Service) : list validator.Violation :=
  validator.validateFieldOrder (fst entry) (snd entry)
    (config.GetFieldOrder cfg (fst entry)) cfg
  ++ validator.validateAlphabetization ToLower (fst entry) (snd entry) cfg.

(** The first line that [printViolation] prints for a violation. *)
Definition headerLine (v : validator.Violation) : main.Event :=
  main.Print ("  Service '" +:+ validator.Service v +:+ "': " +:+ validator.Message v
              +:+ golang.newline).

(** The value of a result, when its error is [nil]. *)
Definition okValue {A : Type} (r : golang.result A) : option A :=
  match r with
  | golang.Ok a => Some a
  | golang.Err _ => None
  end.

Section WithToLower.

Variable ToLower : string -> string.

(** What [alphabetizeField] does to one field: whether it returns, the
    entry it returns and its flag. *)
Definition completes (cfg : config.Config) (e : string * Value) : bool :=
  match fixer.alphabetizeField ToLower (fst e) (snd e) cfg with
  | Some _ => true
  | None => false
  end.

Definition alphabetized (cfg : config.Config) (e : string * Value) : string * Value :=
  match fixer.alphabetizeField ToLower (fst e) (snd e) cfg with
  | Some (v, _) => (fst e, v)
  | None => e
  end.

Definition wasChanged (cfg : config.Config) (e : string * Value) : bool :=
  match fixer.alphabetizeField ToLower (fst e) (snd e) cfg with
  | Some (_, changed) => changed
  | None => false
  end.

(** The test that [validateAlphabetization] applies to the field [field]
    when the policy alphabetizes it, its message and its report. *)
Definition keyExtractor (field : string) : Value -> string :=
  if String.eqb field "environment" then validator.extractEnvKey
  else if String.eqb field "volumes" then validator.extractVolumeKey
  else validator.extractLabelKey.

Definition inOrder (field : string) (value : option Value) : bool :=
  match value with
  | Some (VList items) => validator.isAlphabetized ToLower items (keyExtractor field)
  | Some (VMap m) =>
      if String.eqb field "volumes" then true
      else validator.isMapAlphabetized ToLower m
  | _ => true
  end.

Definition alphabetizationMessage (field : string) : string :=
  if String.eqb field "environment" then "environment variables are not alphabetized"
  else if String.eqb field "volumes" then "volumes are not alphabetized by source path"
  else "labels are not alphabetized".

Definition alphabetizationReport (name : string) (service : parser.Service)
    (cfg : config.Config) (field : string) : list validator.Violation :=
  if config.ShouldAlphabetize cfg field
     && negb (inOrder field (golang.map_get field (parser.Config service)))
  then [validator.alphaViolation name service field (alphabetizationMessage field)]
  else [].

(** The Fix Records for the entries whose value the rewriter sorted. *)
Definition fixRecords (name : string) (cfg : config.Config) (es : gomap)
  : list string :=
  List.map (fun e => fixer.alphabetizedMessage name (fst e))
           (List.filter (wasChanged cfg) es).

(** The checker finds nothing to report on the service. *)
Definition compliant (name : string) (service : parser.Service)
    (fieldOrder : list string) (cfg : config.Config) : Prop :=
  validator.validateFieldOrder name service fieldOrder cfg = []
  /\ validator.validateAlphabetization ToLower name service cfg = [].

End WithToLower.

End spec.

(** ** The scenarios of the specification *)

Module scenario.

Definition service (fieldOrder : list string) (cfg : gomap) : parser.Service :=
  {| parser.Name := "web";
     parser.Config := cfg;
     parser.FieldOrder := fieldOrder;
     parser.Line := 1;
     parser.Column := 1 |}.

(** A service that declares [image] before [container_name]. *)
Definition misordered : parser.Service :=
  service ["image"; "container_name"; "environment"]
    [("image", VString "nginx:latest");
     ("container_name", VString "web-server");
     ("environment", VList [VString "KEY=value"])].

(** A service with a field that the canonical order does not name. *)
Definition withCustomField : parser.Service :=
  service ["container_name"; "image"; "custom_field"]
    [("container_name", VString "web-server");
     ("image", VString "nginx:latest");
     ("custom_field", VString "custom_value")].

(** A service whose environment is not in order. *)
Definition unsortedEnvironment : parser.Service :=
  service ["container_name"; "image"; "environment"]
    [("container_name", VString "web-server");
     ("image", VString "nginx:latest");
     ("environment", VList [VString "ZZZ=v1"; VString "AAA=v2"])].

Definition strictConfig : config.Config :=
  {| config.FieldOrder := config.DefaultFieldOrder;
     config.Alphabetization :=
       {| config.Environment := true; config.Volumes := true; config.Labels := true |};
     config.Strict := true;
     config.Exclude := [];
     config.ServiceOverrides := ∅ |}.

(** The default policy with the alphabetization of environment disabled. *)
Definition environmentDisabled : config.Config :=
  {| config.FieldOrder := config.DefaultFieldOrder;
     config.Alphabetization :=
       {| config.Environment := false; config.Volumes := true; config.Labels := true |};
     config.Strict := false;
     config.Exclude := [];
     config.ServiceOverrides := ∅ |}.

(** A compliant service with two volumes in the long syntax, which are
    mappings. *)
Definition longVolumes : gomap :=
  [("image", VString "nginx:latest");
   ("volumes",
    VList [VMap [("type", VString "bind"); ("source", VString "/aaa")];
           VMap [("type", VString "bind"); ("source", VString "/zzz")]])].

(** A service whose environment is a mapping, with its keys as one [range]
    may visit them, and the same service with the keys as the rewriter
    writes them. *)
Definition mappingEnvironment : gomap :=
  [("image", VString "nginx:latest");
   ("environment", VMap [("ZZZ", VString "v1"); ("AAA", VString "v2")])].

Definition mappingEnvironmentSorted : gomap :=
  [("image", VString "nginx:latest");
   ("environment", VMap [("AAA", VString "v2"); ("ZZZ", VString "v1")])].

(** A file of two documents that both define the service web, at lines 2
    and 7. *)
Definition key (name : string) (line column : Z) : parser.Key :=
  {| parser.Key_String := name; parser.Key_Line := line; parser.Key_Column := column |}.

Definition firstDocument : option parser.DocumentNode :=
  Some {| parser.Body := Some (parser.MappingNode
            [(key "services" 1 1,
              parser.MappingNode
                [(key "web" 2 3,
                  parser.MappingNode [(key "image" 3 5, parser.OtherNode "nginx")])])]) |}.

Definition secondDocument : option parser.DocumentNode :=
  Some {| parser.Body := Some (parser.MappingNode
            [(key "services" 6 1,
              parser.MappingNode
                [(key "web" 7 3,
                  parser.MappingNode [(key "image" 8 5, parser.OtherNode "httpd")])])]) |}.

End scenario.

(** ** Instances of the parameters, for the examples *)

Module example.

(** A file system given by its paths and their bytes, and a YAML library
    that knows three texts: [unsorted] holds the service web of
    [scenario.unsortedEnvironment], [misordered] the one of
    [scenario.misordered], and [fixed], which is what it writes for any
    content, the service web with its fields and its environment in order. *)
Definition World : Type := list (string * string).

Definition readFile (w : World) (path : string) : golang.result string :=
  match golang.map_get path w with
  | Some data => golang.Ok data
  | None => golang.Err "no such file"
  end.

Definition writeFile (w : World) (path data : string) : World * option string :=
  (golang.map_set path data w, None).

Definition services (web : gomap) : gomap := [("services", VMap [("web", VMap web)])].

Definition unmarshal (data : string) : golang.result gomap :=
  if String.eqb data "unsorted"
  then golang.Ok (services (parser.Config scenario.unsortedEnvironment))
  else if String.eqb data "misordered"
  then golang.Ok (services (parser.Config scenario.misordered))
  else if String.eqb data "fixed"
  then golang.Ok (services [("container_name", VString "web-server");
                            ("image", VString "nginx:latest");
                            ("environment", VList [VString "AAA=v2"; VString "ZZZ=v1"])])
  else golang.Err "cannot parse".

Definition marshal (content : gomap) : golang.result string := golang.Ok "fixed".

Definition disk : World :=
  [("compose.yml", "unsorted"); ("misordered.yml", "misordered")].

Definition composeFile (path : string) : parser.ComposeFile :=
  {| parser.Path := path; parser.Documents := []; parser.RawData := "" |}.

(** A YAML library whose nodes print as their text and whose scalars decode
    to strings. *)
Definition nodeString (n : parser.Node) : string :=
  match n with
  | parser.OtherNode text => text
  | parser.MappingNode _ => ""
  end.

Definition unmarshalValue (text : string) : option Value := Some (VString text).

(** A process that runs in [/srv/app], with a configuration file in [/srv];
    a YAML library that decodes every configuration file to the same
    settings. *)
Definition getwd (w : World) : golang.result string := golang.Ok "/srv/app".

Definition stat (w : World) (path : string) : bool := golang.map_has path w.

Definition joinPath (dir name : string) : string := dir +:+ "/" +:+ name.

Definition parentDir (dir : string) : string :=
  if String.eqb dir "/srv/app" then "/srv" else "/".

Definition unmarshalConfig (data : string) (c : config.Config)
  : golang.result config.Config :=
  golang.Ok {| config.FieldOrder := [];
               config.Alphabetization := config.Alphabetization c;
               config.Strict := true;
               config.Exclude := config.Exclude c;
               config.ServiceOverrides := config.ServiceOverrides c |}.

(** A YAML parser that finds no document, a [filepath.Glob] that returns its
    pattern, a [filepath.Match] that compares the two names, and flags that
    name a configuration file. *)
Definition parseBytes (data : string)
  : golang.result (list (option parser.DocumentNode)) :=
  golang.Ok [].

Definition glob (w : World) (pattern : string) : golang.result (list string) :=
  golang.Ok [pattern].

Definition matchName (pattern name : string) : bool := String.eqb pattern name.

Definition baseName (path : string) : string := path.

Definition checkFlags : main.Flags :=
  {| main.verbose := false;
     main.fixMode := false;
     main.configPath := "compose.yml";
     main.checkOrder := false;
     main.checkAlpha := false |}.

(** A YAML parser that finds, in any text, one document with the service
    web, which declares [image] before [container_name]; and the flags of a
    run with [--fix]. *)
Definition misorderedDocument : option parser.DocumentNode :=
  Some {| parser.Body := Some (parser.MappingNode
            [(scenario.key "services" 1 1,
              parser.MappingNode
                [(scenario.key "web" 2 3,
                  parser.MappingNode
                    [(scenario.key "image" 3 5, parser.OtherNode "nginx:latest");
                     (scenario.key "container_name" 4 5,
                      parser.OtherNode "web-server")])])]) |}.

Definition parseMisordered (data : string)
  : golang.result (list (option parser.DocumentNode)) :=
  golang.Ok [misorderedDocument].

Definition fixFlags : main.Flags :=
  {| main.verbose := false;
     main.fixMode := true;
     main.configPath := "";
     main.checkOrder := false;
     main.checkAlpha := false |}.

Definition orderOnlyFlags : main.Flags :=
  {| main.verbose := false;
     main.fixMode := false;
     main.configPath := "compose.yml";
     main.checkOrder := true;
     main.checkAlpha := false |}.

Definition configDisk : World :=
  [("/srv/compose-validator.yml", "strict: true"); ("/srv/app/compose.yml", "unsorted")].

(** The text of a file whose service web declares [image] before
    [container_name], and a YAML library that knows this text: its syntax
    tree, the values of the nodes of its fields, and its content. *)
Definition misorderedText : string :=
  "services:" +:+ golang.newline
  +:+ "  web:" +:+ golang.newline
  +:+ "    image: nginx:latest" +:+ golang.newline
  +:+ "    container_name: web-server" +:+ golang.newline
  +:+ "    environment:" +:+ golang.newline
  +:+ "      - KEY=value" +:+ golang.newline.

Definition misorderedTree : option parser.DocumentNode :=
  Some {| parser.Body := Some (parser.MappingNode
            [(scenario.key "services" 1 1,
              parser.MappingNode
                [(scenario.key "web" 2 3,
                  parser.MappingNode
                    [(scenario.key "image" 3 5, parser.OtherNode "nginx:latest");
                     (scenario.key "container_name" 4 5,
                      parser.OtherNode "web-server");
                     (scenario.key "environment" 5 5,
                      parser.OtherNode "- KEY=value")])])]) |}.

Definition parseText (data : string)
  : golang.result (list (option parser.DocumentNode)) :=
  if String.eqb data misorderedText then golang.Ok [misorderedTree]
  else golang.Err "cannot parse".

Definition unmarshalNode (text : string) : option Value :=
  if String.eqb text "- KEY=value" then Some (VList [VString "KEY=value"])
  else Some (VString text).

Definition unmarshalText (data : string) : golang.result gomap :=
  if String.eqb data misorderedText
  then golang.Ok (services (parser.Config scenario.misordered))
  else golang.Err "cannot parse".

Definition misorderedDisk : World := [("docker-compose.yml", misorderedText)].

Definition misorderedFile : parser.ComposeFile :=
  {| parser.Path := "docker-compose.yml";
     parser.Documents := [misorderedTree];
     parser.RawData := misorderedText |}.

End example.

(** * Properties *)

(** ** The order of Go strings *)

Section StringOrder.

Lemma ltb_compare (a b : string) :
  String.ltb a b = true <-> String.compare a b = Lt.
Proof. unfold String.ltb. destruct (String.compare a b); split; congruence. Qed.

Lemma ltb_irrefl (a : string) : String.ltb a a = false.
Proof.
  destruct (String.ltb a a) eqn:E; [|done].
  apply ltb_compare, String_as_OT.cmp_lt in E.
  by apply String_as_OT.lt_not_eq in E.
Qed.

Lemma ltb_trans (a b c : string) :
  String.ltb a b = true -> String.ltb b c = true -> String.ltb a c = true.
Proof.
  rewrite !ltb_compare. intros H1 H2.
  apply String_as_OT.cmp_lt in H1, H2. apply String_as_OT.cmp_lt.
  by eapply String_as_OT.lt_trans.
Qed.

Lemma ltb_asym (a b : string) :
  String.ltb a b = true -> String.ltb b a = false.
Proof.
  intros H. destruct (String.ltb b a) eqn:E; [|done].
  pose proof (ltb_trans _ _ _ H E) as Haa. by rewrite ltb_irrefl in Haa.
Qed.

Lemma ltb_connected (a b : string) :
  String.ltb a b = false -> String.ltb b a = false -> a = b.
Proof.
  unfold String.ltb. rewrite (String.compare_antisym b a).
  destruct (String.compare a b) eqn:E; simpl; try congruence.
  intros _ _. by apply String.compare_eq_iff.
Qed.

Lemma ltb_neg_trans (a b c : string) :
  String.ltb b a = false -> String.ltb c b = false -> String.ltb c a = false.
Proof.
  intros Hab Hbc. destruct (String.ltb c a) eqn:Hca; [|done].
  destruct (String.ltb a b) eqn:E.
  - pose proof (ltb_trans _ _ _ Hca E). congruence.
  - assert (a = b) by (by apply ltb_connected). subst. congruence.
Qed.

Context (ToLower : string -> string).

Lemma caseLe_refl (a : string) : spec.caseLe ToLower a a.
Proof. apply ltb_irrefl. Qed.

Lemma caseLe_trans (a b c : string) :
  spec.caseLe ToLower a b -> spec.caseLe ToLower b c -> spec.caseLe ToLower a c.
Proof. unfold spec.caseLe. apply ltb_neg_trans. Qed.

Lemma caseLe_total (a b : string) :
  spec.caseLe ToLower a b \/ spec.caseLe ToLower b a.
Proof.
  unfold spec.caseLe. destruct (String.ltb (ToLower b) (ToLower a)) eqn:E; [|by left].
  right. by apply ltb_asym.
Qed.

End StringOrder.

(** ** The sorting loops of the checker *)

Section ExchangeSort.

Context (ToLower : string -> string).

Local Abbreviation le := (spec.caseLe ToLower).
Local Abbreviation swap := (validator.swapIfGreater ToLower).

Lemma swapIfGreater_split (pre mid post : list string) (h x : string) :
  swap (pre ++ h :: mid ++ x :: post) (length pre) (length pre + S (length mid))
  = if String.ltb (ToLower x) (ToLower h)
    then pre ++ x :: mid ++ h :: post
    else pre ++ h :: mid ++ x :: post.
Proof.
  unfold validator.swapIfGreater.
  assert (Hi : (pre ++ h :: mid ++ x :: post) !! length pre = Some h).
  { by rewrite list_lookup_middle. }
  assert (Hj : (pre ++ h :: mid ++ x :: post) !! (length pre + S (length mid))%nat
               = Some x).
  { rewrite lookup_app_r by lia.
    replace (length pre + S (length mid) - length pre)%nat with (S (length mid)) by lia.
    simpl. by rewrite list_lookup_middle. }
  rewrite Hi, Hj. destruct (String.ltb (ToLower x) (ToLower h)); [|done].
  rewrite insert_app_r_alt by lia.
  replace (length pre - length pre)%nat with 0%nat by lia. simpl.
  rewrite insert_app_r_alt by lia.
  replace (length pre + S (length mid) - length pre)%nat with (S (length mid)) by lia.
  simpl. f_equal. f_equal.
  rewrite insert_app_r_alt by lia.
  replace (length mid - length mid)%nat with 0%nat by lia. done.
Qed.

(** The inner loop brings a least element of the suffix to position [i]. *)
Lemma inner_loop_least (pre : list string) :
  forall (todo done : list string) (h : string),
    Forall (le h) done ->
    exists h' rest',
      fold_left (fun s j => swap s (length pre) j)
        (seq (S (length pre) + length done) (length todo))
        (pre ++ h :: done ++ todo)
      = pre ++ h' :: rest'
      /\ Forall (le h') rest'
      /\ h' :: rest' ≡ₚ h :: done ++ todo.
Proof.
  induction todo as [|x todo IH]; intros done h Hdone.
  - exists h, done. simpl. rewrite app_nil_r. done.
  - simpl seq. simpl fold_left.
    replace (S (length pre + length done)) with (length pre + S (length done))%nat by lia.
    rewrite swapIfGreater_split.
    destruct (String.ltb (ToLower x) (ToLower h)) eqn:Hlt.
    + assert (Hxh : le x h) by (by apply ltb_asym).
      destruct (IH (done ++ [h]) x) as (h' & rest' & Heq & Hall & Hperm).
      { apply Forall_app. split; [|by constructor].
        eapply Forall_impl; [exact Hdone|]. intros d Hd. by eapply caseLe_trans. }
      exists h', rest'. split; [|split; [done|]].
      * rewrite <- Heq, length_app, <- app_assoc. simpl.
        by replace (S (length pre + (length done + 1)))
             with (S (length pre + S (length done))) by lia.
      * rewrite Hperm. rewrite <- app_assoc. simpl.
        rewrite <- !Permutation_middle. apply perm_swap.
    + destruct (IH (done ++ [x]) h) as (h' & rest' & Heq & Hall & Hperm).
      { apply Forall_app. split; [done|by constructor]. }
      exists h', rest'. split; [|split; [done|]].
      * rewrite <- Heq, length_app, <- app_assoc. simpl.
        by replace (S (length pre + (length done + 1)))
             with (S (length pre + S (length done))) by lia.
      * rewrite Hperm. by rewrite <- app_assoc.
Qed.

(** The outer loop, started at position [length pre], sorts the suffix. *)
Lemma outer_loop_sorts (n : nat) :
  forall (k : nat) (pre rest : list string),
    length (pre ++ rest) = n ->
    k = (length rest - 1)%nat ->
    exists rest',
      fold_left
        (fun s i => fold_left (fun s j => swap s i j) (seq (S i) (n - S i)) s)
        (seq (length pre) k) (pre ++ rest)
      = pre ++ rest'
      /\ StronglySorted le rest'
      /\ rest' ≡ₚ rest.
Proof.
  induction k as [|k IH]; intros pre rest Hn Hk.
  - exists rest. simpl. split; [done|]. split; [|done].
    destruct rest as [|a [|b rest]]; simpl in Hk; try lia; repeat constructor.
  - destruct rest as [|h r]; [simpl in Hk; lia|].
    simpl in Hk. simpl seq. simpl fold_left.
    destruct (inner_loop_least pre r [] h) as (h' & r' & Heq & Hall & Hperm);
      [constructor|].
    simpl in Heq. rewrite Nat.add_0_r in Heq.
    replace (n - S (length pre))%nat with (length r)
      by (rewrite length_app in Hn; simpl in Hn; lia).
    rewrite Heq.
    assert (Hlen : length r' = length r).
    { apply Permutation_length in Hperm. simpl in Hperm. lia. }
    destruct (IH (pre ++ [h']) r') as (r'' & Heq' & Hsorted & Hperm').
    { rewrite !length_app in *. simpl in *. lia. }
    { lia. }
    exists (h' :: r''). rewrite length_app in Heq'. simpl in Heq'.
    replace (length pre + 1)%nat with (S (length pre)) in Heq' by lia.
    rewrite <- !app_assoc in Heq'. simpl in Heq'.
    split; [done|]. split.
    + constructor; [done|]. by rewrite Hperm'.
    + rewrite Hperm'. done.
Qed.

Lemma sortCaseInsensitive_sorted (keys : list string) :
  StronglySorted le (validator.sortCaseInsensitive ToLower keys).
Proof.
  unfold validator.sortCaseInsensitive.
  destruct (outer_loop_sorts (length keys) (length keys - 1) [] keys)
    as (rest' & Heq & Hsorted & _); [done|done|].
  simpl in Heq. by rewrite Heq.
Qed.

Lemma sortCaseInsensitive_perm (keys : list string) :
  validator.sortCaseInsensitive ToLower keys ≡ₚ keys.
Proof.
  unfold validator.sortCaseInsensitive.
  destruct (outer_loop_sorts (length keys) (length keys - 1) [] keys)
    as (rest' & Heq & _ & Hperm); [done|done|].
  simpl in Heq. by rewrite Heq.
Qed.

Lemma StronglySorted_lookup {A : Type} (R : relation A) (l : list A) :
  StronglySorted R l ->
  forall (i j : nat) (a b : A),
    (i < j)%nat -> l !! i = Some a -> l !! j = Some b -> R a b.
Proof.
  induction 1 as [|x l Hsorted IH Hall]; intros i j a b Hij Hi Hj.
  - by rewrite lookup_nil in Hi.
  - destruct j as [|j]; [lia|]. simpl in Hj. destruct i as [|i]; simpl in Hi.
    + injection Hi as <-. rewrite Forall_forall in Hall.
      apply Hall. by eapply list_elem_of_lookup_2.
    + eapply (IH i j); [lia|done|done].
Qed.

Lemma swapIfGreater_sorted (s : list string) (i j : nat) :
  StronglySorted le s -> (i < j)%nat -> swap s i j = s.
Proof.
  intros Hsorted Hij. unfold validator.swapIfGreater.
  destruct (s !! i) as [a|] eqn:Hi; [|done].
  destruct (s !! j) as [b|] eqn:Hj; [|done].
  by rewrite (StronglySorted_lookup _ _ Hsorted i j a b Hij Hi Hj).
Qed.

Lemma inner_loop_sorted (s : list string) (i : nat) :
  StronglySorted le s ->
  forall (k start : nat),
    (i < start)%nat ->
    fold_left (fun s j => swap s i j) (seq start k) s = s.
Proof.
  intros Hsorted. induction k as [|k IH]; intros start Hlt; [done|].
  simpl. rewrite swapIfGreater_sorted by done. apply IH. lia.
Qed.

(** On keys that are in order the two loops exchange nothing. *)
Lemma sortCaseInsensitive_fixpoint (keys : list string) :
  StronglySorted le keys -> validator.sortCaseInsensitive ToLower keys = keys.
Proof.
  intros Hsorted. unfold validator.sortCaseInsensitive.
  generalize (length keys - 1)%nat as k. generalize 0%nat as start.
  intros start k. revert start. induction k as [|k IH]; intros start; [done|].
  simpl. rewrite inner_loop_sorted by (done || lia). apply IH.
Qed.

Lemma keysUnchanged_eq (keys sortedKeys : list string) :
  length keys = length sortedKeys ->
  validator.keysUnchanged keys sortedKeys = true <-> keys = sortedKeys.
Proof.
  revert sortedKeys. induction keys as [|k keys IH]; intros [|s sortedKeys] Hlen;
    simpl in *; try done.
  destruct (String.eqb_spec k s) as [->|Hne].
  - rewrite IH by lia. split; [by intros ->|by intros [= ->]].
  - split; [done|]. intros [= ? ?]. done.
Qed.

Lemma StronglySorted_short {A : Type} (R : relation A) (l : list A) :
  (length l < 2)%nat -> StronglySorted R l.
Proof. destruct l as [|a [|b l]]; simpl; try lia; repeat constructor. Qed.

Lemma keysUnchanged_sorted (keys : list string) :
  validator.keysUnchanged keys (validator.sortCaseInsensitive ToLower keys) = true
  <-> StronglySorted le keys.
Proof.
  rewrite keysUnchanged_eq
    by (symmetry; apply Permutation_length, sortCaseInsensitive_perm).
  split.
  - intros Heq. rewrite Heq. apply sortCaseInsensitive_sorted.
  - intros Hsorted. by rewrite sortCaseInsensitive_fixpoint.
Qed.

(** The checker accepts a sequence exactly when its keys are in order. *)
Lemma isAlphabetized_sorted (items : list Value) (keyExtractor : Value -> string) :
  validator.isAlphabetized ToLower items keyExtractor = true
  <-> StronglySorted le (List.map keyExtractor items).
Proof.
  unfold validator.isAlphabetized.
  destruct (Z.ltb_spec (Z.of_nat (length items)) 2) as [Hlt|Hge].
  - split; [|done]. intros _. apply StronglySorted_short.
    rewrite length_map. lia.
  - apply keysUnchanged_sorted.
Qed.

Lemma isMapAlphabetized_sorted (m : gomap) :
  validator.isMapAlphabetized ToLower m = true
  <-> StronglySorted le (List.map fst m).
Proof.
  unfold validator.isMapAlphabetized.
  destruct (Z.ltb_spec (Z.of_nat (length m)) 2) as [Hlt|Hge].
  - split; [|done]. intros _. apply StronglySorted_short.
    rewrite length_map. lia.
  - apply keysUnchanged_sorted.
Qed.

End ExchangeSort.

(** ** [sort.Slice] *)

Section InsertionSort.

Context {A : Type} (less : A -> A -> bool).

Hypothesis less_asym : forall a b, less a b = true -> less b a = false.
Hypothesis less_neg_trans :
  forall a b c, less a b = false -> less b c = false -> less a c = false.

Local Abbreviation notBefore := (fun a b : A => less a b = false).
Local Abbreviation notAfter := (fun a b : A => less b a = false).

Lemma insert_left_perm (x : A) (l : list A) :
  golang.insert_left less x l ≡ₚ x :: l.
Proof.
  induction l as [|y l IH]; simpl; [done|].
  destruct (less x y); [|done]. rewrite IH. apply perm_swap.
Qed.

Lemma sort_Slice_perm (l : list A) : golang.sort_Slice less l ≡ₚ l.
Proof.
  unfold golang.sort_Slice. rewrite <- Permutation_rev.
  assert (H : forall acc,
             fold_left (fun rev_done a => golang.insert_left less a rev_done) l acc
             ≡ₚ l ++ acc).
  { induction l as [|x l IH]; intros acc; simpl; [done|].
    rewrite IH, insert_left_perm. by rewrite Permutation_middle. }
  rewrite H. by rewrite app_nil_r.
Qed.

Lemma insert_left_sorted (x : A) (l : list A) :
  StronglySorted notBefore l -> StronglySorted notBefore (golang.insert_left less x l).
Proof.
  induction 1 as [|y l Hsorted IH Hall]; simpl; [repeat constructor|].
  destruct (less x y) eqn:Hxy.
  - constructor; [done|]. rewrite insert_left_perm. constructor; [|done].
    by apply less_asym.
  - constructor; [by constructor|]. constructor; [done|].
    eapply Forall_impl; [exact Hall|]. intros z Hz. by eapply less_neg_trans.
Qed.

Lemma StronglySorted_rev {B : Type} (R : relation B) (l : list B) :
  StronglySorted R l -> StronglySorted (flip R) (rev l).
Proof.
  induction 1 as [|y l Hsorted IH Hall]; simpl; [constructor|].
  apply StronglySorted_app. split; [|split].
  - intros x1 x2 Hx1 Hx2. apply list_elem_of_singleton in Hx2 as ->.
    rewrite Forall_forall in Hall. apply Hall.
    apply list_elem_of_In. apply in_rev. by apply list_elem_of_In.
  - done.
  - repeat constructor.
Qed.

Lemma sort_Slice_sorted (l : list A) :
  StronglySorted notAfter (golang.sort_Slice less l).
Proof.
  unfold golang.sort_Slice.
  apply (StronglySorted_rev notBefore).
  assert (H : forall acc, StronglySorted notBefore acc ->
             StronglySorted notBefore
               (fold_left (fun rev_done a => golang.insert_left less a rev_done) l acc)).
  { induction l as [|x l IH]; intros acc Hacc; simpl; [done|].
    apply IH. by apply insert_left_sorted. }
  apply H. constructor.
Qed.

(** A slice that is in order comes back as it is. *)
Lemma sort_Slice_fixpoint (l : list A) :
  StronglySorted notAfter l -> golang.sort_Slice less l = l.
Proof.
  intros Hsorted. unfold golang.sort_Slice.
  assert (H : forall rest pre, StronglySorted notAfter (pre ++ rest) ->
             fold_left (fun rev_done a => golang.insert_left less a rev_done)
               rest (rev pre)
             = rev (pre ++ rest)).
  { induction rest as [|x rest IH]; intros pre Hs; simpl.
    - by rewrite app_nil_r.
    - replace (pre ++ x :: rest) with ((pre ++ [x]) ++ rest) in *
        by (by rewrite <- app_assoc).
      rewrite <- IH by done. f_equal. rewrite rev_app_distr. simpl.
      destruct (rev pre) as [|y rp] eqn:Hrev; [done|]. simpl.
      assert (Hy : y ∈ pre).
      { apply list_elem_of_In, in_rev. rewrite Hrev. by left. }
      apply StronglySorted_app_1_l in Hs.
      rewrite (StronglySorted_app_1_elem_of _ _ _ y x Hs Hy); [done|].
      by apply list_elem_of_singleton. }
  specialize (H l [] Hsorted). simpl in H. rewrite H. apply rev_involutive.
Qed.

End InsertionSort.

(** ** Go maps as association lists *)

Section GoMaps.

Context {V : Type}.
Implicit Types (m : list (string * V)) (k f : string) (v : V).

Lemma isInFieldOrder_elem (f : string) (l : list string) :
  validator.isInFieldOrder f l = true <-> f ∈ l.
Proof.
  induction l as [|x l IH]; simpl.
  - split; [done|]. by intros ?%elem_of_nil.
  - rewrite elem_of_cons. destruct (String.eqb_spec x f) as [->|Hne].
    + split; auto.
    + rewrite IH. split; [auto|]. intros [->|?]; done.
Qed.

Lemma isInFieldOrder_not_elem (f : string) (l : list string) :
  validator.isInFieldOrder f l = false <-> f ∉ l.
Proof.
  rewrite <- isInFieldOrder_elem. destruct (validator.isInFieldOrder f l); split; congruence.
Qed.

Lemma distinct_NoDup (l : list string) : spec.distinct l = true <-> NoDup l.
Proof.
  induction l as [|x l IH]; simpl.
  - split; [constructor|done].
  - rewrite andb_true_iff, negb_true_iff, isInFieldOrder_not_elem, IH, NoDup_cons.
    done.
Qed.

Lemma map_get_None k m :
  golang.map_get k m = None <-> k ∉ List.map fst m.
Proof.
  induction m as [|[k' v'] m IH]; simpl.
  - split; [|done]. intros _ ?%elem_of_nil. done.
  - rewrite not_elem_of_cons. destruct (String.eqb_spec k' k) as [->|Hne].
    + split; [done|]. by intros [? _].
    + rewrite IH. split; [auto|]. by intros [_ ?].
Qed.

Lemma map_get_Some_elem k v m :
  golang.map_get k m = Some v -> (k, v) ∈ m.
Proof.
  induction m as [|[k' v'] m IH]; simpl; [done|].
  destruct (String.eqb_spec k' k) as [->|Hne].
  - intros [= ->]. by left.
  - intros H. right. by apply IH.
Qed.

Lemma map_get_elem k v m :
  NoDup (List.map fst m) -> (k, v) ∈ m -> golang.map_get k m = Some v.
Proof.
  induction m as [|[k' v'] m IH]; simpl; intros Hnd Hin.
  - by apply elem_of_nil in Hin.
  - apply NoDup_cons in Hnd as [Hk' Hnd].
    apply elem_of_cons in Hin as [[= -> ->]|Hin].
    + by rewrite String.eqb_refl.
    + destruct (String.eqb_spec k' k) as [->|Hne]; [|by apply IH].
      exfalso. apply Hk'. apply list_elem_of_In, in_map_iff.
      exists (k, v). split; [done|]. by apply list_elem_of_In.
Qed.

Lemma map_has_elem k m :
  golang.map_has k m = true <-> k ∈ List.map fst m.
Proof.
  unfold golang.map_has. destruct (golang.map_get k m) eqn:E.
  - split; [|done]. intros _. apply map_get_Some_elem in E.
    apply list_elem_of_In, in_map_iff. exists (k, v). split; [done|].
    by apply list_elem_of_In.
  - apply map_get_None in E. split; [done|]. intros ?. done.
Qed.

Lemma map_set_fresh k v m :
  k ∉ List.map fst m -> golang.map_set k v m = m ++ [(k, v)].
Proof.
  induction m as [|[k' v'] m IH]; simpl; intros Hk; [done|].
  apply not_elem_of_cons in Hk as [Hne Hk].
  destruct (String.eqb_spec k' k) as [->|_]; [done|]. by rewrite IH.
Qed.

Lemma map_get_delete k f m :
  golang.map_get k (golang.map_delete f m)
  = if String.eqb f k then None else golang.map_get k m.
Proof.
  induction m as [|[k' v'] m IH]; simpl.
  - by destruct (String.eqb f k).
  - destruct (String.eqb_spec k' f) as [->|Hne]; simpl.
    + rewrite IH. destruct (String.eqb_spec f k) as [->|Hne']; [done|done].
    + rewrite IH. destruct (String.eqb_spec k' k) as [->|Hne'].
      * destruct (String.eqb_spec f k) as [->|_]; [done|done].
      * done.
Qed.

Lemma map_delete_filter f m :
  golang.map_delete f m = List.filter (fun '(k, _) => negb (String.eqb k f)) m.
Proof.
  induction m as [|[k' v'] m IH]; simpl; [done|].
  rewrite IH. by destruct (String.eqb k' f).
Qed.

Lemma map_delete_keys k f m :
  k ∈ List.map fst (golang.map_delete f m) <-> k <> f /\ k ∈ List.map fst m.
Proof.
  rewrite <- !map_has_elem. unfold golang.map_has. rewrite map_get_delete.
  destruct (String.eqb_spec f k) as [->|Hne].
  - split; [done|]. by intros [? _].
  - split; [|by intros [_ ?]]. intros ?. split; [congruence|done].
Qed.

Lemma map_delete_NoDup f m :
  NoDup (List.map fst m) -> NoDup (List.map fst (golang.map_delete f m)).
Proof.
  induction m as [|[k' v'] m IH]; simpl; intros Hnd; [done|].
  apply NoDup_cons in Hnd as [Hk' Hnd].
  destruct (String.eqb_spec k' f) as [->|Hne]; [by apply IH|].
  simpl. apply NoDup_cons. split; [|by apply IH].
  intros Hin. apply map_delete_keys in Hin as [_ Hin]. done.
Qed.

Lemma map_delete_absent f m :
  f ∉ List.map fst m -> golang.map_delete f m = m.
Proof.
  induction m as [|[k' v'] m IH]; simpl; intros Hk; [done|].
  apply not_elem_of_cons in Hk as [Hne Hk].
  destruct (String.eqb_spec k' f) as [->|_]; [done|]. by rewrite IH.
Qed.

Lemma map_delete_perm f v m :
  NoDup (List.map fst m) -> golang.map_get f m = Some v ->
  m ≡ₚ (f, v) :: golang.map_delete f m.
Proof.
  induction m as [|[k' v'] m IH]; simpl; intros Hnd Hget; [done|].
  apply NoDup_cons in Hnd as [Hk' Hnd].
  destruct (String.eqb_spec k' f) as [->|Hne].
  - injection Hget as ->. by rewrite map_delete_absent.
  - rewrite (IH Hnd Hget) at 1. apply perm_swap.
Qed.

End GoMaps.

(** ** The sequence in which the rewriter places the fields *)

Section Placement.

Implicit Types (m : gomap) (fo : list string).

Lemma canonicalPart_elem fo m k v :
  (k, v) ∈ spec.canonicalPart fo m -> golang.map_get k m = Some v /\ k ∈ fo.
Proof.
  revert m. induction fo as [|f fo IH]; intros m; simpl.
  - by intros ?%elem_of_nil.
  - destruct (golang.map_get f m) as [v'|] eqn:Hget.
    + intros [[= -> ->]|Hin]%elem_of_cons.
      * split; [done|by left].
      * apply IH in Hin as [Hin ?]. rewrite map_get_delete in Hin.
        destruct (String.eqb f k); [done|]. split; [done|by right].
    + intros Hin. apply IH in Hin as [? ?]. split; [done|by right].
Qed.

Lemma canonicalPart_NoDup fo m : NoDup (List.map fst (spec.canonicalPart fo m)).
Proof.
  revert m. induction fo as [|f fo IH]; intros m; simpl; [constructor|].
  destruct (golang.map_get f m) as [v'|] eqn:Hget; [|done].
  simpl. apply NoDup_cons. split; [|done].
  intros Hin. apply list_elem_of_In, in_map_iff in Hin as ([k v] & Hk & Hin).
  simpl in Hk. subst k. apply list_elem_of_In, canonicalPart_elem in Hin as [Hin _].
  rewrite map_get_delete, String.eqb_refl in Hin. done.
Qed.

Lemma unknownPart_delete f fo m :
  spec.unknownPart fo (golang.map_delete f m) = spec.unknownPart (f :: fo) m.
Proof.
  unfold spec.unknownPart. induction m as [|[k v] m IH]; simpl; [done|].
  rewrite (String.eqb_sym f k).
  destruct (String.eqb k f); simpl; [done|]. rewrite IH. done.
Qed.

Lemma unknownPart_nil m : spec.unknownPart [] m = m.
Proof.
  unfold spec.unknownPart. induction m as [|[k v] m IHm]; simpl; [done|].
  f_equal. exact IHm.
Qed.

(** What the first loop of [fixService] leaves in [svc]. *)
Lemma delete_all_unknownPart fo m :
  fold_left (fun m f => golang.map_delete f m) fo m = spec.unknownPart fo m.
Proof.
  revert m. induction fo as [|f fo IH]; intros m; simpl.
  - by rewrite unknownPart_nil.
  - rewrite IH. apply unknownPart_delete.
Qed.

Lemma unknownPart_elem fo m k v :
  (k, v) ∈ spec.unknownPart fo m <-> (k, v) ∈ m /\ k ∉ fo.
Proof.
  unfold spec.unknownPart. rewrite list_elem_of_In, filter_In, <- list_elem_of_In.
  by rewrite negb_true_iff, isInFieldOrder_not_elem.
Qed.

Lemma unknownPart_absent fo m f :
  f ∉ List.map fst m -> spec.unknownPart (f :: fo) m = spec.unknownPart fo m.
Proof.
  intros Hf. rewrite <- unknownPart_delete. by rewrite map_delete_absent.
Qed.

(** The rewriter places every field of the service once. *)
Lemma placement_perm fo m :
  NoDup (List.map fst m) -> spec.placement fo m ≡ₚ m.
Proof.
  unfold spec.placement. revert m. induction fo as [|f fo IH]; intros m Hnd; simpl.
  - by rewrite unknownPart_nil.
  - destruct (golang.map_get f m) as [v|] eqn:Hget.
    + rewrite <- unknownPart_delete. simpl.
      rewrite (IH _ (map_delete_NoDup f m Hnd)).
      symmetry. by apply map_delete_perm.
    + rewrite unknownPart_absent by (by apply map_get_None). by apply IH.
Qed.

End Placement.

(** ** The loops of [fixService] *)

Section FixLoops.

Context (ToLower : string -> string) (name : string) (cfg : config.Config).

Local Abbreviation completes := (spec.completes ToLower cfg).
Local Abbreviation alphabetized := (spec.alphabetized ToLower cfg).
Local Abbreviation wasChanged := (spec.wasChanged ToLower cfg).
Local Abbreviation fixRecords := (spec.fixRecords ToLower name cfg).

Lemma alphabetizeField_Some (f : string) (v av : Value) (af : bool) :
  fixer.alphabetizeField ToLower f v cfg = Some (av, af) ->
  completes (f, v) = true /\ alphabetized (f, v) = (f, av) /\ wasChanged (f, v) = af.
Proof.
  unfold spec.completes, spec.alphabetized, spec.wasChanged. simpl. by intros ->.
Qed.

Lemma alphabetizeField_None (f : string) (v : Value) :
  fixer.alphabetizeField ToLower f v cfg = None -> completes (f, v) = false.
Proof. unfold spec.completes. simpl. by intros ->. Qed.

Lemma addField_spec (f : string) (v : Value) (st : fixer.FixState) :
  fixer.addField ToLower name cfg f v st
  = if completes (f, v) then
      Some {| fixer.changes := fixer.changes st ++ fixRecords [(f, v)];
              fixer.fixed := fixer.fixed st || wasChanged (f, v);
              fixer.ordered :=
                golang.map_set f (snd (alphabetized (f, v))) (fixer.ordered st);
              fixer.svc := fixer.svc st |}
    else None.
Proof.
  unfold fixer.addField, spec.fixRecords. simpl.
  destruct (fixer.alphabetizeField ToLower f v cfg) as [[av af]|] eqn:E; simpl.
  - destruct (alphabetizeField_Some _ _ _ _ E) as (-> & -> & ->). simpl.
    destruct af; simpl; by rewrite ?app_nil_r, ?orb_true_r, ?orb_false_r.
  - by rewrite (alphabetizeField_None _ _ E).
Qed.

Lemma fixRecords_cons (e : string * Value) (es : gomap) :
  fixRecords (e :: es) = fixRecords [e] ++ fixRecords es.
Proof. unfold spec.fixRecords. simpl. by destruct (wasChanged e). Qed.

Lemma fixRecords_app (es es' : gomap) :
  fixRecords (es ++ es') = fixRecords es ++ fixRecords es'.
Proof. unfold spec.fixRecords. by rewrite List.filter_app, map_app. Qed.

Lemma alphabetized_fst (e : string * Value) : fst (alphabetized e) = fst e.
Proof.
  unfold spec.alphabetized.
  by destruct (fixer.alphabetizeField ToLower (fst e) (snd e) cfg) as [[? ?]|].
Qed.

Lemma writeAll_cons (e : string * Value) (es m : gomap) :
  spec.writeAll (e :: es) m = spec.writeAll es (golang.map_set (fst e) (snd e) m).
Proof. by destruct e. Qed.

Lemma writeAll_app (es es' m : gomap) :
  spec.writeAll (es ++ es') m = spec.writeAll es' (spec.writeAll es m).
Proof. apply fold_left_app. Qed.

Lemma addOrderedFields_spec (fo : list string) :
  forall st : fixer.FixState,
    fixer.addOrderedFields ToLower name cfg fo st
    = if forallb completes (spec.canonicalPart fo (fixer.svc st)) then
        Some {| fixer.changes :=
                  fixer.changes st ++ fixRecords (spec.canonicalPart fo (fixer.svc st));
                fixer.fixed :=
                  fixer.fixed st
                  || existsb wasChanged (spec.canonicalPart fo (fixer.svc st));
                fixer.ordered :=
                  spec.writeAll
                    (List.map alphabetized (spec.canonicalPart fo (fixer.svc st)))
                    (fixer.ordered st);
                fixer.svc := fold_left (fun m f => golang.map_delete f m) fo (fixer.svc st) |}
      else None.
Proof.
  induction fo as [|f fo IH]; intros [c fx o m].
  - cbn. by rewrite app_nil_r, orb_false_r.
  - cbn [fixer.addOrderedFields spec.canonicalPart fixer.svc fold_left].
    destruct (golang.map_get f m) as [v|] eqn:Hget.
    + rewrite addField_spec.
      cbn [forallb List.map existsb fixer.svc fixer.changes fixer.fixed fixer.ordered].
      destruct (completes (f, v)); cbn [andb mbind option_bind]; [|done].
      rewrite IH.
      cbn [fixer.svc fixer.changes fixer.fixed fixer.ordered].
      destruct (forallb completes _); [|done].
      rewrite (fixRecords_cons (f, v) (spec.canonicalPart _ _)), app_assoc, orb_assoc.
      rewrite writeAll_cons, alphabetized_fst. done.
    + rewrite IH. cbn [fixer.svc fixer.changes fixer.fixed fixer.ordered].
      by rewrite (map_delete_absent f m) by (by apply map_get_None).
Qed.

Lemma addRemainingFields_spec (remaining : gomap) :
  forall st : fixer.FixState,
    fixer.addRemainingFields ToLower name cfg remaining st
    = if forallb completes remaining then
        Some {| fixer.changes := fixer.changes st ++ fixRecords remaining;
                fixer.fixed := fixer.fixed st || existsb wasChanged remaining;
                fixer.ordered :=
                  spec.writeAll (List.map alphabetized remaining) (fixer.ordered st);
                fixer.svc := fixer.svc st |}
      else None.
Proof.
  induction remaining as [|[f v] remaining IH]; intros [c fx o m].
  - cbn. by rewrite app_nil_r, orb_false_r.
  - cbn [fixer.addRemainingFields].
    rewrite addField_spec.
    cbn [forallb List.map existsb fixer.svc fixer.changes fixer.fixed fixer.ordered].
    destruct (completes (f, v)); cbn [andb mbind option_bind]; [|done].
    rewrite IH.
    cbn [fixer.svc fixer.changes fixer.fixed fixer.ordered].
    destruct (forallb completes _); [|done].
    rewrite (fixRecords_cons (f, v) remaining), app_assoc, orb_assoc.
    rewrite writeAll_cons, alphabetized_fst. done.
Qed.

Lemma alphabetized_keys (es : gomap) :
  List.map fst (List.map alphabetized es) = List.map fst es.
Proof.
  rewrite map_map. apply map_ext. intros e. apply alphabetized_fst.
Qed.

(** Writes to keys that are new and distinct add the entries at the end. *)
Lemma writeAll_fresh (es : gomap) :
  forall m : gomap,
    NoDup (List.map fst es) ->
    (forall k, k ∈ List.map fst es -> k ∉ List.map fst m) ->
    spec.writeAll es m = m ++ es.
Proof.
  induction es as [|[k v] es IH]; intros m Hnd Hfresh.
  - cbn. by rewrite app_nil_r.
  - rewrite writeAll_cons. cbn [fst snd]. cbn [List.map fst] in Hnd, Hfresh.
    apply NoDup_cons in Hnd as [Hk Hnd].
    rewrite map_set_fresh by (apply Hfresh; by left).
    rewrite IH; [by rewrite <- app_assoc|done|].
    intros k' Hk'. rewrite map_app. cbn. rewrite elem_of_app, list_elem_of_singleton.
    intros [Hin| ->]; [|done]. eapply Hfresh; [|done]. by right.
Qed.

Lemma getFieldIndexFrom_absent (f : string) (fo : list string) :
  f ∉ fo -> forall i, fixer.getFieldIndexFrom i f fo = -1.
Proof.
  induction fo as [|g fo IH]; intros Hf i; cbn; [done|].
  apply not_elem_of_cons in Hf as [Hne Hf].
  destruct (String.eqb_spec g f) as [->|_]; [done|]. by apply IH.
Qed.

(** The order check of the rewriter accepts every map that holds no field of
    the canonical order, and this is what [fixService] hands to it. *)
Lemma isFieldOrderCorrect_unknownPart (fo : list string) (m : gomap) :
  fixer.isFieldOrderCorrect (spec.unknownPart fo m) fo = true.
Proof.
  unfold fixer.isFieldOrderCorrect. generalize (-1).
  assert (H : forall k v, (k, v) ∈ spec.unknownPart fo m -> k ∉ fo).
  { intros k v Hin. by apply unknownPart_elem in Hin as [_ ?]. }
  induction (spec.unknownPart fo m) as [|[k v] rest IH]; intros last; cbn; [done|].
  unfold fixer.getFieldIndex.
  rewrite getFieldIndexFrom_absent by (eapply H; by left). cbn.
  apply IH. intros k' v' Hin. eapply H. by right.
Qed.

(** [fixService] in one equation: it places the fields in the sequence
    [placement], alphabetizes each, and never records a reordering. *)
Lemma fixService_spec (svc : gomap) (fo : list string) :
  NoDup (List.map fst svc) ->
  fixer.fixService ToLower name svc fo cfg
  = if forallb completes (spec.placement fo svc) then
      Some {| fixer.changes := fixRecords (spec.placement fo svc);
              fixer.fixed := existsb wasChanged (spec.placement fo svc);
              fixer.ordered := List.map alphabetized (spec.placement fo svc);
              fixer.svc :=
                spec.writeAll (List.map alphabetized (spec.placement fo svc))
                              (spec.unknownPart fo svc) |}
    else None.
Proof.
  intros Hnd. unfold fixer.fixService, spec.placement.
  rewrite addOrderedFields_spec.
  cbn [fixer.svc fixer.changes fixer.fixed fixer.ordered].
  rewrite forallb_app.
  destruct (forallb completes (spec.canonicalPart fo svc)); cbn [andb mbind option_bind]; [|done].
  rewrite addRemainingFields_spec.
  cbn [fixer.svc fixer.changes fixer.fixed fixer.ordered].
  rewrite delete_all_unknownPart.
  destruct (forallb completes (spec.unknownPart fo svc)); cbn [mbind option_bind]; [|done].
  cbn [fixer.svc]. rewrite isFieldOrderCorrect_unknownPart.
  cbn [negb fixer.svc fixer.changes fixer.fixed fixer.ordered app orb].
  rewrite <- writeAll_app, <- map_app, <- fixRecords_app, existsb_app.
  assert (Hw : spec.writeAll
                 (List.map alphabetized (spec.canonicalPart fo svc ++ spec.unknownPart fo svc)) []
               = List.map alphabetized (spec.canonicalPart fo svc ++ spec.unknownPart fo svc)).
  { rewrite writeAll_fresh; [done| |].
    - rewrite alphabetized_keys.
      pose proof (placement_perm fo svc Hnd) as Hp. unfold spec.placement in Hp.
      by rewrite Hp.
    - intros k _. cbn. apply not_elem_of_nil. }
  rewrite Hw. done.
Qed.

End FixLoops.

(** ** What the rewriter does to one value *)

Section Alphabetize.

Context (ToLower : string -> string).

Local Abbreviation le := (spec.caseLe ToLower).

Lemma iface_neq_false (a b : Value) :
  golang.iface_neq a b = Some false -> a = b.
Proof.
  destruct a, b; cbn; try done.
  - intros [= H]. apply negb_false_iff, Bool.eqb_prop in H. by subst.
  - intros [= H]. apply negb_false_iff, Z.eqb_eq in H. by subst.
  - intros [= H]. apply negb_false_iff, String.eqb_eq in H. by subst.
Qed.

Lemma iface_neq_refl (a : Value) :
  spec.comparable a = true -> golang.iface_neq a a = Some false.
Proof.
  destruct a; cbn; try done; intros _.
  - by rewrite Bool.eqb_reflx.
  - by rewrite Z.eqb_refl.
  - by rewrite String.eqb_refl.
Qed.

Lemma iface_neq_comparable (a b : Value) :
  spec.comparable a = true -> is_Some (golang.iface_neq a b).
Proof. destruct a, b; cbn; try done; intros _; eauto. Qed.

Lemma sortingChanged_false (v sorted : list Value) :
  length v = length sorted ->
  fixer.sortingChanged v sorted = Some false -> v = sorted.
Proof.
  revert sorted. induction v as [|a v IH]; intros [|b sorted] Hlen; cbn in *; try done.
  destruct (golang.iface_neq a b) as [[|]|] eqn:E; try done.
  intros H. apply iface_neq_false in E as ->. f_equal. apply IH; [lia|done].
Qed.

Lemma sortingChanged_comparable (v sorted : list Value) :
  forallb spec.comparable v = true -> is_Some (fixer.sortingChanged v sorted).
Proof.
  revert sorted. induction v as [|a v IH]; intros [|b sorted]; cbn; eauto.
  intros [Ha Hv]%andb_true_iff.
  destruct (iface_neq_comparable a b Ha) as [[|] ->]; eauto.
Qed.

Lemma sortingChanged_same (v : list Value) (r : bool) :
  fixer.sortingChanged v v = Some r -> r = false.
Proof.
  induction v as [|a v IH]; cbn; [by intros [= <-]|].
  destruct (golang.iface_neq a a) as [[|]|] eqn:E; try done.
  intros _. destruct a; cbn in E; try done.
  - by rewrite Bool.eqb_reflx in E.
  - by rewrite Z.eqb_refl in E.
  - by rewrite String.eqb_refl in E.
Qed.

Lemma lessBy_asym {A : Type} (keyOf : A -> string) (a b : A) :
  fixer.lessBy ToLower keyOf a b = true -> fixer.lessBy ToLower keyOf b a = false.
Proof. apply ltb_asym. Qed.

Lemma lessBy_neg_trans {A : Type} (keyOf : A -> string) (a b c : A) :
  fixer.lessBy ToLower keyOf a b = false ->
  fixer.lessBy ToLower keyOf b c = false ->
  fixer.lessBy ToLower keyOf a c = false.
Proof. unfold fixer.lessBy. intros H1 H2. by eapply ltb_neg_trans. Qed.

Lemma StronglySorted_map {A B : Type} (R : relation B) (f : A -> B) (l : list A) :
  StronglySorted (fun a b => R (f a) (f b)) l <-> StronglySorted R (List.map f l).
Proof.
  induction l as [|a l IH]; cbn.
  - split; constructor.
  - rewrite !StronglySorted_cons, IH, Forall_map. done.
Qed.

(** The keys of what [sort.Slice] returns are in order. *)
Lemma sort_Slice_keys_sorted {A : Type} (keyOf : A -> string) (l : list A) :
  StronglySorted le (List.map keyOf (golang.sort_Slice (fixer.lessBy ToLower keyOf) l)).
Proof.
  apply (proj1 (StronglySorted_map le keyOf _)).
  apply (sort_Slice_sorted (fixer.lessBy ToLower keyOf)).
  - apply lessBy_asym.
  - apply lessBy_neg_trans.
Qed.

Lemma sort_Slice_keys_fixpoint {A : Type} (keyOf : A -> string) (l : list A) :
  StronglySorted le (List.map keyOf l) ->
  golang.sort_Slice (fixer.lessBy ToLower keyOf) l = l.
Proof.
  intros H. apply sort_Slice_fixpoint.
  exact (proj2 (StronglySorted_map le keyOf l) H).
Qed.

(** The sequence case. *)
Lemma alphabetizeList_result (keyOf : Value -> string) (v : list Value)
    (v' : Value) (b : bool) :
  fixer.alphabetizeList ToLower keyOf (VList v) v = Some (v', b) ->
  exists l', v' = VList l' /\ l' ≡ₚ v
             /\ StronglySorted le (List.map keyOf l')
             /\ (b = false -> l' = v).
Proof.
  unfold fixer.alphabetizeList.
  destruct (Z.ltb_spec (Z.of_nat (length v)) 2) as [Hlt|Hge].
  - intros [= <- <-]. exists v. split; [done|]. split; [done|]. split; [|done].
    apply StronglySorted_short. rewrite length_map. lia.
  - destruct (fixer.sortingChanged v _) as [[|]|] eqn:E; cbn; [| |done].
    + intros [= <- <-]. eexists. split; [done|]. split; [apply sort_Slice_perm|].
      split; [apply sort_Slice_keys_sorted|done].
    + intros [= <- <-]. exists v. split; [done|]. split; [done|]. split; [|done].
      apply sortingChanged_false in E.
      * rewrite E at 1. apply sort_Slice_keys_sorted.
      * symmetry. apply Permutation_length, sort_Slice_perm.
Qed.

Lemma alphabetizeList_sorted (keyOf : Value -> string) (v : list Value)
    (r : Value * bool) :
  StronglySorted le (List.map keyOf v) ->
  fixer.alphabetizeList ToLower keyOf (VList v) v = Some r -> r = (VList v, false).
Proof.
  intros Hsorted. unfold fixer.alphabetizeList.
  destruct (Z.of_nat (length v) <? 2); [by intros [= <-]|].
  rewrite sort_Slice_keys_fixpoint by done.
  destruct (fixer.sortingChanged v v) as [[|]|] eqn:E; cbn; [|by intros [= <-]|done].
  by apply sortingChanged_same in E.
Qed.

Lemma alphabetizeList_completes (keyOf : Value -> string) (v : list Value) :
  forallb spec.comparable v = true ->
  is_Some (fixer.alphabetizeList ToLower keyOf (VList v) v).
Proof.
  intros Hc. unfold fixer.alphabetizeList.
  destruct (Z.of_nat (length v) <? 2); [eauto|].
  destruct (sortingChanged_comparable v
              (golang.sort_Slice (fixer.lessBy ToLower keyOf) v) Hc) as [[|] ->];
    cbn; eauto.
Qed.

Lemma keysSorted_eq (keys sortedKeys : list string) :
  length keys = length sortedKeys ->
  fixer.keysSorted keys sortedKeys = true <-> keys = sortedKeys.
Proof.
  revert sortedKeys. induction keys as [|k keys IH]; intros [|s sortedKeys] Hlen;
    cbn in *; try done.
  destruct (String.eqb_spec k s) as [->|Hne].
  - rewrite IH by lia. split; [by intros ->|by intros [= ->]].
  - split; [done|]. intros [= ? ?]. done.
Qed.

Lemma rebuild_fresh (m : gomap) (ks : list string) :
  forall acc : gomap,
    NoDup ks ->
    (forall k, k ∈ ks -> k ∉ List.map fst acc) ->
    fold_left
      (fun ordered key =>
         golang.map_set key (default VNull (golang.map_get key m)) ordered)
      ks acc
    = acc ++ List.map (fun k => (k, default VNull (golang.map_get k m))) ks.
Proof.
  induction ks as [|k ks IH]; intros acc Hnd Hfresh; cbn.
  - by rewrite app_nil_r.
  - apply NoDup_cons in Hnd as [Hk Hnd].
    rewrite map_set_fresh by (apply Hfresh; by left).
    rewrite IH; [by rewrite <- app_assoc|done|].
    intros k' Hk'. rewrite map_app. cbn. rewrite elem_of_app, list_elem_of_singleton.
    intros [Hin| ->]; [|done]. eapply Hfresh; [|done]. by right.
Qed.

Lemma rebuild_same (m : gomap) :
  NoDup (List.map fst m) ->
  List.map (fun k => (k, default VNull (golang.map_get k m))) (List.map fst m) = m.
Proof.
  intros Hnd. rewrite map_map. rewrite <- (map_id m) at 2.
  apply map_ext_in. intros [k v] Hin. cbn.
  by rewrite (map_get_elem k v m Hnd) by (by apply list_elem_of_In).
Qed.

(** The mapping case. *)
Lemma alphabetizeMap_result (m : gomap) (v' : Value) (b : bool) :
  NoDup (List.map fst m) ->
  fixer.alphabetizeMap ToLower (VMap m) m = Some (v', b) ->
  exists m', v' = VMap m' /\ m' ≡ₚ m
             /\ StronglySorted le (List.map fst m')
             /\ (b = false -> m' = m).
Proof.
  intros Hnd. unfold fixer.alphabetizeMap.
  destruct (Z.ltb_spec (Z.of_nat (length m)) 2) as [Hlt|Hge].
  { intros [= <- <-]. exists m. split; [done|]. split; [done|]. split; [|done].
    apply StronglySorted_short. rewrite length_map. lia. }
  pose proof (sort_Slice_perm (fixer.lessBy ToLower id) (List.map fst m)) as Hperm.
  pose proof (sort_Slice_keys_sorted id (List.map fst m)) as Hsorted.
  rewrite map_id in Hsorted.
  destruct (fixer.keysSorted _ _) eqn:E.
  - intros [= <- <-]. exists m. split; [done|]. split; [done|]. split; [|done].
    apply keysSorted_eq in E; [|symmetry; by apply Permutation_length].
    by rewrite E.
  - intros [= <- <-]. eexists. split; [done|].
    rewrite rebuild_fresh; [|by rewrite Hperm|intros k _; apply not_elem_of_nil].
    cbn. split; [|split; [|done]].
    + rewrite Hperm. by rewrite rebuild_same.
    + rewrite map_map. cbn. by rewrite map_id.
Qed.

Lemma alphabetizeMap_sorted (m : gomap) :
  StronglySorted le (List.map fst m) ->
  fixer.alphabetizeMap ToLower (VMap m) m = Some (VMap m, false).
Proof.
  intros Hsorted. unfold fixer.alphabetizeMap.
  destruct (Z.of_nat (length m) <? 2); [done|].
  rewrite sort_Slice_keys_fixpoint by (by rewrite map_id).
  assert (E : fixer.keysSorted (List.map fst m) (List.map fst m) = true)
    by (by apply keysSorted_eq).
  by rewrite E.
Qed.

Lemma alphabetizeMap_completes (value : Value) (m : gomap) :
  is_Some (fixer.alphabetizeMap ToLower value m).
Proof.
  unfold fixer.alphabetizeMap.
  destruct (Z.of_nat (length m) <? 2); [eauto|].
  destruct (fixer.keysSorted _ _); eauto.
Qed.

(** The two packages extract the same keys. *)
Lemma extractEnvKey_same : fixer.extractEnvKey = validator.extractEnvKey.
Proof. reflexivity. Qed.

Lemma extractVolumeKey_same : fixer.extractVolumeKey = validator.extractVolumeKey.
Proof. reflexivity. Qed.

Lemma extractLabelKey_same : fixer.extractLabelKey = validator.extractLabelKey.
Proof. reflexivity. Qed.

Lemma sameEntries_refl (v : Value) : spec.sameEntries v v.
Proof. destruct v; cbn; done. Qed.

Lemma ShouldAlphabetize_special (cfg : config.Config) (f : string) :
  config.ShouldAlphabetize cfg f = true -> f ∈ spec.specialFields.
Proof.
  unfold config.ShouldAlphabetize, spec.specialFields.
  destruct (String.eqb_spec f "environment") as [->|_]; [intros _; by left|].
  destruct (String.eqb_spec f "volumes") as [->|_]; [intros _; right; by left|].
  destruct (String.eqb_spec f "labels") as [->|_]; [intros _; do 2 right; by left|done].
Qed.

Lemma special_cases (f : string) :
  f ∈ spec.specialFields -> f = "environment" \/ f = "volumes" \/ f = "labels".
Proof.
  unfold spec.specialFields. intros H.
  repeat (apply elem_of_cons in H as [->|H]; [tauto|]).
  by apply elem_of_nil in H.
Qed.

(** The checker's test of one field is the order of its keys. *)
Lemma inOrder_sorted (f : string) (value : option Value) :
  f ∈ spec.specialFields ->
  spec.inOrder ToLower f value = true <-> StronglySorted le (spec.entryKeys f value).
Proof.
  intros Hf. unfold spec.inOrder, spec.entryKeys, spec.keyExtractor.
  destruct value as [[| | | |items|m]|]; try (split; [constructor|done]).
  - rewrite isAlphabetized_sorted.
    apply special_cases in Hf as [->| [->| ->]]; done.
  - apply special_cases in Hf as [->| [->| ->]]; cbn.
    + apply isMapAlphabetized_sorted.
    + split; [constructor|done].
    + apply isMapAlphabetized_sorted.
Qed.

Section Field.

Context (cfg : config.Config).

(** What [alphabetizeField] returns holds the entries it was given, and its
    keys are in order when the policy alphabetizes the field. *)
Lemma alphabetizeField_result (f : string) (v v' : Value) (b : bool) :
  (forall m, v = VMap m -> NoDup (List.map fst m)) ->
  fixer.alphabetizeField ToLower f v cfg = Some (v', b) ->
  spec.sameEntries v v'
  /\ (b = false -> v' = v)
  /\ (config.ShouldAlphabetize cfg f = true ->
      spec.inOrder ToLower f (Some v') = true).
Proof.
  intros Hnd. unfold fixer.alphabetizeField.
  destruct (config.ShouldAlphabetize cfg f) eqn:Hs; cbn [negb].
  2:{ intros [= <- <-]. split; [apply sameEntries_refl|]. split; done. }
  assert (Hf := ShouldAlphabetize_special _ _ Hs).
  pose proof (inOrder_sorted f (Some v') Hf) as Hin.
  apply special_cases in Hf as [->| [->| ->]]; cbn [String.eqb Ascii.eqb Bool.eqb];
    unfold fixer.alphabetizeEnvironment, fixer.alphabetizeVolumes, fixer.alphabetizeLabels;
    destruct v as [| | | |items|m];
    try (intros [= <- <-];
         (split; [apply sameEntries_refl|]; split; [done|];
          intros _; by apply Hin; constructor));
    intros H.
  all: try (apply alphabetizeList_result in H as (l' & -> & Hperm & Hsorted & Hsame);
            split; [by cbn|]; split; [by intros ->%Hsame|];
            intros _; apply Hin; exact Hsorted).
  all: apply alphabetizeMap_result in H as (m' & -> & Hperm & Hsorted & Hsame);
    [|by apply Hnd];
    (split; [by cbn|]; split; [by intros ->%Hsame|];
     intros _; apply Hin; exact Hsorted).
Qed.

(** A field whose keys are in order comes back as it is, without a record,
    whenever [alphabetizeField] returns. *)
Lemma alphabetizeField_inOrder (f : string) (v : Value) (r : Value * bool) :
  (config.ShouldAlphabetize cfg f = true -> spec.inOrder ToLower f (Some v) = true) ->
  fixer.alphabetizeField ToLower f v cfg = Some r ->
  r = (v, false).
Proof.
  intros Hin. unfold fixer.alphabetizeField.
  destruct (config.ShouldAlphabetize cfg f) eqn:Hs; cbn [negb]; [|by intros [= <-]].
  assert (Hf := ShouldAlphabetize_special _ _ Hs).
  specialize (Hin eq_refl). apply (inOrder_sorted f _ Hf) in Hin.
  apply special_cases in Hf as [->| [->| ->]]; cbn [String.eqb Ascii.eqb Bool.eqb];
    unfold fixer.alphabetizeEnvironment, fixer.alphabetizeVolumes, fixer.alphabetizeLabels;
    destruct v as [| | | |items|m]; try (by intros [= <-]);
    intros H.
  all: try (by apply alphabetizeList_sorted in H).
  all: rewrite alphabetizeMap_sorted in H by exact Hin; by injection H as <-.
Qed.

Lemma alphabetizeField_disabled (f : string) (v : Value) :
  config.ShouldAlphabetize cfg f = false ->
  fixer.alphabetizeField ToLower f v cfg = Some (v, false).
Proof. unfold fixer.alphabetizeField. by intros ->. Qed.

(** [alphabetizeField] returns when the entries of a sequence are
    comparable. *)
Lemma alphabetizeField_completes (f : string) (v : Value) :
  (forall items, v = VList items -> config.ShouldAlphabetize cfg f = true ->
                 forallb spec.comparable items = true) ->
  is_Some (fixer.alphabetizeField ToLower f v cfg).
Proof.
  intros Hc. unfold fixer.alphabetizeField.
  destruct (config.ShouldAlphabetize cfg f) eqn:Hs; cbn [negb]; [|eauto].
  unfold fixer.alphabetizeEnvironment, fixer.alphabetizeVolumes, fixer.alphabetizeLabels.
  destruct v as [| | | |items|m];
    repeat (match goal with |- context [if ?c then _ else _] => destruct c end);
    eauto using alphabetizeList_completes, alphabetizeMap_completes.
Qed.

End Field.

End Alphabetize.

(** ** The checker *)

Section Checker.

Context (ToLower : string -> string).

Local Abbreviation le := (spec.caseLe ToLower).

Lemma checkOrder_past_end (name : string) (service : parser.Service)
    (expected actual : list string) :
  forall i : nat,
    (length expected <= i)%nat ->
    validator.checkOrder name service expected i actual = [].
Proof.
  induction actual as [|a actual IH]; intros i Hi; cbn; [done|].
  rewrite lookup_ge_None_2 by done. apply IH. lia.
Qed.

(** The loop over the indexes is the pairwise walk of the two sequences. *)
Lemma checkOrder_positionalDiff (name : string) (service : parser.Service)
    (expected actual : list string) :
  forall i : nat,
    validator.checkOrder name service expected i actual
    = spec.positionalDiff name service actual (drop i expected).
Proof.
  unfold spec.positionalDiff.
  induction actual as [|a actual IH]; intros i; cbn; [done|].
  destruct (expected !! i) as [e|] eqn:He.
  - rewrite (drop_S _ _ _ He). cbn. rewrite IH.
    by destruct (negb (String.eqb a e)).
  - apply lookup_ge_None in He. rewrite drop_ge by done.
    rewrite checkOrder_past_end by lia. by destruct actual.
Qed.

Lemma validateFieldOrder_parts (name : string) (service : parser.Service)
    (fo : list string) (cfg : config.Config) :
  validator.validateFieldOrder name service fo cfg
  = spec.positionalDiff name service
      (spec.actualFields service fo) (spec.expectedFields service fo)
    ++ (if config.Strict cfg
        then List.map (validator.strictViolation name) (spec.unknownFields service fo)
        else []).
Proof.
  unfold validator.validateFieldOrder. rewrite checkOrder_positionalDiff. cbn.
  destruct (config.Strict cfg); [done|by rewrite app_nil_r].
Qed.

Lemma validateAlphabetization_parts (name : string) (service : parser.Service)
    (cfg : config.Config) :
  validator.validateAlphabetization ToLower name service cfg
  = spec.alphabetizationReport ToLower name service cfg "environment"
    ++ spec.alphabetizationReport ToLower name service cfg "volumes"
    ++ spec.alphabetizationReport ToLower name service cfg "labels".
Proof.
  unfold validator.validateAlphabetization, spec.alphabetizationReport, spec.inOrder,
    spec.keyExtractor, spec.alphabetizationMessage.
  cbn -[validator.isAlphabetized validator.isMapAlphabetized golang.map_get
        config.ShouldAlphabetize].
  destruct (config.ShouldAlphabetize cfg "environment"),
           (config.ShouldAlphabetize cfg "volumes"),
           (config.ShouldAlphabetize cfg "labels"); cbn [andb];
    destruct (golang.map_get "environment" (parser.Config service)) as [[]|],
             (golang.map_get "volumes" (parser.Config service)) as [[]|],
             (golang.map_get "labels" (parser.Config service)) as [[]|];
    cbn [negb app];
    repeat (match goal with
            | |- context [negb ?c] => destruct c; cbn [negb app]
            end);
    reflexivity.
Qed.

Lemma violationsOf_report (name : string) (service : parser.Service)
    (cfg : config.Config) (f g : string) :
  spec.violationsOf f (spec.alphabetizationReport ToLower name service cfg g)
  = if String.eqb g f then spec.alphabetizationReport ToLower name service cfg g else [].
Proof.
  unfold spec.violationsOf, spec.alphabetizationReport.
  destruct (_ && _); cbn; by destruct (String.eqb g f).
Qed.

(** The violations that name one special field are the report on it. *)
Lemma violationsOf_validateAlphabetization (name : string) (service : parser.Service)
    (cfg : config.Config) (f : string) :
  f ∈ spec.specialFields ->
  spec.violationsOf f (validator.validateAlphabetization ToLower name service cfg)
  = spec.alphabetizationReport ToLower name service cfg f.
Proof.
  intros Hf. rewrite validateAlphabetization_parts.
  unfold spec.violationsOf. rewrite !List.filter_app.
  fold (spec.violationsOf f (spec.alphabetizationReport ToLower name service cfg "environment")).
  fold (spec.violationsOf f (spec.alphabetizationReport ToLower name service cfg "volumes")).
  fold (spec.violationsOf f (spec.alphabetizationReport ToLower name service cfg "labels")).
  rewrite !violationsOf_report.
  apply special_cases in Hf as [->| [->| ->]]; cbn; by rewrite ?app_nil_r.
Qed.

Lemma violationsOf_other (name : string) (service : parser.Service)
    (cfg : config.Config) (f : string) :
  f ∉ spec.specialFields ->
  spec.violationsOf f (validator.validateAlphabetization ToLower name service cfg) = [].
Proof.
  intros Hf. rewrite validateAlphabetization_parts.
  unfold spec.violationsOf. rewrite !List.filter_app.
  fold (spec.violationsOf f (spec.alphabetizationReport ToLower name service cfg "environment")).
  fold (spec.violationsOf f (spec.alphabetizationReport ToLower name service cfg "volumes")).
  fold (spec.violationsOf f (spec.alphabetizationReport ToLower name service cfg "labels")).
  rewrite !violationsOf_report.
  unfold spec.specialFields in Hf.
  destruct (String.eqb_spec "environment" f) as [<-|_]; [exfalso; apply Hf; by left|].
  destruct (String.eqb_spec "volumes" f) as [<-|_]; [exfalso; apply Hf; right; by left|].
  destruct (String.eqb_spec "labels" f) as [<-|_]; [exfalso; apply Hf; do 2 right; by left|].
  done.
Qed.

(** The checker reports nothing exactly when every field that the policy
    alphabetizes passes its test. *)
Lemma validateAlphabetization_nil (name : string) (service : parser.Service)
    (cfg : config.Config) :
  validator.validateAlphabetization ToLower name service cfg = []
  <-> forall f, config.ShouldAlphabetize cfg f = true ->
                spec.inOrder ToLower f (golang.map_get f (parser.Config service)) = true.
Proof.
  rewrite validateAlphabetization_parts. split.
  - intros H f Hs.
    apply app_eq_nil in H as [He H]. apply app_eq_nil in H as [Hv Hl].
    assert (Hf := ShouldAlphabetize_special _ _ Hs).
    apply special_cases in Hf as [->| [->| ->]];
      [clear Hv Hl; rename He into H | clear He Hl; rename Hv into H
       | clear He Hv; rename Hl into H];
      unfold spec.alphabetizationReport in H; rewrite Hs in H; cbn [andb] in H;
      by destruct (spec.inOrder _ _ _).
  - intros H. unfold spec.alphabetizationReport.
    assert (Hone : forall f,
               config.ShouldAlphabetize cfg f
               && negb (spec.inOrder ToLower f (golang.map_get f (parser.Config service)))
               = false).
    { intros f. destruct (config.ShouldAlphabetize cfg f) eqn:Hs; [|done].
      by rewrite (H f Hs). }
    by rewrite !Hone.
Qed.

Lemma combine_lookup {A B : Type} (l1 : list A) (l2 : list B) (a : A) (b : B) :
  (a, b) ∈ combine l1 l2 <-> exists i, l1 !! i = Some a /\ l2 !! i = Some b.
Proof.
  revert l2. induction l1 as [|x l1 IH]; intros [|y l2]; cbn.
  - split; [by intros ?%elem_of_nil|]. by intros (i & ? & ?).
  - split; [by intros ?%elem_of_nil|]. by intros (i & ? & ?).
  - split; [by intros ?%elem_of_nil|]. by intros (i & ? & ?).
  - rewrite elem_of_cons, IH. split.
    + intros [[= -> ->]|(i & ? & ?)]; [by exists 0%nat|by exists (S i)].
    + intros ([|i] & Hi1 & Hi2); cbn in *.
      * left. congruence.
      * right. eauto.
Qed.

End Checker.

(** ** The map that [fixService] leaves in [svc] *)

Section FinalMap.

Implicit Types (m es : gomap) (k : string).

Lemma map_get_set k k' (v : Value) m :
  golang.map_get k (golang.map_set k' v m)
  = if String.eqb k' k then Some v else golang.map_get k m.
Proof.
  induction m as [|[k1 v1] m IH]; cbn.
  - by destruct (String.eqb k' k).
  - destruct (String.eqb_spec k1 k') as [->|Hne]; cbn.
    + by destruct (String.eqb k' k).
    + rewrite IH. destruct (String.eqb_spec k1 k) as [->|_]; [|done].
      destruct (String.eqb_spec k' k) as [->|_]; [done|done].
Qed.

Lemma map_set_NoDup k (v : Value) m :
  NoDup (List.map fst m) -> NoDup (List.map fst (golang.map_set k v m)).
Proof.
  induction m as [|[k1 v1] m IH]; cbn; intros Hnd.
  - apply NoDup_singleton.
  - apply NoDup_cons in Hnd as [Hk1 Hnd].
    destruct (String.eqb_spec k1 k) as [->|Hne]; cbn.
    + by apply NoDup_cons.
    + apply NoDup_cons. split; [|by apply IH].
      intros Hin. apply map_has_elem in Hin. unfold golang.map_has in Hin.
      rewrite map_get_set in Hin. destruct (String.eqb_spec k k1) as [->|_]; [done|].
      apply Hk1. apply map_has_elem. exact Hin.
Qed.

Lemma writeAll_NoDup es m :
  NoDup (List.map fst m) -> NoDup (List.map fst (spec.writeAll es m)).
Proof.
  revert m. induction es as [|[k v] es IH]; intros m Hnd; [done|].
  rewrite writeAll_cons. apply IH. by apply map_set_NoDup.
Qed.

Lemma map_get_writeAll es m k :
  NoDup (List.map fst es) ->
  golang.map_get k (spec.writeAll es m)
  = match golang.map_get k es with
    | Some v => Some v
    | None => golang.map_get k m
    end.
Proof.
  revert m. induction es as [|[k1 v1] es IH]; intros m Hnd; [done|].
  cbn [List.map fst] in Hnd. apply NoDup_cons in Hnd as [Hk1 Hnd].
  rewrite writeAll_cons, IH by done. cbn [fst snd golang.map_get].
  rewrite map_get_set. destruct (String.eqb_spec k1 k) as [->|_]; [|done].
  apply map_get_None in Hk1. by rewrite Hk1.
Qed.

Lemma gomap_NoDup m : NoDup (List.map fst m) -> NoDup m.
Proof. apply (NoDup_fmap_1 fst). Qed.

(** Two maps with the same content hold the same entries. *)
Lemma gomap_ext_perm m m' :
  NoDup (List.map fst m) -> NoDup (List.map fst m') ->
  (forall k, golang.map_get k m = golang.map_get k m') ->
  m ≡ₚ m'.
Proof.
  intros Hnd Hnd' Hext.
  apply NoDup_Permutation; [by apply gomap_NoDup|by apply gomap_NoDup|].
  intros [k v]. split; intros Hin.
  - apply map_get_Some_elem. rewrite <- Hext. by apply map_get_elem.
  - apply map_get_Some_elem. rewrite Hext. by apply map_get_elem.
Qed.

Lemma map_get_perm m m' k :
  NoDup (List.map fst m) -> m ≡ₚ m' ->
  golang.map_get k m = golang.map_get k m'.
Proof.
  intros Hnd Hperm.
  assert (Hnd' : NoDup (List.map fst m')) by (by rewrite <- Hperm).
  destruct (golang.map_get k m) as [v|] eqn:E.
  - symmetry. apply map_get_elem; [done|]. rewrite <- Hperm.
    by apply map_get_Some_elem.
  - symmetry. apply map_get_None. rewrite <- Hperm. by apply map_get_None.
Qed.

End FinalMap.

(** ** Well-formed services *)

Section WellFormed.

Lemma wellFormed_NoDup (svc : gomap) :
  spec.wellFormed svc = true -> NoDup (List.map fst svc).
Proof.
  unfold spec.wellFormed. intros [H _]%andb_true_iff. by apply distinct_NoDup.
Qed.

Lemma wellFormed_nested (svc : gomap) (f : string) (m : gomap) :
  spec.wellFormed svc = true -> (f, VMap m) ∈ svc -> NoDup (List.map fst m).
Proof.
  unfold spec.wellFormed. intros [_ H]%andb_true_iff Hin.
  rewrite forallb_forall in H. apply list_elem_of_In in Hin.
  specialize (H _ Hin). cbn in H. by apply distinct_NoDup.
Qed.

Lemma append_inj_l (s a b : string) : s +:+ a = s +:+ b -> a = b.
Proof. induction s as [|c s IH]; cbn; [done|]. intros [= H]. by apply IH. Qed.

Lemma append_quote_inj (a b : string) : a +:+ "'" = b +:+ "'" -> a = b.
Proof.
  revert b. induction a as [|c a IH]; intros [|d b]; cbn; try done.
  - intros [= _ H]. by destruct b.
  - intros [= _ H]. by destruct a.
  - intros [= -> H]. f_equal. by apply IH.
Qed.

(** The Fix Record of one field is not the Fix Record of another. *)
Lemma alphabetizedMessage_inj (name f g : string) :
  fixer.alphabetizedMessage name f = fixer.alphabetizedMessage name g -> f = g.
Proof.
  unfold fixer.alphabetizedMessage.
  intros H. apply append_inj_l, append_inj_l, append_inj_l in H.
  by apply append_quote_inj.
Qed.

End WellFormed.

(** ** The rewriter on a well-formed service *)

Section Rewriter.

Context (ToLower : string -> string) (name : string) (cfg : config.Config).

Local Abbreviation completes := (spec.completes ToLower cfg).
Local Abbreviation alphabetized := (spec.alphabetized ToLower cfg).
Local Abbreviation wasChanged := (spec.wasChanged ToLower cfg).

Lemma placement_elem (fo : list string) (svc : gomap) (e : string * Value) :
  NoDup (List.map fst svc) -> e ∈ spec.placement fo svc <-> e ∈ svc.
Proof. intros Hnd. by rewrite (placement_perm fo svc Hnd). Qed.

(** [fixService] returns when the entries of the sequences it sorts are
    comparable. *)
Lemma placement_completes (fo : list string) (svc : gomap) :
  spec.wellFormed svc = true ->
  spec.comparableEntries cfg svc = true ->
  forallb completes (spec.placement fo svc) = true.
Proof.
  intros Hwf Hc. apply forallb_forall. intros [f v] Hin.
  apply list_elem_of_In, placement_elem, list_elem_of_In in Hin;
    [|by apply wellFormed_NoDup].
  unfold spec.comparableEntries in Hc. rewrite forallb_forall in Hc.
  specialize (Hc _ Hin). cbn in Hc.
  unfold spec.completes. cbn [fst snd].
  destruct (alphabetizeField_completes ToLower cfg f v) as [r ->]; [|done].
  intros items -> Hs. rewrite Hs in Hc. exact Hc.
Qed.

(** What [alphabetizeField] made of an entry of the service. *)
Lemma alphabetized_entry (svc : gomap) (e : string * Value) :
  spec.wellFormed svc = true ->
  e ∈ svc ->
  completes e = true ->
  spec.sameEntries (snd e) (snd (alphabetized e))
  /\ (wasChanged e = false -> alphabetized e = e)
  /\ (config.ShouldAlphabetize cfg (fst e) = true ->
      spec.inOrder ToLower (fst e) (Some (snd (alphabetized e))) = true)
  /\ (config.ShouldAlphabetize cfg (fst e) = false -> alphabetized e = e).
Proof.
  intros Hwf Hin. destruct e as [f v].
  unfold spec.completes, spec.alphabetized, spec.wasChanged. cbn [fst snd].
  destruct (fixer.alphabetizeField ToLower f v cfg) as [[v' b]|] eqn:E; [|done].
  intros _. cbn [fst snd].
  destruct (alphabetizeField_result ToLower cfg f v v' b) as (Hsame & Hb & Hord);
    [|done|].
  { intros m ->. by eapply wellFormed_nested. }
  split; [done|]. split; [by intros ->%Hb|]. split; [done|].
  intros Hs. rewrite alphabetizeField_disabled in E by done. by injection E as <- <-.
Qed.

Lemma unknownPart_keys (fo : list string) (svc : gomap) :
  List.map fst (spec.unknownPart fo svc)
  = List.filter (fun f => negb (validator.isInFieldOrder f fo)) (List.map fst svc).
Proof.
  unfold spec.unknownPart. induction svc as [|[k v] svc IH]; cbn; [done|].
  destruct (negb (validator.isInFieldOrder k fo)); cbn; by rewrite IH.
Qed.

Lemma canonicalPart_known (fo : list string) (svc : gomap) (e : string * Value) :
  e ∈ spec.canonicalPart fo svc -> fst e ∈ fo.
Proof. destruct e as [k v]. by intros [_ ?]%canonicalPart_elem. Qed.

Lemma filter_none {A : Type} (p : A -> bool) (l : list A) :
  (forall x, x ∈ l -> p x = false) -> List.filter p l = [].
Proof.
  induction l as [|x l IH]; intros H; cbn; [done|].
  rewrite H by (by left). apply IH. intros y Hy. apply H. by right.
Qed.

Lemma positionalDiff_same (service : parser.Service) (l : list string) :
  spec.positionalDiff name service l l = [].
Proof.
  unfold spec.positionalDiff. induction l as [|x l IH]; cbn; [done|].
  by rewrite String.eqb_refl.
Qed.

(** *** Maps of entries that keep their keys *)

Section KeyPreserving.

Context (g : string * Value -> string * Value).
Hypothesis g_fst : forall e, fst (g e) = fst e.

Lemma map_get_map (m : gomap) (k : string) :
  golang.map_get k (List.map g m)
  = (fun v => snd (g (k, v))) <$> golang.map_get k m.
Proof.
  induction m as [|[k1 v1] m IH]; cbn; [done|].
  pose proof (g_fst (k1, v1)) as Hfst. destruct (g (k1, v1)) as [k2 v2] eqn:E.
  cbn in Hfst. subst k2. destruct (String.eqb_spec k1 k) as [->|_]; [|done].
  cbn. by rewrite E.
Qed.

End KeyPreserving.

(** When [alphabetizeField] changes no field, [fixService] reports nothing
    and writes the fields to [ordered] as they are. *)
Lemma fixService_unchanged (fo : list string) (svc : gomap) (r : fixer.FixState) :
  NoDup (List.map fst svc) ->
  (forall e, e ∈ spec.placement fo svc -> completes e = true ->
             wasChanged e = false /\ alphabetized e = e) ->
  fixer.fixService ToLower name svc fo cfg = Some r ->
  fixer.fixed r = false /\ fixer.changes r = []
  /\ fixer.ordered r = spec.placement fo svc.
Proof.
  intros Hnd Hsame. rewrite (fixService_spec ToLower name cfg svc fo Hnd).
  destruct (forallb _ _) eqn:Hcomp; [|done]. intros [= <-].
  cbn [fixer.fixed fixer.changes fixer.ordered].
  rewrite forallb_forall in Hcomp.
  assert (H : forall e, In e (spec.placement fo svc) ->
                        wasChanged e = false /\ alphabetized e = e).
  { intros e He. apply Hsame; [by apply list_elem_of_In|by apply Hcomp]. }
  split; [|split].
  - apply not_true_is_false. intros (e & He & Hch)%existsb_exists.
    destruct (H e He) as [Hno _]. congruence.
  - unfold spec.fixRecords. rewrite filter_none; [done|].
    intros e He. apply H. by apply list_elem_of_In.
  - rewrite <- (map_id (spec.placement fo svc)) at 2.
    apply map_ext_in. intros e He. by apply H.
Qed.

(** A service whose alphabetized fields the checker accepts. *)
Lemma fixService_compliant (fo : list string) (svc : gomap) (line column : Z)
    (r : fixer.FixState) :
  spec.wellFormed svc = true ->
  validator.validateAlphabetization ToLower name
    (spec.serviceOf name svc line column) cfg = [] ->
  fixer.fixService ToLower name svc fo cfg = Some r ->
  fixer.fixed r = false /\ fixer.changes r = []
  /\ fixer.ordered r = spec.placement fo svc.
Proof.
  intros Hwf Hcheck. pose proof (wellFormed_NoDup svc Hwf) as Hnd.
  apply fixService_unchanged; [done|].
  intros [f v] He Hc. apply placement_elem in He; [|done].
  pose proof (proj1 (validateAlphabetization_nil ToLower name _ cfg) Hcheck f) as Hord.
  cbn [spec.serviceOf parser.Config] in Hord.
  rewrite (map_get_elem f v svc Hnd He) in Hord.
  unfold spec.completes, spec.wasChanged, spec.alphabetized in *. cbn [fst snd] in *.
  destruct (fixer.alphabetizeField ToLower f v cfg) as [res|] eqn:E; [|done].
  apply alphabetizeField_inOrder in E; [|done]. by subst res.
Qed.

(** *** A service that is already in order *)

Lemma positionalDiff_nil (service : parser.Service) (l1 l2 : list string) :
  length l1 = length l2 ->
  spec.positionalDiff name service l1 l2 = [] -> l1 = l2.
Proof.
  unfold spec.positionalDiff.
  revert l2. induction l1 as [|a l1 IH]; intros [|b l2] Hlen; cbn in *; try done.
  destruct (String.eqb_spec a b) as [->|Hne]; cbn; [|done].
  intros H. f_equal. apply IH; [lia|done].
Qed.

(** *** Records and values of single fields *)

Lemma reorderedMessage_fresh (f : string) :
  fixer.reorderedMessage name <> fixer.alphabetizedMessage name f.
Proof.
  unfold fixer.reorderedMessage, fixer.alphabetizedMessage.
  intros H. apply append_inj_l, append_inj_l in H. discriminate H.
Qed.

(** [fixService] never records a reordering. *)
Lemma fixService_never_reorders (fo : list string) (svc : gomap) (r : fixer.FixState) :
  NoDup (List.map fst svc) ->
  fixer.fixService ToLower name svc fo cfg = Some r ->
  (fixer.reorderedMessage name ∉ fixer.changes r)
  /\ fixer.fixed r = existsb wasChanged (spec.placement fo svc).
Proof.
  intros Hnd. rewrite (fixService_spec ToLower name cfg svc fo Hnd).
  destruct (forallb _ _); [|done]. intros [= <-].
  cbn [fixer.changes fixer.fixed]. split; [|done].
  unfold spec.fixRecords. intros Hin.
  apply list_elem_of_In, in_map_iff in Hin as (e & He & _).
  symmetry in He. by apply reorderedMessage_fresh in He.
Qed.

(** A field that the policy does not alphabetize gets no Fix Record and
    keeps its value, in [ordered] and in the final [svc]. *)
Lemma fixService_disabled_field (fo : list string) (svc : gomap) (r : fixer.FixState)
    (f : string) :
  NoDup (List.map fst svc) ->
  config.ShouldAlphabetize cfg f = false ->
  fixer.fixService ToLower name svc fo cfg = Some r ->
  (fixer.alphabetizedMessage name f ∉ fixer.changes r)
  /\ golang.map_get f (fixer.ordered r) = golang.map_get f svc
  /\ golang.map_get f (fixer.svc r) = golang.map_get f svc.
Proof.
  intros Hnd Hs. rewrite (fixService_spec ToLower name cfg svc fo Hnd).
  destruct (forallb _ _); [|done]. intros [= <-].
  cbn [fixer.changes fixer.ordered fixer.svc].
  assert (Hunch : forall v, alphabetized (f, v) = (f, v) /\ wasChanged (f, v) = false).
  { intros v. unfold spec.alphabetized, spec.wasChanged. cbn [fst snd].
    by rewrite alphabetizeField_disabled. }
  assert (HO : golang.map_get f (List.map alphabetized (spec.placement fo svc))
               = golang.map_get f svc).
  { rewrite map_get_map by apply alphabetized_fst.
    rewrite (map_get_perm (spec.placement fo svc) svc f);
      [|by rewrite (placement_perm fo svc Hnd)|by apply placement_perm].
    destruct (golang.map_get f svc) as [v|]; [|done]. cbn.
    by rewrite (proj1 (Hunch v)). }
  split; [|split; [done|]].
  - unfold spec.fixRecords. intros Hin.
    apply list_elem_of_In, in_map_iff in Hin as ([g v] & He & Hin).
    apply alphabetizedMessage_inj in He. cbn in He. subst g.
    apply filter_In in Hin as [_ Hch]. by rewrite (proj2 (Hunch v)) in Hch.
  - rewrite map_get_writeAll.
    2:{ rewrite alphabetized_keys. by rewrite (placement_perm fo svc Hnd). }
    rewrite HO. destruct (golang.map_get f svc) as [v|] eqn:E; [done|].
    apply map_get_None. rewrite unknownPart_keys. intros Hin.
    apply list_elem_of_In, filter_In in Hin as [Hin _].
    apply map_get_None in E. by apply E, list_elem_of_In.
Qed.

End Rewriter.

(** ** [FixBytes] on a file that needs no alphabetization *)

Section FixBytes.

Context (ToLower : string -> string).
Context (yaml_Unmarshal : string -> option gomap).
Context (yaml_Marshal : gomap -> option string).
Context (cfg : config.Config).

(** The services of the file are well formed, hold comparable entries and
    pass the alphabetization check. *)
Local Abbreviation settled := (fun entries : gomap =>
  forall n m, (n, VMap m) ∈ entries ->
    spec.wellFormed m = true
    /\ spec.comparableEntries cfg m = true
    /\ validator.validateAlphabetization ToLower n (spec.serviceOf n m 0 0) cfg = []).

Lemma fixServices_settled (entries : gomap) :
  settled entries ->
  forall (changes0 : list string) (fixed0 : bool) (services : gomap),
    exists services',
      fixer.fixServices ToLower cfg entries (changes0, fixed0, services)
      = Some (changes0, fixed0, services').
Proof.
  induction entries as [|[n v] entries IH]; intros Hall changes0 fixed0 services.
  - cbn. eauto.
  - assert (Hrest : settled entries).
    { intros n' m' Hin. apply Hall. by right. }
    destruct v as [| | | |items|m]; cbn [fixer.fixServices]; try by apply IH.
    destruct (Hall n m ltac:(by left)) as (Hwf & Hcmp & Hcheck).
    pose proof (wellFormed_NoDup m Hwf) as Hnd.
    pose proof (fixService_spec ToLower n cfg m (config.GetFieldOrder cfg n) Hnd) as Hspec.
    rewrite (placement_completes ToLower cfg _ m Hwf Hcmp) in Hspec.
    destruct (fixService_compliant ToLower n cfg _ m 0 0 _ Hwf Hcheck Hspec)
      as (Hfixed & _).
    rewrite Hspec. cbn [mbind option_bind]. rewrite Hfixed. by apply IH.
Qed.

(** [FixBytes] returns the bytes it was given, and no changes, when no
    service of the file needs alphabetization: the declared order of the
    fields plays no part. *)
Lemma FixBytes_settled (data : string) (composeContent services : gomap) :
  yaml_Unmarshal data = Some composeContent ->
  golang.map_get "services" composeContent = Some (VMap services) ->
  settled services ->
  fixer.FixBytes ToLower yaml_Unmarshal yaml_Marshal data cfg
  = Some (fixer.Output data golang.nil_slice).
Proof.
  intros Hparse Hservices Hall. unfold fixer.FixBytes. rewrite Hparse, Hservices.
  destruct (fixServices_settled services Hall [] false services) as [services' ->].
  done.
Qed.

End FixBytes.

(** ** The unit tests of the repository, on the embedding *)

Example TestExtractEnvKey :
  List.map fixer.extractEnvKey
    [VString "KEY=value"; VString "KEY"; VString "${VAR}=value";
     VMap [("KEY", VString "value")]; VInt 123]
  = ["KEY"; "KEY"; "${VAR}"; "KEY"; ""].
Proof. reflexivity. Qed.

Example TestExtractVolumeKey :
  List.map fixer.extractVolumeKey
    [VString "/host:/container"; VString "/host:/container:ro"; VString "/host";
     VString "named_volume:/container"; VInt 123]
  = ["/host"; "/host"; "/host"; "named_volume"; ""].
Proof. reflexivity. Qed.

Example TestExtractLabelKey :
  List.map fixer.extractLabelKey
    [VString "key=value"; VString "key";
     VString "traefik.http.routers.app.rule=Host(`example.com`)";
     VMap [("key", VString "value")]; VInt 123]
  = ["key"; "key"; "traefik.http.routers.app.rule"; "key"; ""].
Proof. reflexivity. Qed.

Example TestAlphabetizeEnvironment_List_sorted :
  fixer.alphabetizeEnvironment golang.ToLower_ascii
    (VList [VString "AAA=value"; VString "BBB=value"; VString "CCC=value"])
  = Some (VList [VString "AAA=value"; VString "BBB=value"; VString "CCC=value"], false).
Proof. reflexivity. Qed.

Example TestAlphabetizeEnvironment_List_case_insensitive :
  fixer.alphabetizeEnvironment golang.ToLower_ascii
    (VList [VString "zzz=value"; VString "AAA=value"; VString "BBB=value"])
  = Some (VList [VString "AAA=value"; VString "BBB=value"; VString "zzz=value"], true).
Proof. reflexivity. Qed.

Example TestAlphabetizeEnvironment_List_short :
  fixer.alphabetizeEnvironment golang.ToLower_ascii (VList []) = Some (VList [], false)
  /\ fixer.alphabetizeEnvironment golang.ToLower_ascii (VList [VString "KEY=value"])
     = Some (VList [VString "KEY=value"], false).
Proof. split; reflexivity. Qed.

Example TestAlphabetizeEnvironment_Map :
  fixer.alphabetizeEnvironment golang.ToLower_ascii
    (VMap [("ZZZ", VString "value3"); ("AAA", VString "value1");
           ("MMM", VString "value2")])
  = Some (VMap [("AAA", VString "value1"); ("MMM", VString "value2");
                ("ZZZ", VString "value3")], true).
Proof. reflexivity. Qed.

Example TestAlphabetizeVolumes :
  fixer.alphabetizeVolumes golang.ToLower_ascii
    (VList [VString "/zzz:/container/zzz"; VString "/aaa:/container/aaa";
            VString "/mmm:/container/mmm"])
  = Some (VList [VString "/aaa:/container/aaa"; VString "/mmm:/container/mmm";
                 VString "/zzz:/container/zzz"], true).
Proof. reflexivity. Qed.

Example TestAlphabetizeLabels :
  fixer.alphabetizeLabels golang.ToLower_ascii
    (VList [VString "wud.watch=true"; VString "traefik.enable=true";
            VString "com.example.label=value"])
  = Some (VList [VString "com.example.label=value"; VString "traefik.enable=true";
                 VString "wud.watch=true"], true).
Proof. reflexivity. Qed.

Example TestIsFieldOrderCorrect :
  fixer.isFieldOrderCorrect
    [("container_name", VString "app"); ("image", VString "nginx");
     ("environment", VList [])] config.DefaultFieldOrder = true
  /\ fixer.isFieldOrderCorrect
       [("image", VString "nginx"); ("container_name", VString "app");
        ("environment", VList [])] config.DefaultFieldOrder = false
  /\ fixer.isFieldOrderCorrect
       [("container_name", VString "app"); ("image", VString "nginx")]
       config.DefaultFieldOrder = true.
Proof. repeat split; reflexivity. Qed.

Example TestValidate_UnalphabetizedEnvironment_List :
  validator.validateAlphabetization golang.ToLower_ascii "web"
    (scenario.service ["container_name"; "image"; "environment"]
       [("container_name", VString "web-server"); ("image", VString "nginx:latest");
        ("environment",
         VList [VString "ZZZ=value1"; VString "AAA=value2"; VString "MMM=value3"])])
    config.NewDefaultConfig
  = [validator.alphaViolation "web"
       (scenario.service ["container_name"; "image"; "environment"]
          [("container_name", VString "web-server"); ("image", VString "nginx:latest");
           ("environment",
            VList [VString "ZZZ=value1"; VString "AAA=value2"; VString "MMM=value3"])])
       "environment" "environment variables are not alphabetized"].
Proof. reflexivity. Qed.

Example TestValidate_CaseInsensitiveAlphabetization :
  validator.validateAlphabetization golang.ToLower_ascii "web"
    (scenario.service ["container_name"; "image"; "environment"]
       [("container_name", VString "web-server"); ("image", VString "nginx:latest");
        ("environment",
         VList [VString "aaa=value1"; VString "BBB=value2"; VString "ccc=value3"])])
    config.NewDefaultConfig
  = [].
Proof. reflexivity. Qed.

Example TestShouldAlphabetize :
  List.map (config.ShouldAlphabetize config.NewDefaultConfig)
    ["environment"; "volumes"; "labels"; "image"; "container_name"; "ports";
     "restart"; ""; "unknown"]
  = [true; true; true; false; false; false; false; false; false].
Proof. reflexivity. Qed.

Example TestGetFieldOrder :
  config.GetFieldOrder
    {| config.FieldOrder := config.DefaultFieldOrder;
       config.Alphabetization :=
         {| config.Environment := true; config.Volumes := true; config.Labels := true |};
       config.Strict := false;
       config.Exclude := [];
       config.ServiceOverrides :=
         {[ "database" :=
              {| config.Override_FieldOrder :=
                   ["container_name"; "image"; "environment"] |} ]} |}
    "database"
  = ["container_name"; "image"; "environment"]
  /\ config.GetFieldOrder config.NewDefaultConfig "web" = config.DefaultFieldOrder.
Proof. split; reflexivity. Qed.

(** * The claims of the specification *)

(** ** The checker *)

(** C5.  Positional order diff.  The order violations of the positional
    check are those of the pairwise walk of [actual] (the declared fields that
    the canonical order names) and [expected] (the canonical fields that the
    service has): one violation, naming the actual and the expected field, for
    each index at which the two differ; strict mode adds its own violations
    after them.  The service that declares image, container_name, environment
    gets two violations under the default order, for image and for
    container_name. *)
Theorem positional_order_diff :
  (forall (name : string) (service : parser.Service) (fo : list string)
          (cfg : config.Config),
      validator.validateFieldOrder name service fo cfg
      = spec.positionalDiff name service
          (spec.actualFields service fo) (spec.expectedFields service fo)
        ++ (if config.Strict cfg
            then List.map (validator.strictViolation name) (spec.unknownFields service fo)
            else []))
  /\ (forall (name : string) (service : parser.Service) (actual expected : list string)
             (v : validator.Violation),
         v ∈ spec.positionalDiff name service actual expected
         <-> exists (i : nat) (a e : string),
               actual !! i = Some a /\ expected !! i = Some e /\ a <> e
               /\ v = validator.orderViolation name service a e)
  /\ validator.validateFieldOrder "web" scenario.misordered
       config.DefaultFieldOrder config.NewDefaultConfig
     = [ validator.orderViolation "web" scenario.misordered "image" "container_name";
         validator.orderViolation "web" scenario.misordered "container_name" "image" ].
Proof.
  split; [|split].
  - intros. apply validateFieldOrder_parts.
  - intros name service actual expected v. unfold spec.positionalDiff.
    rewrite list_elem_of_In, in_map_iff. split.
    + intros ([a e] & <- & Hin). apply filter_In in Hin as [Hin Hne].
      apply list_elem_of_In, combine_lookup in Hin as (i & Ha & He).
      exists i, a, e. repeat split; try done.
      intros ->. by rewrite String.eqb_refl in Hne.
    + intros (i & a & e & Ha & He & Hne & ->). exists (a, e). split; [done|].
      apply filter_In. split.
      * apply list_elem_of_In, combine_lookup. eauto.
      * by apply negb_true_iff, String.eqb_neq.
  - reflexivity.
Qed.

(** The report on a mapping depends on the order in which the loop visits
    its keys: the same entries pass in one order and fail in the other. *)
Remark mapping_visit_order :
  [("AAA", VString "v1"); ("ZZZ", VString "v2")]
  ≡ₚ [("ZZZ", VString "v2"); ("AAA", VString "v1")]
  /\ validator.isMapAlphabetized golang.ToLower_ascii
       [("AAA", VString "v1"); ("ZZZ", VString "v2")] = true
  /\ validator.isMapAlphabetized golang.ToLower_ascii
       [("ZZZ", VString "v2"); ("AAA", VString "v1")] = false.
Proof. split; [apply perm_swap|split; reflexivity]. Qed.

(** C6.  Alphabetization check.  For a special field that the policy
    alphabetizes the checker reports nothing or one violation; it reports
    nothing exactly when the keys of the entries of the field (those of a
    mapping in the order in which the loop visits them) are in ascending
    order ignoring case, which is to say when the stable sort of the keys
    returns them as they are; a field with at most one entry is never
    reported, and [isAlphabetized] accepts every sequence of length 0 or
    1. *)
Theorem alphabetization_check (ToLower : string -> string) (name : string)
    (service : parser.Service) (cfg : config.Config) (f : string) :
  config.ShouldAlphabetize cfg f = true ->
  let keys := spec.entryKeys f (golang.map_get f (parser.Config service)) in
  let reported :=
    spec.violationsOf f (validator.validateAlphabetization ToLower name service cfg) in
  (reported = []
   \/ reported = [validator.alphaViolation name service f (spec.alphabetizationMessage f)])
  /\ (reported = [] <-> StronglySorted (spec.caseLe ToLower) keys)
  /\ (StronglySorted (spec.caseLe ToLower) keys
      <-> golang.sort_Slice (fixer.lessBy ToLower id) keys = keys)
  /\ ((length keys <= 1)%nat -> reported = [])
  /\ (forall (items : list Value) (keyOf : Value -> string),
        (length items <= 1)%nat -> validator.isAlphabetized ToLower items keyOf = true).
Proof.
  intros Hs keys reported.
  assert (Hf := ShouldAlphabetize_special _ _ Hs).
  assert (Hrep : reported = [] <-> StronglySorted (spec.caseLe ToLower) keys).
  { unfold reported, keys. rewrite violationsOf_validateAlphabetization by done.
    unfold spec.alphabetizationReport. rewrite Hs. cbn [andb].
    rewrite <- (inOrder_sorted ToLower f _ Hf).
    by destruct (spec.inOrder _ _ _). }
  split; [|split; [done|split; [|split]]].
  - unfold reported. rewrite violationsOf_validateAlphabetization by done.
    unfold spec.alphabetizationReport. destruct (_ && _); auto.
  - split.
    + intros H. apply sort_Slice_keys_fixpoint. by rewrite map_id.
    + intros H. rewrite <- H.
      pose proof (sort_Slice_keys_sorted ToLower id keys) as Hsorted.
      by rewrite map_id in Hsorted.
  - intros Hlen. apply Hrep. apply StronglySorted_short. lia.
  - intros items keyOf Hlen. apply isAlphabetized_sorted, StronglySorted_short.
    rewrite length_map. lia.
Qed.

Lemma alphabetization_check_witness :
  config.ShouldAlphabetize config.NewDefaultConfig "environment" = true
  /\ (spec.violationsOf "environment"
        (validator.validateAlphabetization golang.ToLower_ascii "web"
           scenario.unsortedEnvironment config.NewDefaultConfig) = []
      <-> StronglySorted (spec.caseLe golang.ToLower_ascii)
            (spec.entryKeys "environment"
               (golang.map_get "environment"
                  (parser.Config scenario.unsortedEnvironment)))).
Proof.
  split; [reflexivity|].
  apply (alphabetization_check golang.ToLower_ascii "web" scenario.unsortedEnvironment
           config.NewDefaultConfig "environment").
  reflexivity.
Defined.

(** C7.  Strict mode.  With strict mode on, the checker reports what it
    reports with strict mode off and then one order violation for each
    declared field that the canonical order does not name; with strict mode
    off no violation names such a field.  The service with the field
    custom_field gets one violation in strict mode and none otherwise. *)
Theorem strict_mode_unknown_fields (name : string) (service : parser.Service)
    (fo : list string) (strict lax : config.Config) :
  config.Strict strict = true ->
  config.Strict lax = false ->
  validator.validateFieldOrder name service fo strict
  = validator.validateFieldOrder name service fo lax
    ++ List.map (validator.strictViolation name) (spec.unknownFields service fo)
  /\ length (validator.validateFieldOrder name service fo strict)
     = (length (validator.validateFieldOrder name service fo lax)
        + length (spec.unknownFields service fo))%nat
  /\ (forall v, v ∈ validator.validateFieldOrder name service fo lax ->
                validator.Field v ∈ fo)
  /\ validator.validateFieldOrder "web" scenario.withCustomField
       config.DefaultFieldOrder scenario.strictConfig
     = [validator.strictViolation "web" "custom_field"]
  /\ validator.validateFieldOrder "web" scenario.withCustomField
       config.DefaultFieldOrder config.NewDefaultConfig
     = [].
Proof.
  intros Hstrict Hlax. rewrite !validateFieldOrder_parts, Hstrict, Hlax, app_nil_r.
  split; [done|]. split; [by rewrite length_app, length_map|].
  split; [|split; reflexivity].
  intros v Hv. unfold spec.positionalDiff in Hv.
  apply list_elem_of_In, in_map_iff in Hv as ([a e] & <- & Hin).
  apply filter_In in Hin as [Hin _]. apply in_combine_l in Hin.
  unfold spec.actualFields in Hin. apply filter_In in Hin as [_ Hin].
  by apply isInFieldOrder_elem in Hin.
Qed.

Lemma strict_mode_unknown_fields_witness :
  validator.validateFieldOrder "web" scenario.withCustomField
    config.DefaultFieldOrder scenario.strictConfig
  = validator.validateFieldOrder "web" scenario.withCustomField
      config.DefaultFieldOrder config.NewDefaultConfig
    ++ List.map (validator.strictViolation "web")
         (spec.unknownFields scenario.withCustomField config.DefaultFieldOrder).
Proof.
  apply (strict_mode_unknown_fields "web" scenario.withCustomField
           config.DefaultFieldOrder scenario.strictConfig config.NewDefaultConfig);
    reflexivity.
Defined.

(** ** The flattened services of a file *)

Section Flattening.

Context (Node_String : parser.Node -> string).
Context (yaml_Unmarshal : string -> option Value).

Local Abbreviation GetServicesOf := (parser.GetServicesOf Node_String yaml_Unmarshal).

Lemma fold_left_union {X : Type}
    (f : gmap string parser.Service -> X -> gmap string parser.Service) (l : list X) :
  (forall acc x, f acc x = f ∅ x ∪ acc) ->
  forall acc, fold_left f l acc = fold_left f l ∅ ∪ acc.
Proof.
  intros Hf. induction l as [|x l IH]; intros acc; cbn.
  - by rewrite (left_id_L ∅ (∪)).
  - rewrite IH, (IH (f ∅ x)), (Hf acc x). by rewrite (assoc_L (∪)).
Qed.

Lemma extractServices_union (nodes : list (parser.Key * parser.Node))
    (acc : gmap string parser.Service) :
  parser.extractServices Node_String yaml_Unmarshal nodes acc
  = parser.extractServices Node_String yaml_Unmarshal nodes ∅ ∪ acc.
Proof.
  unfold parser.extractServices. apply fold_left_union.
  intros m [k [fields|text]]; [|by rewrite (left_id_L ∅ (∪))].
  destruct (parser.decodeFields _ _ fields) as [fo cfg].
  by rewrite insert_union_singleton_l, insert_empty.
Qed.

Lemma addDocument_union (acc : gmap string parser.Service)
    (doc : option parser.DocumentNode) :
  parser.addDocument Node_String yaml_Unmarshal acc doc
  = parser.addDocument Node_String yaml_Unmarshal ∅ doc ∪ acc.
Proof.
  unfold parser.addDocument.
  destruct doc as [[[[mapping|text]|]]|]; cbn [parser.Body];
    try (by rewrite (left_id_L ∅ (∪))).
  destruct (parser.findServicesNode mapping); [|by rewrite (left_id_L ∅ (∪))].
  apply extractServices_union.
Qed.

Lemma GetServicesOf_app (earlier later : list (option parser.DocumentNode)) :
  GetServicesOf (earlier ++ later) = GetServicesOf later ∪ GetServicesOf earlier.
Proof.
  unfold parser.GetServicesOf. rewrite fold_left_app.
  apply fold_left_union. apply addDocument_union.
Qed.

End Flattening.

(** C9.  Last-write-wins flattening.  The services of a file are those of
    its later documents laid over those of its earlier documents: a name that
    a later document defines maps to the service of the later document, and
    any other name maps to what the earlier documents give it.  When two
    documents define the service web, at lines 2 and 7, the file maps web to
    the service of line 7. *)
Theorem last_write_wins (Node_String : parser.Node -> string)
    (yaml_Unmarshal : string -> option Value)
    (earlier later : list (option parser.DocumentNode)) :
  parser.GetServicesOf Node_String yaml_Unmarshal (earlier ++ later)
  = parser.GetServicesOf Node_String yaml_Unmarshal later
    ∪ parser.GetServicesOf Node_String yaml_Unmarshal earlier
  /\ (forall (name : string) (s : parser.Service),
        parser.GetServicesOf Node_String yaml_Unmarshal later !! name = Some s ->
        parser.GetServicesOf Node_String yaml_Unmarshal (earlier ++ later) !! name
        = Some s)
  /\ (forall name : string,
        parser.GetServicesOf Node_String yaml_Unmarshal later !! name = None ->
        parser.GetServicesOf Node_String yaml_Unmarshal (earlier ++ later) !! name
        = parser.GetServicesOf Node_String yaml_Unmarshal earlier !! name)
  /\ parser.Line <$>
       (parser.GetServicesOf Node_String yaml_Unmarshal
          [scenario.firstDocument; scenario.secondDocument] !! "web")
     = Some 7.
Proof.
  rewrite GetServicesOf_app. split; [done|]. split; [|split].
  - intros name s Hs. by apply lookup_union_Some_l.
  - intros name Hnone. by apply lookup_union_r.
  - unfold parser.GetServicesOf. cbn. by rewrite lookup_insert_eq.
Qed.

(** ** The result of [Validate] *)

(** C10.  The flag [Valid] agrees with the list of violations.  [Validate]
    returns a list of violations that is not nil, and [Valid] is true exactly
    when that list is empty. *)
Theorem valid_iff_no_violations (ToLower : string -> string)
    (Node_String : parser.Node -> string) (yaml_Unmarshal : string -> option Value)
    (file : parser.ComposeFile) (cfg : config.Config) :
  exists vs : list validator.Violation,
    validator.Violations
      (validator.Validate ToLower Node_String yaml_Unmarshal file cfg)
    = golang.make_slice vs
    /\ (validator.Valid (validator.Validate ToLower Node_String yaml_Unmarshal file cfg)
        = true <-> vs = []).
Proof.
  unfold validator.Validate.
  generalize (map_to_list (parser.GetServices Node_String yaml_Unmarshal file)).
  intros services.
  set (step := fun (result : validator.ValidationResult)
                   '((serviceName, service) : string * parser.Service) => _).
  assert (Hinv : forall (l : list (string * parser.Service)) (r : validator.ValidationResult)
                        (vs0 : list validator.Violation),
             validator.Valid r = true ->
             validator.Violations r = golang.make_slice vs0 ->
             exists vs, validator.Violations (fold_left step l r) = golang.make_slice vs
                        /\ validator.Valid (fold_left step l r) = true).
  { induction l as [|[n s] l IH]; intros r vs0 Hvalid Hvs; cbn [fold_left].
    - eauto.
    - eapply IH.
      + unfold step. cbn. exact Hvalid.
      + unfold step. cbn. rewrite Hvs. cbn. reflexivity. }
  destruct (Hinv services
              {| validator.File := parser.Path file; validator.Valid := true;
                 validator.Violations := golang.make_slice [] |} [] eq_refl eq_refl)
    as (vs & Hvs & Hvalid).
  set (r := fold_left step services _) in *. clearbody r. clear Hinv step.
  exists vs. rewrite Hvs. cbn [golang.len].
  destruct vs as [|v vs]; simpl.
  - by rewrite Hvs, Hvalid.
  - split; [done|]. split; done.
Qed.

(** ** The rewriter *)

(** C3.  No data loss.  When [fixService] returns (it does when the entries
    of the sequences it sorts are comparable), the corrected sequence
    [ordered] names the fields of the service, each once; every field keeps
    its value, up to the order of the entries of a sequence or mapping; the
    fields that the canonical order names come first and the others follow in
    the order in which the service lists them; and the map that the function
    leaves in [svc] holds the entries of [ordered]. *)
Theorem no_data_loss (ToLower : string -> string) (name : string) (svc : gomap)
    (fo : list string) (cfg : config.Config) :
  spec.wellFormed svc = true ->
  (spec.comparableEntries cfg svc = true ->
   is_Some (fixer.fixService ToLower name svc fo cfg))
  /\ forall r : fixer.FixState,
       fixer.fixService ToLower name svc fo cfg = Some r ->
       List.map fst (fixer.ordered r) ≡ₚ List.map fst svc
       /\ (forall f v, golang.map_get f svc = Some v ->
                       exists v', golang.map_get f (fixer.ordered r) = Some v'
                                  /\ spec.sameEntries v v')
       /\ (exists canonical unknown : gomap,
             fixer.ordered r = canonical ++ unknown
             /\ (forall e, e ∈ canonical -> fst e ∈ fo)
             /\ List.map fst unknown
                = List.filter (fun f => negb (validator.isInFieldOrder f fo))
                              (List.map fst svc))
       /\ fixer.svc r ≡ₚ fixer.ordered r.
Proof.
  intros Hwf. pose proof (wellFormed_NoDup svc Hwf) as Hnd.
  rewrite (fixService_spec ToLower name cfg svc fo Hnd).
  split.
  { intros Hc. rewrite placement_completes by done. eauto. }
  intros r. destruct (forallb _ _) eqn:Hcomp; [|done]. intros [= <-].
  cbn [fixer.ordered fixer.svc].
  rewrite forallb_forall in Hcomp.
  assert (Hkeys : List.map fst (List.map (spec.alphabetized ToLower cfg)
                                  (spec.placement fo svc))
                  ≡ₚ List.map fst svc).
  { rewrite alphabetized_keys. by rewrite (placement_perm fo svc Hnd). }
  assert (HndO : NoDup (List.map fst (List.map (spec.alphabetized ToLower cfg)
                                        (spec.placement fo svc)))).
  { by rewrite Hkeys. }
  split; [done|]. split; [|split].
  - intros f v Hget. apply map_get_Some_elem in Hget.
    assert (Hin : (f, v) ∈ spec.placement fo svc) by (by apply placement_elem).
    destruct (alphabetized_entry ToLower cfg svc (f, v) Hwf Hget) as (Hsame & _).
    { apply Hcomp. by apply list_elem_of_In. }
    exists (snd (spec.alphabetized ToLower cfg (f, v))). split; [|done].
    apply map_get_elem; [done|].
    apply list_elem_of_In, in_map_iff. exists (f, v). split; [|by apply list_elem_of_In].
    pose proof (alphabetized_fst ToLower cfg (f, v)) as Hfst.
    destruct (spec.alphabetized ToLower cfg (f, v)) as [f' v']. cbn in *. by subst.
  - exists (List.map (spec.alphabetized ToLower cfg) (spec.canonicalPart fo svc)),
           (List.map (spec.alphabetized ToLower cfg) (spec.unknownPart fo svc)).
    split; [apply map_app|]. split.
    + intros e He. apply list_elem_of_In, in_map_iff in He as (e0 & <- & He0).
      rewrite alphabetized_fst. eapply canonicalPart_known. by apply list_elem_of_In.
    + by rewrite alphabetized_keys, unknownPart_keys.
  - apply gomap_ext_perm; [|done|].
    + apply writeAll_NoDup. rewrite unknownPart_keys.
      apply NoDup_ListNoDup, List.NoDup_filter, NoDup_ListNoDup, Hnd.
    + intros k. rewrite map_get_writeAll by done.
      destruct (golang.map_get k (List.map _ _)) as [v|] eqn:E; [done|].
      apply map_get_None. apply map_get_None in E. intros Hin. apply E.
      rewrite Hkeys. rewrite unknownPart_keys in Hin.
      apply list_elem_of_In, filter_In in Hin as [Hin _]. by apply list_elem_of_In.
Qed.

Lemma no_data_loss_witness :
  spec.wellFormed (parser.Config scenario.unsortedEnvironment) = true
  /\ is_Some (fixer.fixService golang.ToLower_ascii "web"
                (parser.Config scenario.unsortedEnvironment)
                config.DefaultFieldOrder config.NewDefaultConfig).
Proof.
  split; [reflexivity|].
  apply (no_data_loss golang.ToLower_ascii "web"
           (parser.Config scenario.unsortedEnvironment)
           config.DefaultFieldOrder config.NewDefaultConfig);
    reflexivity.
Defined.

(** C1.  Soundness of fix.  The file whose service web declares image before
    container_name is not valid: the checker reports two order violations.
    [FixBytes] returns the bytes of the file as they are, with no change, and
    [Fix] returns [Fixed = false] and leaves the file system as it is.  So
    the file that fix leaves is the file it was given, and the check of it
    still reports the two order violations. *)
Theorem misordered_file_stays_invalid :
  let cfg := config.NewDefaultConfig in
  let web := spec.serviceOf "web" (parser.Config scenario.misordered) 2 3 in
  fixer.FixBytes golang.ToLower_ascii
    (fun data => spec.okValue (example.unmarshalText data))
    (fun content => spec.okValue (example.marshal content))
    example.misorderedText cfg
  = Some (fixer.Output example.misorderedText golang.nil_slice)
  /\ fixer.Fix golang.ToLower_ascii example.World example.readFile example.writeFile
       example.unmarshalText example.marshal example.misorderedFile cfg
       example.misorderedDisk
     = Some (example.misorderedDisk,
             golang.Ok {| fixer.File := "docker-compose.yml";
                          fixer.Fixed := false;
                          fixer.Changes := golang.make_slice [];
                          fixer.Error_ := None |})
  /\ parser.ParseFile example.World example.readFile example.parseText
       example.misorderedDisk "docker-compose.yml"
     = golang.Ok example.misorderedFile
  /\ validator.Validate golang.ToLower_ascii example.nodeString example.unmarshalNode
       example.misorderedFile cfg
     = {| validator.File := "docker-compose.yml";
          validator.Valid := false;
          validator.Violations :=
            golang.make_slice
              [validator.orderViolation "web" web "image" "container_name";
               validator.orderViolation "web" web "container_name" "image"] |}.
Proof. repeat split; vm_compute; reflexivity. Qed.

(** C2.  Idempotence of fix.  A service with two volumes in the long syntax
    is compliant, and [fixService] panics on it: it compares the two
    mappings with [!=].  And a service whose environment is a mapping with
    the keys ZZZ and AAA: when the [range] of [alphabetizeEnvironment] visits
    ZZZ first, [fixService] reports the field as alphabetized and leaves a
    service that holds, field by field, the entries of the one it was given;
    Go keeps no order for the map that was built, so a second application
    whose [range] visits ZZZ first runs as the first one did and reports
    [fixed = true] again.  It reports [fixed = false] when its [range] visits
    AAA first. *)
Theorem fix_not_idempotent :
  let repair := fun svc : gomap =>
    fixer.fixService golang.ToLower_ascii "web" svc
      config.DefaultFieldOrder config.NewDefaultConfig in
  (spec.compliant golang.ToLower_ascii "web"
     (spec.serviceOf "web" scenario.longVolumes 1 1)
     config.DefaultFieldOrder config.NewDefaultConfig
   /\ repair scenario.longVolumes = None)
  /\ (fixer.fixed <$> repair scenario.mappingEnvironment = Some true
      /\ fixer.changes <$> repair scenario.mappingEnvironment
         = Some [fixer.alphabetizedMessage "web" "environment"]
      /\ fixer.svc <$> repair scenario.mappingEnvironment
         = Some scenario.mappingEnvironmentSorted
      /\ Forall2 (fun e e' => fst e = fst e' /\ spec.sameEntries (snd e) (snd e'))
           scenario.mappingEnvironmentSorted scenario.mappingEnvironment
      /\ fixer.fixed <$> repair scenario.mappingEnvironmentSorted = Some false).
Proof.
  cbn zeta. split; [repeat split; reflexivity|].
  split; [reflexivity|]. split; [reflexivity|]. split; [reflexivity|].
  split; [|reflexivity].
  constructor; [split; reflexivity|].
  constructor; [split; [reflexivity|apply perm_swap]|].
  constructor.
Qed.

(** C4.  The "reordered" Fix Record.  The service that declares image before
    container_name is out of order for the checker, and for
    [isFieldOrderCorrect] when it is given the service; yet [fixService]
    returns [fixed = false] and no Fix Record for it: it calls
    [isFieldOrderCorrect] on what its first loop left in [svc], and the loop
    has deleted every field of the canonical order from it. *)
Theorem reordered_record_missing :
  validator.validateFieldOrder "web" scenario.misordered
    config.DefaultFieldOrder config.NewDefaultConfig
  = [ validator.orderViolation "web" scenario.misordered "image" "container_name";
      validator.orderViolation "web" scenario.misordered "container_name" "image" ]
  /\ fixer.isFieldOrderCorrect (parser.Config scenario.misordered)
       config.DefaultFieldOrder = false
  /\ fixer.fixService golang.ToLower_ascii "web" (parser.Config scenario.misordered)
       config.DefaultFieldOrder config.NewDefaultConfig
     = Some {| fixer.changes := [];
               fixer.fixed := false;
               fixer.ordered :=
                 [("container_name", VString "web-server");
                  ("image", VString "nginx:latest");
                  ("environment", VList [VString "KEY=value"])];
               fixer.svc :=
                 [("container_name", VString "web-server");
                  ("image", VString "nginx:latest");
                  ("environment", VList [VString "KEY=value"])] |}.
Proof. repeat split; reflexivity. Qed.

(** C8.  Disabled alphabetization rule.  When the policy does not alphabetize
    a field, the checker reports no violation for it, whatever its entries;
    [alphabetizeField] returns its value as it is, with the flag false; and
    [fixService] records no alphabetization of the field and leaves its
    value as it is.  With the alphabetization of environment disabled, the
    entries ZZZ=v1, AAA=v2 get no violation and no Fix Record. *)
Theorem disabled_rule (ToLower : string -> string) (name : string)
    (cfg : config.Config) (f : string) :
  config.ShouldAlphabetize cfg f = false ->
  (forall service : parser.Service,
      spec.violationsOf f (validator.validateAlphabetization ToLower name service cfg)
      = [])
  /\ (forall value : Value,
        fixer.alphabetizeField ToLower f value cfg = Some (value, false))
  /\ (forall (svc : gomap) (fo : list string) (r : fixer.FixState),
        spec.wellFormed svc = true ->
        fixer.fixService ToLower name svc fo cfg = Some r ->
        (fixer.alphabetizedMessage name f ∉ fixer.changes r)
        /\ golang.map_get f (fixer.ordered r) = golang.map_get f svc
        /\ golang.map_get f (fixer.svc r) = golang.map_get f svc)
  /\ validator.validateAlphabetization ToLower "web" scenario.unsortedEnvironment
       scenario.environmentDisabled
     = []
  /\ fixer.fixService ToLower "web" (parser.Config scenario.unsortedEnvironment)
       config.DefaultFieldOrder scenario.environmentDisabled
     = Some {| fixer.changes := [];
               fixer.fixed := false;
               fixer.ordered := parser.Config scenario.unsortedEnvironment;
               fixer.svc := parser.Config scenario.unsortedEnvironment |}.
Proof.
  intros Hs. split; [|split; [|split; [|split]]].
  - intros service.
    destruct (decide (f ∈ spec.specialFields)) as [Hf|Hf].
    + rewrite violationsOf_validateAlphabetization by done.
      unfold spec.alphabetizationReport. by rewrite Hs.
    + by apply violationsOf_other.
  - intros value. by apply alphabetizeField_disabled.
  - intros svc fo r Hwf Hr.
    eapply fixService_disabled_field; [by apply wellFormed_NoDup|done|exact Hr].
  - reflexivity.
  - reflexivity.
Qed.

Lemma disabled_rule_witness :
  config.ShouldAlphabetize scenario.environmentDisabled "environment" = false
  /\ forall value : Value,
       fixer.alphabetizeField golang.ToLower_ascii "environment" value
         scenario.environmentDisabled
       = Some (value, false).
Proof.
  split; [reflexivity|].
  apply (disabled_rule golang.ToLower_ascii "web" scenario.environmentDisabled
           "environment").
  reflexivity.
Defined.

(** * Further properties of the code *)

(** ** The sorting loops of the checker *)

(** X1.  The sorting loops of [isAlphabetized] and [isMapAlphabetized].  The
    two nested loops that exchange [sortedKeys[i]] and [sortedKeys[j]] leave a
    permutation of the keys, of the same length, in ascending order ignoring
    case; and they leave the keys as they are exactly when the keys are
    already in that order. *)
Theorem exchange_sort_sorts (ToLower : string -> string) (keys : list string) :
  let sortedKeys := validator.sortCaseInsensitive ToLower keys in
  StronglySorted (spec.caseLe ToLower) sortedKeys
  /\ sortedKeys ≡ₚ keys
  /\ length sortedKeys = length keys
  /\ (sortedKeys = keys <-> StronglySorted (spec.caseLe ToLower) keys).
Proof.
  cbn zeta. split; [apply sortCaseInsensitive_sorted|].
  split; [apply sortCaseInsensitive_perm|].
  split; [apply Permutation_length, sortCaseInsensitive_perm|]. split.
  - intros <-. apply sortCaseInsensitive_sorted.
  - apply sortCaseInsensitive_fixpoint.
Qed.

(** ** The sort keys of the entries *)

Section Strings.

Lemma append_nil_l (s : string) : "" +:+ s = s.
Proof. reflexivity. Qed.

Lemma append_cons (b : ascii) (k s : string) : String b k +:+ s = String b (k +:+ s).
Proof. reflexivity. Qed.

Lemma index_byte_absent (c : ascii) (s : string) :
  spec.hasByte c s = false -> String.index 0 (String c "") s = None.
Proof.
  induction s as [|b s IH]; cbn; [done|].
  intros H. apply orb_false_iff in H as [Hb Hs].
  destruct (ascii_dec c b) as [->|Hne].
  - by rewrite Ascii.eqb_refl in Hb.
  - by rewrite IH.
Qed.

Lemma index_byte_first (c : ascii) (k rest : string) :
  spec.hasByte c k = false ->
  String.index 0 (String c "") (k +:+ String c rest) = Some (String.length k).
Proof.
  induction k as [|b k IH]; rewrite ?append_nil_l, ?append_cons; cbn.
  - intros _. destruct (ascii_dec c c); [|done]. by destruct rest.
  - intros H. apply orb_false_iff in H as [Hb Hs].
    destruct (ascii_dec c b) as [->|Hne].
    + by rewrite Ascii.eqb_refl in Hb.
    + by rewrite IH.
Qed.

Lemma substring_prefix (k rest : string) :
  String.substring 0 (String.length k) (k +:+ rest) = k.
Proof.
  induction k as [|b k IH]; rewrite ?append_nil_l, ?append_cons; cbn.
  - by destruct rest.
  - by rewrite IH.
Qed.

Lemma strings_Split_nonempty (s : string) (sep : ascii) :
  golang.strings_Split s sep <> [].
Proof.
  destruct s as [|b s]; cbn; [done|].
  destruct (Ascii.eqb b sep); [done|].
  by destruct (golang.strings_Split s sep).
Qed.

Lemma strings_Split_absent (s : string) (sep : ascii) :
  spec.hasByte sep s = false -> golang.strings_Split s sep = [s].
Proof.
  induction s as [|b s IH]; cbn; [done|].
  intros H. apply orb_false_iff in H as [Hb Hs].
  rewrite Hb, IH by done. done.
Qed.

Lemma strings_Split_first (k rest : string) (sep : ascii) :
  spec.hasByte sep k = false ->
  golang.strings_Split (k +:+ String sep rest) sep
  = k :: golang.strings_Split rest sep.
Proof.
  induction k as [|b k IH]; rewrite ?append_nil_l, ?append_cons; cbn.
  - intros _. by rewrite Ascii.eqb_refl.
  - intros H. apply orb_false_iff in H as [Hb Hs].
    by rewrite Hb, IH.
Qed.

End Strings.

Section Suffix.

Lemma length_append (a b : string) :
  String.length (a +:+ b) = (String.length a + String.length b)%nat.
Proof. induction a as [|c a IH]; rewrite ?append_nil_l, ?append_cons; cbn; lia. Qed.

Lemma substring_suffix (a b : string) :
  String.substring (String.length a) (String.length b) (a +:+ b) = b.
Proof.
  induction a as [|c a IH]; rewrite ?append_nil_l, ?append_cons; cbn; [|done].
  induction b as [|d b IHb]; cbn; [done|]. by rewrite IHb.
Qed.

Lemma substring_split (s : string) :
  forall n : nat,
    (n <= String.length s)%nat ->
    String.substring 0 n s +:+ String.substring n (String.length s - n) s = s.
Proof.
  induction s as [|c s IH]; intros [|n] Hn; cbn in *; try lia.
  - done.
  - rewrite append_nil_l. f_equal. specialize (IH 0%nat). cbn in IH.
    rewrite Nat.sub_0_r in IH.
    destruct s; [done|]. cbn in *. rewrite append_nil_l in IH. apply IH. lia.
  - rewrite append_cons. f_equal. apply IH. lia.
Qed.

Lemma strings_HasSuffix_append (a suffix : string) :
  golang.strings_HasSuffix (a +:+ suffix) suffix = true.
Proof.
  unfold golang.strings_HasSuffix, golang.strings_len, golang.slice_from.
  rewrite length_append. apply andb_true_iff. split; [apply Z.leb_le; lia|].
  apply String.eqb_eq.
  replace (Z.to_nat (Z.of_nat (String.length a + String.length suffix)
                     - Z.of_nat (String.length suffix)))
    with (String.length a) by lia.
  replace (String.length a + String.length suffix - String.length a)%nat
    with (String.length suffix) by lia.
  apply substring_suffix.
Qed.

Lemma strings_HasSuffix_inv (s suffix : string) :
  golang.strings_HasSuffix s suffix = true -> exists a, s = a +:+ suffix.
Proof.
  unfold golang.strings_HasSuffix, golang.strings_len, golang.slice_from.
  intros H. apply andb_true_iff in H as [Hlen Heq].
  apply Z.leb_le in Hlen. apply String.eqb_eq in Heq.
  replace (Z.to_nat (Z.of_nat (String.length s) - Z.of_nat (String.length suffix)))
    with (String.length s - String.length suffix)%nat in Heq by lia.
  set (n := (String.length s - String.length suffix)%nat) in *.
  exists (String.substring 0 n s).
  transitivity (String.substring 0 n s +:+ String.substring n (String.length s - n) s).
  - symmetry. apply substring_split. unfold n. lia.
  - by rewrite Heq.
Qed.

Lemma strings_TrimSuffix_append (a suffix : string) :
  golang.strings_TrimSuffix (a +:+ suffix) suffix = a.
Proof.
  unfold golang.strings_TrimSuffix. rewrite strings_HasSuffix_append.
  unfold golang.slice_to, golang.strings_len. rewrite length_append.
  replace (Z.to_nat (Z.of_nat (String.length a + String.length suffix)
                     - Z.of_nat (String.length suffix)))
    with (String.length a) by lia.
  apply substring_prefix.
Qed.

Lemma append_last_inj (a b : string) (c d : ascii) :
  a +:+ String c "" = b +:+ String d "" -> a = b /\ c = d.
Proof.
  revert b. induction a as [|x a IH]; intros [|y b];
    rewrite ?append_nil_l, ?append_cons.
  - by intros [= ->].
  - intros [= -> H]. by destruct b.
  - intros [= -> H]. by destruct a.
  - intros [= -> H]. apply IH in H as [-> ->]. done.
Qed.

Lemma append_assoc (a b c : string) : (a +:+ b) +:+ c = a +:+ b +:+ c.
Proof. induction a as [|x a IH]; rewrite ?append_nil_l, ?append_cons; by f_equal. Qed.

Lemma strings_HasPrefix_append (prefix rest : string) :
  golang.strings_HasPrefix (prefix +:+ rest) prefix = true.
Proof.
  unfold golang.strings_HasPrefix, golang.strings_len, golang.slice_to.
  rewrite length_append, Nat2Z.id, substring_prefix, String.eqb_refl.
  apply andb_true_iff. split; [apply Z.leb_le; lia|done].
Qed.

Lemma slice_from_append (prefix rest : string) :
  golang.slice_from (prefix +:+ rest) (Z.of_nat (String.length prefix)) = rest.
Proof.
  unfold golang.slice_from. rewrite Nat2Z.id, length_append.
  replace (String.length prefix + String.length rest - String.length prefix)%nat
    with (String.length rest) by lia.
  apply substring_suffix.
Qed.

Lemma recursive_rest (rest : string) : golang.slice_from ("**/" +:+ rest) 3 = rest.
Proof. exact (slice_from_append "**/" rest). Qed.

End Suffix.

(** X2.  The key of an environment or label entry.  For an entry [K=V] whose
    [K] is not empty and holds no [=], the key is [K], whatever [V] holds; an
    entry without [=] is its own key; and so is an entry that starts with
    [=].  The extractors of the two packages agree. *)
Theorem entry_key_before_equals (k v : string) :
  k <> "" ->
  spec.hasByte "=" k = false ->
  validator.extractEnvKey (VString (k +:+ "=" +:+ v)) = k
  /\ validator.extractLabelKey (VString (k +:+ "=" +:+ v)) = k
  /\ fixer.extractEnvKey (VString (k +:+ "=" +:+ v)) = k
  /\ fixer.extractLabelKey (VString (k +:+ "=" +:+ v)) = k
  /\ validator.extractEnvKey (VString k) = k
  /\ validator.extractLabelKey (VString k) = k
  /\ validator.extractEnvKey (VString ("=" +:+ v)) = "=" +:+ v
  /\ validator.extractLabelKey (VString ("=" +:+ v)) = "=" +:+ v.
Proof.
  intros Hk Hno.
  assert (Hkey : (let idx := golang.strings_Index (k +:+ "=" +:+ v) "=" in
                  if 0 <? idx then golang.slice_to (k +:+ "=" +:+ v) idx
                  else k +:+ "=" +:+ v) = k).
  { cbn zeta. unfold golang.strings_Index.
    change ("=" +:+ v) with (String "=" v).
    rewrite index_byte_first by done.
    destruct k as [|b k]; [done|].
    replace (0 <? Z.of_nat (String.length (String b k))) with true
      by (symmetry; apply Z.ltb_lt; cbn; lia).
    unfold golang.slice_to. rewrite Nat2Z.id. apply substring_prefix. }
  assert (Hself : (let idx := golang.strings_Index k "=" in
                   if 0 <? idx then golang.slice_to k idx else k) = k).
  { cbn zeta. unfold golang.strings_Index. by rewrite index_byte_absent. }
  assert (Hlead : (let idx := golang.strings_Index ("=" +:+ v) "=" in
                   if 0 <? idx then golang.slice_to ("=" +:+ v) idx else "=" +:+ v)
                  = "=" +:+ v).
  { cbn zeta. unfold golang.strings_Index.
    change ("=" +:+ v) with (String "=" v). cbn. by destruct v. }
  repeat split; try exact Hkey; try exact Hself; exact Hlead.
Qed.

Lemma entry_key_before_equals_witness :
  "DB_HOST" <> ""
  /\ spec.hasByte "=" "DB_HOST" = false
  /\ validator.extractEnvKey (VString ("DB_HOST" +:+ "=" +:+ "a=b")) = "DB_HOST".
Proof.
  split; [discriminate|]. split; [reflexivity|].
  apply (entry_key_before_equals "DB_HOST" "a=b"); [discriminate|reflexivity].
Defined.

(** X3.  The key of a volume.  For a volume [SRC:REST] whose [SRC] holds no
    [:], the key is [SRC], whatever follows; a volume without [:] is its own
    key.  The extractors of the two packages agree. *)
Theorem volume_key_before_colon (src rest : string) :
  spec.hasByte ":" src = false ->
  validator.extractVolumeKey (VString (src +:+ ":" +:+ rest)) = src
  /\ fixer.extractVolumeKey (VString (src +:+ ":" +:+ rest)) = src
  /\ validator.extractVolumeKey (VString src) = src
  /\ fixer.extractVolumeKey (VString src) = src.
Proof.
  intros Hno. unfold validator.extractVolumeKey, fixer.extractVolumeKey.
  change (":" +:+ rest) with (String ":" rest).
  by rewrite strings_Split_first, strings_Split_absent.
Qed.


Lemma volume_key_before_colon_witness :
  spec.hasByte ":" "/host" = false
  /\ validator.extractVolumeKey (VString ("/host" +:+ ":" +:+ "/container:ro")) = "/host".
Proof.
  split; [reflexivity|].
  apply (volume_key_before_colon "/host" "/container:ro"). reflexivity.
Defined.

Section LongSyntax.

Context (ToLower : string -> string).

Lemma mapping_keys (items : list Value) :
  forallb spec.isMapping items = true ->
  StronglySorted (spec.caseLe ToLower) (List.map validator.extractVolumeKey items).
Proof.
  induction items as [|v items IH]; cbn; [constructor|].
  intros H. apply andb_true_iff in H as [Hv Hitems].
  constructor; [by apply IH|].
  apply Forall_forall. intros k Hk.
  apply list_elem_of_In, in_map_iff in Hk as (v' & <- & Hin).
  rewrite forallb_forall in Hitems. specialize (Hitems v' Hin).
  destruct v; try done. destruct v'; try done. apply caseLe_refl.
Qed.

End LongSyntax.

(** X4.  Volumes in the long syntax.  When every entry of a sequence is a
    mapping, the checker accepts the sequence, since every key is empty; the
    rewriter returns the sequence as it is when it has fewer than two entries
    and panics when it has two or more, on the comparison of two
    mappings. *)
Theorem long_syntax_volumes (ToLower : string -> string) (items : list Value) :
  forallb spec.isMapping items = true ->
  validator.isAlphabetized ToLower items validator.extractVolumeKey = true
  /\ ((2 <= length items)%nat ->
      fixer.alphabetizeVolumes ToLower (VList items) = None)
  /\ ((length items < 2)%nat ->
      fixer.alphabetizeVolumes ToLower (VList items) = Some (VList items, false)).
Proof.
  intros Hmaps. pose proof (mapping_keys ToLower items Hmaps) as Hsorted.
  split; [by apply isAlphabetized_sorted|].
  unfold fixer.alphabetizeVolumes, fixer.alphabetizeList. split; intros Hlen.
  - replace (Z.of_nat (length items) <? 2) with false
      by (symmetry; apply Z.ltb_ge; lia).
    rewrite sort_Slice_keys_fixpoint by (by rewrite extractVolumeKey_same).
    destruct items as [|[] items]; cbn in Hlen, Hmaps; try done; lia.
  - by replace (Z.of_nat (length items) <? 2) with true
      by (symmetry; apply Z.ltb_lt; lia).
Qed.

Lemma long_syntax_volumes_witness :
  forallb spec.isMapping
    [VMap [("type", VString "bind"); ("source", VString "/zzz")];
     VMap [("type", VString "bind"); ("source", VString "/aaa")]] = true
  /\ validator.isAlphabetized golang.ToLower_ascii
       [VMap [("type", VString "bind"); ("source", VString "/zzz")];
        VMap [("type", VString "bind"); ("source", VString "/aaa")]]
       validator.extractVolumeKey = true.
Proof.
  split; [reflexivity|].
  apply (long_syntax_volumes golang.ToLower_ascii
           [VMap [("type", VString "bind"); ("source", VString "/zzz")];
            VMap [("type", VString "bind"); ("source", VString "/aaa")]]).
  reflexivity.
Defined.

(** ** The order checks of the two packages *)

Section FieldIndex.

Context (fo : list string).

Local Abbreviation idx := (fun f : string => fixer.getFieldIndex f fo).

Lemma getFieldIndexFrom_spec (f : string) (l : list string) :
  forall i : Z,
    ((f ∉ l) /\ fixer.getFieldIndexFrom i f l = -1)
    \/ (exists n : nat,
          fixer.getFieldIndexFrom i f l = i + Z.of_nat n
          /\ l !! n = Some f
          /\ forall j : nat, (j < n)%nat -> l !! j <> Some f).
Proof.
  induction l as [|g l IH]; intros i; cbn.
  - left. split; [apply not_elem_of_nil|done].
  - destruct (String.eqb g f) eqn:E.
    + apply String.eqb_eq in E as ->. right. exists 0%nat.
      split; [lia|]. split; [done|]. intros j Hj. lia.
    + apply String.eqb_neq in E.
      destruct (IH (i + 1)) as [[Hno Hres]|(n & Hres & Hn & Hfirst)].
      * left. split; [|done]. rewrite not_elem_of_cons. split; [congruence|done].
      * right. exists (S n). split; [lia|]. split; [done|].
        intros [|j] Hj; cbn; [congruence|]. apply Hfirst. lia.
Qed.

Lemma getFieldIndex_known (f : string) :
  validator.isInFieldOrder f fo = (0 <=? idx f).
Proof.
  unfold fixer.getFieldIndex.
  destruct (getFieldIndexFrom_spec f fo 0) as [[Hno ->]|(n & -> & Hn & _)].
  - by apply isInFieldOrder_not_elem.
  - replace (0 <=? 0 + Z.of_nat n) with true by (symmetry; apply Z.leb_le; lia).
    apply isInFieldOrder_elem. by eapply list_elem_of_lookup_2.
Qed.

Lemma getFieldIndex_lookup (f : string) :
  f ∈ fo -> fo !! Z.to_nat (idx f) = Some f /\ 0 <= idx f.
Proof.
  intros Hin. unfold fixer.getFieldIndex.
  destruct (getFieldIndexFrom_spec f fo 0) as [[Hno _]|(n & -> & Hn & _)]; [done|].
  rewrite Z.add_0_l, Nat2Z.id. split; [done|lia].
Qed.

Lemma getFieldIndex_inj (f g : string) :
  f ∈ fo -> g ∈ fo -> idx f = idx g -> f = g.
Proof.
  intros Hf Hg Heq.
  destruct (getFieldIndex_lookup f Hf) as [Hf' _].
  destruct (getFieldIndex_lookup g Hg) as [Hg' _].
  rewrite Heq in Hf'. congruence.
Qed.

(** The loop accepts exactly when the indices of the fields that the order
    names never decrease. *)
Lemma isFieldOrderCorrectFrom_sorted (m : gomap) :
  forall lastIndex : Z,
    fixer.isFieldOrderCorrectFrom lastIndex m fo = true
    <-> Forall (Z.le lastIndex)
          (List.map idx (List.filter (fun f => validator.isInFieldOrder f fo)
                                     (List.map fst m)))
        /\ StronglySorted Z.le
             (List.map idx (List.filter (fun f => validator.isInFieldOrder f fo)
                                        (List.map fst m))).
Proof.
  induction m as [|[f v] m IH]; intros lastIndex; cbn [fixer.isFieldOrderCorrectFrom].
  - cbn. split; [|done]. intros _. split; constructor.
  - cbn [List.map fst List.filter]. rewrite getFieldIndex_known.
    destruct (0 <=? idx f) eqn:Hknown; [|apply IH].
    cbn [List.map]. destruct (idx f <? lastIndex) eqn:Hlt.
    + apply Z.ltb_lt in Hlt. split; [done|].
      intros [H _]. apply Forall_cons in H as [H _]. lia.
    + apply Z.ltb_ge in Hlt. rewrite IH. split.
      * intros [Hall Hsorted]. split.
        -- constructor; [done|]. eapply Forall_impl; [exact Hall|]. cbn. lia.
        -- by constructor.
      * intros [_ Hsorted]. apply StronglySorted_inv in Hsorted as [Hsorted Hall].
        done.
Qed.

Lemma isFieldOrderCorrect_sorted (m : gomap) :
  fixer.isFieldOrderCorrect m fo = true
  <-> StronglySorted (fun f g => idx f <= idx g)
        (List.filter (fun f => validator.isInFieldOrder f fo) (List.map fst m)).
Proof.
  unfold fixer.isFieldOrderCorrect. rewrite isFieldOrderCorrectFrom_sorted.
  rewrite <- (StronglySorted_map Z.le idx). split; [by intros [_ H]|].
  intros H. split; [|done].
  apply Forall_forall. intros i Hi.
  apply list_elem_of_In, in_map_iff in Hi as (f & <- & Hf).
  apply filter_In in Hf as [_ Hf]. rewrite getFieldIndex_known in Hf.
  apply Z.leb_le in Hf. lia.
Qed.

Lemma StronglySorted_filter {A : Type} (R : relation A) (p : A -> bool) (l : list A) :
  StronglySorted R l -> StronglySorted R (List.filter p l).
Proof.
  induction 1 as [|a l Hl IH Hall]; cbn; [constructor|].
  destruct (p a); [|done]. constructor; [done|].
  apply Forall_forall. intros b Hb. apply list_elem_of_In, filter_In in Hb as [Hb _].
  rewrite Forall_forall in Hall. by apply Hall, list_elem_of_In.
Qed.

Lemma getFieldIndexFrom_shift (f : string) (l : list string) :
  forall i : Z, f ∈ l -> fixer.getFieldIndexFrom (i + 1) f l
                         = fixer.getFieldIndexFrom i f l + 1.
Proof.
  induction l as [|g l IH]; intros i Hin; [by apply elem_of_nil in Hin|].
  cbn. destruct (String.eqb g f) eqn:E; [done|].
  apply String.eqb_neq in E. apply elem_of_cons in Hin as [->|Hin]; [done|].
  by apply IH.
Qed.

End FieldIndex.

Lemma StronglySorted_of_lookup {A : Type} (R : relation A) (l : list A) :
  (forall (i j : nat) (a b : A),
      (i < j)%nat -> l !! i = Some a -> l !! j = Some b -> R a b) ->
  StronglySorted R l.
Proof.
  induction l as [|x l IH]; intros H; constructor.
  - apply IH. intros i j a b Hij Ha Hb. by apply (H (S i) (S j)); [lia| |].
  - apply Forall_forall. intros b Hb.
    apply list_elem_of_lookup_1 in Hb as [j Hj].
    by apply (H 0%nat (S j)); [lia| |].
Qed.

Lemma getFieldIndex_position (fo : list string) (n : nat) (f : string) :
  NoDup fo -> fo !! n = Some f -> fixer.getFieldIndex f fo = Z.of_nat n.
Proof.
  intros Hnd Hn. unfold fixer.getFieldIndex.
  destruct (getFieldIndexFrom_spec f fo 0) as [[Hno _]|(n' & -> & Hn' & _)].
  - exfalso. apply Hno. by eapply list_elem_of_lookup_2.
  - by rewrite (NoDup_lookup fo n n' f Hnd Hn Hn').
Qed.

Lemma canonical_order_sorted (fo : list string) :
  NoDup fo ->
  StronglySorted (fun f g => fixer.getFieldIndex f fo <= fixer.getFieldIndex g fo) fo.
Proof.
  intros Hnd. apply StronglySorted_of_lookup. intros i j a b Hij Ha Hb.
  rewrite (getFieldIndex_position fo i a), (getFieldIndex_position fo j b) by done.
  lia.
Qed.

(** X5.  [getFieldIndex].  The result is [-1] exactly when the field does not
    occur in the field order; otherwise it is the index of the first
    occurrence of the field; and it is not negative exactly when
    [isInFieldOrder] of the checker holds. *)
Theorem getFieldIndex_first_occurrence (field : string) (fieldOrder : list string) :
  let idx := fixer.getFieldIndex field fieldOrder in
  (idx = -1 <-> field ∉ fieldOrder)
  /\ (idx <> -1 ->
      0 <= idx < Z.of_nat (length fieldOrder)
      /\ fieldOrder !! Z.to_nat idx = Some field
      /\ forall j : nat, (j < Z.to_nat idx)%nat -> fieldOrder !! j <> Some field)
  /\ validator.isInFieldOrder field fieldOrder = (0 <=? idx).
Proof.
  cbn zeta. split; [|split; [|apply getFieldIndex_known]]; unfold fixer.getFieldIndex;
    destruct (getFieldIndexFrom_spec field fieldOrder 0)
      as [[Hno ->]|(n & -> & Hn & Hfirst)]; try done.
  - split; [lia|]. intros Hno. exfalso. apply Hno. by eapply list_elem_of_lookup_2.
  - intros _. rewrite Z.add_0_l, Nat2Z.id. split; [|done].
    apply lookup_lt_Some in Hn. lia.
Qed.

Section OrderChecks.

Context (name : string) (service : parser.Service) (fo : list string).

Hypothesis declared_distinct : NoDup (parser.FieldOrder service).
Hypothesis fo_distinct : NoDup fo.
Hypothesis same_fields :
  forall f, f ∈ parser.FieldOrder service
            <-> golang.map_has f (parser.Config service) = true.

Lemma actual_expected_perm :
  spec.actualFields service fo ≡ₚ spec.expectedFields service fo.
Proof.
  unfold spec.actualFields, spec.expectedFields.
  apply NoDup_Permutation.
  - by apply NoDup_ListNoDup, List.NoDup_filter, NoDup_ListNoDup.
  - by apply NoDup_ListNoDup, List.NoDup_filter, NoDup_ListNoDup.
  - intros f. rewrite !list_elem_of_In, !filter_In, <- !list_elem_of_In.
    rewrite isInFieldOrder_elem, same_fields. tauto.
Qed.

Lemma actual_NoDup : NoDup (spec.actualFields service fo).
Proof. by apply NoDup_ListNoDup, List.NoDup_filter, NoDup_ListNoDup. Qed.

Lemma order_accepted :
  spec.positionalDiff name service
    (spec.actualFields service fo) (spec.expectedFields service fo) = []
  <-> spec.actualFields service fo = spec.expectedFields service fo.
Proof.
  split.
  - apply positionalDiff_nil. apply Permutation_length, actual_expected_perm.
  - intros ->. apply positionalDiff_same.
Qed.

Lemma expected_sorted :
  StronglySorted (fun f g => fixer.getFieldIndex f fo <= fixer.getFieldIndex g fo)
    (spec.expectedFields service fo).
Proof. apply StronglySorted_filter. by apply canonical_order_sorted. Qed.

Lemma order_accepted_sorted :
  spec.actualFields service fo = spec.expectedFields service fo
  <-> StronglySorted (fun f g => fixer.getFieldIndex f fo <= fixer.getFieldIndex g fo)
        (spec.actualFields service fo).
Proof.
  split.
  - intros ->. apply expected_sorted.
  - intros H. eapply StronglySorted_unique_strong;
      [|exact H|exact expected_sorted|exact actual_expected_perm].
    intros f g Hf Hg Hfg Hgf. cbv beta in Hfg, Hgf.
    apply (getFieldIndex_inj fo); [| |lia].
    + apply list_elem_of_In, filter_In in Hf as [_ Hf]. by apply isInFieldOrder_elem.
    + apply list_elem_of_In, filter_In in Hg as [Hg _]. by apply list_elem_of_In.
Qed.

Lemma single_difference {A : Type} (neq : A * A -> bool) (l1 l2 : list A) (x y : A) :
  length l1 = length l2 ->
  (forall a, neq (a, a) = false) ->
  (forall a b, neq (a, b) = false -> a = b) ->
  List.filter neq (combine l1 l2) = [(x, y)] ->
  exists pre post, l1 = pre ++ x :: post /\ l2 = pre ++ y :: post.
Proof.
  intros Hlen Hrefl Heq. revert l2 Hlen.
  induction l1 as [|a l1 IH]; intros [|b l2] Hlen; try done.
  cbn. destruct (neq (a, b)) eqn:E.
  - intros [= -> -> Hrest]. exists [], l1. split; [done|]. cbn. f_equal.
    injection Hlen as Hlen. clear IH. revert l2 Hlen Hrest.
    induction l1 as [|a l1 IH]; intros [|b l2] Hlen; try done.
    cbn. destruct (neq (a, b)) eqn:E'; [done|].
    intros Hrest. apply Heq in E' as ->. f_equal. apply IH; [by injection Hlen|done].
  - intros Hrest. apply Heq in E as ->.
    destruct (IH l2) as (pre & post & -> & ->); [by injection Hlen|done|].
    by exists (b :: pre), post.
Qed.

End OrderChecks.

(** X6.  The two order checks agree.  For a service with distinct field names,
    a canonical order with distinct names and strict mode off, the checker
    reports no order violation exactly when [isFieldOrderCorrect] accepts
    the fields of the service in the order in which they are declared. *)
Theorem order_checks_agree (name : string) (svc : gomap) (fo : list string)
    (cfg : config.Config) (line column : Z) :
  spec.distinct (List.map fst svc) = true ->
  spec.distinct fo = true ->
  config.Strict cfg = false ->
  validator.validateFieldOrder name (spec.serviceOf name svc line column) fo cfg = []
  <-> fixer.isFieldOrderCorrect svc fo = true.
Proof.
  intros Hsvc Hfo Hlax. apply distinct_NoDup in Hsvc, Hfo.
  assert (Hsame : forall f,
            f ∈ parser.FieldOrder (spec.serviceOf name svc line column)
            <-> golang.map_has f (parser.Config (spec.serviceOf name svc line column))
                = true).
  { intros f. by rewrite map_has_elem. }
  rewrite validateFieldOrder_parts, Hlax, app_nil_r.
  rewrite (order_accepted name (spec.serviceOf name svc line column) fo Hsvc Hfo Hsame).
  rewrite (order_accepted_sorted (spec.serviceOf name svc line column) fo Hsvc Hfo Hsame).
  symmetry. apply isFieldOrderCorrect_sorted.
Qed.

Lemma order_checks_agree_witness :
  spec.distinct (List.map fst (parser.Config scenario.misordered)) = true
  /\ spec.distinct config.DefaultFieldOrder = true
  /\ config.Strict config.NewDefaultConfig = false
  /\ (validator.validateFieldOrder "web"
        (spec.serviceOf "web" (parser.Config scenario.misordered) 1 1)
        config.DefaultFieldOrder config.NewDefaultConfig = []
      <-> fixer.isFieldOrderCorrect (parser.Config scenario.misordered)
            config.DefaultFieldOrder = true).
Proof.
  split; [reflexivity|]. split; [reflexivity|]. split; [reflexivity|].
  apply (order_checks_agree "web" (parser.Config scenario.misordered)
           config.DefaultFieldOrder config.NewDefaultConfig 1 1); reflexivity.
Defined.

(** X7.  Order violations come in pairs.  For a service that declares no
    field twice and has a configuration entry for exactly the fields it
    declares, as the services of [GetServices] do, a canonical order with
    distinct names and strict mode off, the checker never reports exactly one
    order violation: a field that is out of place displaces another one. *)
Theorem order_violations_never_alone (name : string) (service : parser.Service)
    (fo : list string) (cfg : config.Config) :
  spec.distinct (parser.FieldOrder service) = true ->
  (forall f, f ∈ parser.FieldOrder service
             <-> golang.map_has f (parser.Config service) = true) ->
  spec.distinct fo = true ->
  config.Strict cfg = false ->
  length (validator.validateFieldOrder name service fo cfg) <> 1%nat.
Proof.
  intros Hsvc Hsame Hfo Hlax. apply distinct_NoDup in Hsvc, Hfo.
  rewrite validateFieldOrder_parts, Hlax, app_nil_r.
  unfold spec.positionalDiff. rewrite length_map. intros Hone.
  pose proof (actual_expected_perm service fo Hsvc Hfo Hsame) as Hperm.
  pose proof (actual_NoDup service fo Hsvc) as Hnd.
  destruct (List.filter _ _) as [|[x y] [|? ?]] eqn:Hdiff; try done.
  assert (Hxy : x <> y).
  { assert (Hin : In (x, y) [(x, y)]) by (by left).
    rewrite <- Hdiff in Hin. apply filter_In in Hin as [_ Hne].
    by apply negb_true_iff, String.eqb_neq in Hne. }
  apply single_difference in Hdiff as (pre & post & Ha & He).
  - rewrite Ha, He in Hperm. rewrite Ha in Hnd.
    rewrite <- !Permutation_middle in Hperm.
    apply NoDup_app in Hnd as (_ & Hpre & Hpost).
    apply NoDup_cons in Hpost as [Hpost _].
    assert (Hx : x ∈ y :: pre ++ post) by (rewrite <- Hperm; apply elem_of_cons; by left).
    apply elem_of_cons in Hx as [->|Hx]; [done|].
    apply elem_of_app in Hx as [Hx|Hx]; [|done].
    apply (Hpre x Hx). apply elem_of_cons. by left.
  - by apply Permutation_length.
  - intros a. by rewrite String.eqb_refl.
  - intros a b H. by apply negb_false_iff, String.eqb_eq in H.
Qed.

Lemma order_violations_never_alone_witness :
  spec.distinct (parser.FieldOrder scenario.misordered) = true
  /\ spec.distinct config.DefaultFieldOrder = true
  /\ config.Strict config.NewDefaultConfig = false
  /\ length (validator.validateFieldOrder "web" scenario.misordered
               config.DefaultFieldOrder config.NewDefaultConfig)
     <> 1%nat.
Proof.
  split; [reflexivity|]. split; [reflexivity|]. split; [reflexivity|].
  apply (order_violations_never_alone "web" scenario.misordered
           config.DefaultFieldOrder config.NewDefaultConfig); try reflexivity.
  intros f. by rewrite map_has_elem.
Defined.

(** ** The flag and the records of the rewriter *)

Section Flag.

Context (ToLower : string -> string) (cfg : config.Config).

Lemma alphabetizeField_flag (f : string) (v v' : Value) (b : bool) :
  (forall m, v = VMap m -> NoDup (List.map fst m)) ->
  fixer.alphabetizeField ToLower f v cfg = Some (v', b) ->
  b = false <-> v' = v.
Proof.
  intros Hnd H.
  destruct (alphabetizeField_result ToLower cfg f v v' b Hnd H) as (_ & Hsame & Hin).
  split; [done|]. intros ->.
  by injection (alphabetizeField_inOrder ToLower cfg f v (v, b) Hin H).
Qed.

Lemma alphabetizeField_reported (name : string) (service : parser.Service)
    (f : string) (v v' : Value) (b : bool) :
  golang.map_get f (parser.Config service) = Some v ->
  (forall m, v = VMap m -> NoDup (List.map fst m)) ->
  fixer.alphabetizeField ToLower f v cfg = Some (v', b) ->
  b = true
  <-> spec.violationsOf f (validator.validateAlphabetization ToLower name service cfg)
      <> [].
Proof.
  intros Hget Hnd H.
  destruct (alphabetizeField_result ToLower cfg f v v' b Hnd H) as (_ & Hsame & Hin).
  destruct (config.ShouldAlphabetize cfg f) eqn:Hs.
  - rewrite violationsOf_validateAlphabetization
      by (by eapply ShouldAlphabetize_special).
    unfold spec.alphabetizationReport. rewrite Hs, Hget. cbn [andb].
    destruct (spec.inOrder ToLower f (Some v)) eqn:Hord; cbn [negb].
    + assert (Hr : (v', b) = (v, false)).
      { eapply alphabetizeField_inOrder; [|exact H]. by intros _. }
      injection Hr as _ ->. split; done.
    + split; [done|]. intros _. destruct b; [done|].
      rewrite Hsame in Hin by done. rewrite Hin in Hord by done. done.
  - rewrite alphabetizeField_disabled in H by done. injection H as _ <-.
    split; [done|]. intros Hrep. exfalso. apply Hrep.
    destruct (decide (f ∈ spec.specialFields)) as [Hf|Hf].
    + rewrite violationsOf_validateAlphabetization by done.
      unfold spec.alphabetizationReport. by rewrite Hs.
    + by apply violationsOf_other.
Qed.

End Flag.

(** X8.  The flag of [alphabetizeField].  When the function returns, its flag
    is false exactly when it returns the value it was given; the flag is true
    only for a field that the policy alphabetizes; the value it returns holds
    the entries of the given one; and a mapping it returns maps every key to
    what the given mapping maps it to. *)
Theorem alphabetize_flag_iff_changed (ToLower : string -> string) (cfg : config.Config)
    (field : string) (value value' : Value) (changed : bool) :
  (forall m, value = VMap m -> spec.distinct (List.map fst m) = true) ->
  fixer.alphabetizeField ToLower field value cfg = Some (value', changed) ->
  (changed = false <-> value' = value)
  /\ (changed = true -> config.ShouldAlphabetize cfg field = true)
  /\ spec.sameEntries value value'
  /\ (forall m m' : gomap,
        value = VMap m -> value' = VMap m' ->
        forall k : string, golang.map_get k m' = golang.map_get k m).
Proof.
  intros Hnd H.
  assert (Hnd' : forall m, value = VMap m -> NoDup (List.map fst m)).
  { intros m Hm. by apply distinct_NoDup, Hnd. }
  destruct (alphabetizeField_result ToLower cfg field value value' changed Hnd' H)
    as (Hsame & _).
  split; [by eapply alphabetizeField_flag|]. split; [|split; [done|]].
  - intros ->. destruct (config.ShouldAlphabetize cfg field) eqn:Hs; [done|].
    by rewrite alphabetizeField_disabled in H.
  - intros m m' -> -> k. cbn in Hsame. symmetry. apply map_get_perm; [|done].
    by apply Hnd'.
Qed.

Lemma alphabetize_flag_iff_changed_witness :
  fixer.alphabetizeField golang.ToLower_ascii "environment"
    (VList [VString "ZZZ=v1"; VString "AAA=v2"]) config.NewDefaultConfig
  = Some (VList [VString "AAA=v2"; VString "ZZZ=v1"], true)
  /\ (true = false
      <-> VList [VString "AAA=v2"; VString "ZZZ=v1"]
          = VList [VString "ZZZ=v1"; VString "AAA=v2"]).
Proof.
  split; [reflexivity|].
  apply (alphabetize_flag_iff_changed golang.ToLower_ascii config.NewDefaultConfig
           "environment" (VList [VString "ZZZ=v1"; VString "AAA=v2"])
           (VList [VString "AAA=v2"; VString "ZZZ=v1"]) true).
  - intros m Hm. discriminate Hm.
  - reflexivity.
Defined.

Lemma NoDup_keys_filter {A B : Type} (p : A * B -> bool) (l : list (A * B)) :
  NoDup (List.map fst l) -> NoDup (List.map fst (List.filter p l)).
Proof.
  induction l as [|e l IH]; cbn; [done|].
  intros H. apply NoDup_cons in H as [He Hl].
  destruct (p e); cbn; [|by apply IH].
  apply NoDup_cons. split; [|by apply IH].
  intros Hin. apply He.
  apply list_elem_of_In, in_map_iff in Hin as (e' & Heq & Hin).
  apply filter_In in Hin as [Hin _].
  rewrite <- Heq. apply list_elem_of_In, in_map. done.
Qed.

Section Records.

Context (ToLower : string -> string) (name : string) (cfg : config.Config).
Context (svc : gomap) (fo : list string) (line column : Z).

Hypothesis svc_wf : spec.wellFormed svc = true.

Local Abbreviation service := (spec.serviceOf name svc line column).
Local Abbreviation reported :=
  (validator.validateAlphabetization ToLower name service cfg).
Local Abbreviation wasChanged := (spec.wasChanged ToLower cfg).
Local Abbreviation completes := (spec.completes ToLower cfg).

Lemma wasChanged_reported (e : string * Value) :
  e ∈ svc -> completes e = true ->
  wasChanged e = true <-> spec.violationsOf (fst e) reported <> [].
Proof.
  intros He Hc. destruct e as [f v]. unfold spec.wasChanged, spec.completes in *.
  cbn [fst snd] in *.
  destruct (fixer.alphabetizeField ToLower f v cfg) as [[v' b]|] eqn:H; [|done].
  eapply alphabetizeField_reported; [| |exact H].
  - cbn [parser.Config spec.serviceOf]. apply map_get_elem; [|done].
    by apply wellFormed_NoDup.
  - intros m ->. by eapply wellFormed_nested.
Qed.

Lemma reported_field (f : string) :
  spec.violationsOf f reported <> [] -> exists v, (f, v) ∈ svc.
Proof.
  intros H. destruct (golang.map_get f svc) as [v|] eqn:Hget.
  - exists v. by apply map_get_Some_elem.
  - exfalso. apply H. destruct (decide (f ∈ spec.specialFields)) as [Hf|Hf].
    + rewrite violationsOf_validateAlphabetization by done.
      unfold spec.alphabetizationReport. cbn [parser.Config spec.serviceOf].
      rewrite Hget. cbn. by rewrite andb_false_r.
    + by apply violationsOf_other.
Qed.

Lemma changed_special (e : string * Value) :
  wasChanged e = true -> fst e ∈ spec.specialFields.
Proof.
  unfold spec.wasChanged. intros H.
  apply (ShouldAlphabetize_special cfg).
  destruct (config.ShouldAlphabetize cfg (fst e)) eqn:Hs; [done|].
  by rewrite alphabetizeField_disabled in H.
Qed.

Lemma reported_nonempty :
  reported <> [] <-> exists f, spec.violationsOf f reported <> [].
Proof.
  split.
  - destruct reported as [|v vs] eqn:E; [done|]. intros _.
    exists (validator.Field v). unfold spec.violationsOf. cbn.
    by rewrite String.eqb_refl.
  - intros [f Hf] E. apply Hf. by rewrite E.
Qed.

End Records.

(** X9.  The Fix Records and the checker.  When [fixService] returns on a
    well-formed service, it records the alphabetization of a field exactly
    when the checker reports an alphabetization violation for that field;
    every record names one of environment, volumes and labels; [fixed] is true
    exactly when there is a record, which is exactly when the checker reports
    an alphabetization violation; and there are at most three records. *)
Theorem fix_records_match_checker (ToLower : string -> string) (name : string)
    (svc : gomap) (fo : list string) (cfg : config.Config) (line column : Z)
    (r : fixer.FixState) :
  spec.wellFormed svc = true ->
  fixer.fixService ToLower name svc fo cfg = Some r ->
  let reported :=
    validator.validateAlphabetization ToLower name
      (spec.serviceOf name svc line column) cfg in
  (forall f, fixer.alphabetizedMessage name f ∈ fixer.changes r
             <-> spec.violationsOf f reported <> [])
  /\ (forall c, c ∈ fixer.changes r ->
                exists f, c = fixer.alphabetizedMessage name f
                          /\ f ∈ spec.specialFields)
  /\ (fixer.fixed r = true <-> fixer.changes r <> [])
  /\ (fixer.fixed r = true <-> reported <> [])
  /\ (length (fixer.changes r) <= 3)%nat.
Proof.
  intros Hwf Hr reported. pose proof (wellFormed_NoDup svc Hwf) as Hnd.
  rewrite (fixService_spec ToLower name cfg svc fo Hnd) in Hr.
  destruct (forallb _ _) eqn:Hcomp; [|done]. injection Hr as <-.
  cbn [fixer.changes fixer.fixed]. rewrite forallb_forall in Hcomp.
  assert (Hplace : forall e, e ∈ spec.placement fo svc <-> e ∈ svc).
  { intros e. by apply placement_elem. }
  assert (Hkey : forall e, e ∈ svc ->
            spec.wasChanged ToLower cfg e = true
            <-> spec.violationsOf (fst e) reported <> []).
  { intros e He. apply wasChanged_reported; [done|done|].
    by apply Hcomp, list_elem_of_In, Hplace. }
  assert (Hrec : forall f,
            fixer.alphabetizedMessage name f
              ∈ spec.fixRecords ToLower name cfg (spec.placement fo svc)
            <-> exists v, (f, v) ∈ svc /\ spec.wasChanged ToLower cfg (f, v) = true).
  { intros f. unfold spec.fixRecords. rewrite list_elem_of_In, in_map_iff. split.
    - intros ([g v] & Hmsg & Hin). apply alphabetizedMessage_inj in Hmsg.
      cbn in Hmsg. subst g. apply filter_In in Hin as [Hin Hch].
      exists v. split; [|done]. by apply Hplace, list_elem_of_In.
    - intros (v & Hin & Hch). exists (f, v). split; [done|].
      apply filter_In. split; [|done]. by apply list_elem_of_In, Hplace. }
  assert (Hfixed : existsb (spec.wasChanged ToLower cfg) (spec.placement fo svc) = true
                   <-> exists f, spec.violationsOf f reported <> []).
  { rewrite existsb_exists. split.
    - intros (e & He & Hch). exists (fst e). apply Hkey; [|done].
      by apply Hplace, list_elem_of_In.
    - intros (f & Hf). destruct (reported_field ToLower name cfg svc line column f Hf)
        as [v Hv].
      exists (f, v). split; [by apply list_elem_of_In, Hplace|]. by apply Hkey. }
  split; [|split; [|split; [|split]]].
  - intros f. rewrite Hrec. split.
    + intros (v & Hin & Hch). by apply (Hkey (f, v)).
    + intros Hf. destruct (reported_field ToLower name cfg svc line column f Hf)
        as [v Hv].
      exists v. split; [done|]. by apply (Hkey (f, v)).
  - intros c Hc. unfold spec.fixRecords in Hc.
    apply list_elem_of_In, in_map_iff in Hc as (e & <- & He).
    apply filter_In in He as [_ He]. exists (fst e). split; [done|].
    by eapply changed_special.
  - unfold spec.fixRecords. rewrite existsb_exists. split.
    + intros (e & He & Hch) Hnil.
      assert (Hin : In e (List.filter (spec.wasChanged ToLower cfg)
                            (spec.placement fo svc))) by (by apply filter_In).
      apply (in_map (fun e => fixer.alphabetizedMessage name (fst e))) in Hin.
      by rewrite Hnil in Hin.
    + destruct (List.filter _ _) as [|e l] eqn:E; [done|]. intros _.
      exists e. apply filter_In. rewrite E. by left.
  - rewrite Hfixed. symmetry. apply reported_nonempty.
  - unfold spec.fixRecords. rewrite length_map.
    change 3%nat with (length spec.specialFields).
    rewrite <- (length_map fst). apply submseteq_length, NoDup_submseteq.
    + apply NoDup_keys_filter. by rewrite (placement_perm fo svc Hnd).
    + intros f Hf. apply list_elem_of_In, in_map_iff in Hf as (e & <- & He).
      apply filter_In in He as [_ He]. by eapply changed_special.
Qed.

Lemma fix_records_match_checker_witness :
  spec.wellFormed (parser.Config scenario.unsortedEnvironment) = true
  /\ fixer.changes <$>
       fixer.fixService golang.ToLower_ascii "web"
         (parser.Config scenario.unsortedEnvironment)
         config.DefaultFieldOrder config.NewDefaultConfig
     = Some [fixer.alphabetizedMessage "web" "environment"]
  /\ (fixer.alphabetizedMessage "web" "environment"
        ∈ [fixer.alphabetizedMessage "web" "environment"]
      <-> spec.violationsOf "environment"
            (validator.validateAlphabetization golang.ToLower_ascii "web"
               (spec.serviceOf "web" (parser.Config scenario.unsortedEnvironment) 1 1)
               config.NewDefaultConfig)
          <> []).
Proof.
  split; [reflexivity|]. split; [reflexivity|].
  apply (fix_records_match_checker golang.ToLower_ascii "web"
           (parser.Config scenario.unsortedEnvironment)
           config.DefaultFieldOrder config.NewDefaultConfig 1 1
           {| fixer.changes := [fixer.alphabetizedMessage "web" "environment"];
              fixer.fixed := true;
              fixer.ordered :=
                [("container_name", VString "web-server");
                 ("image", VString "nginx:latest");
                 ("environment", VList [VString "AAA=v2"; VString "ZZZ=v1"])];
              fixer.svc :=
                [("container_name", VString "web-server");
                 ("image", VString "nginx:latest");
                 ("environment", VList [VString "AAA=v2"; VString "ZZZ=v1"])] |});
    reflexivity.
Defined.

(** ** [FixBytes] and [Fix] *)

Section FixedFlag.

Context (ToLower : string -> string) (cfg : config.Config).

(** The flag [fixed] is set exactly when a change has been recorded. *)
Local Abbreviation recorded := (fun st : fixer.FixState =>
  fixer.fixed st = true <-> fixer.changes st <> []).

Lemma addField_recorded (name f : string) (v : Value) (st st' : fixer.FixState) :
  recorded st -> fixer.addField ToLower name cfg f v st = Some st' ->
  recorded st' /\ fixer.svc st' = fixer.svc st.
Proof.
  intros Hst. unfold fixer.addField.
  destruct (fixer.alphabetizeField ToLower f v cfg) as [[av [|]]|]; cbn; try done;
    intros [= <-]; cbn; (split; [|done]); [|done].
  split; [|done]. intros _ H. by apply app_eq_nil in H as [_ H].
Qed.

Lemma addOrderedFields_recorded (name : string) (fo : list string) :
  forall st st' : fixer.FixState,
    recorded st -> fixer.addOrderedFields ToLower name cfg fo st = Some st' ->
    recorded st'.
Proof.
  induction fo as [|f fo IH]; intros st st' Hst; cbn.
  - by intros [= <-].
  - destruct (golang.map_get f (fixer.svc st)) as [v|]; [|by apply IH].
    destruct (fixer.addField ToLower name cfg f v st) as [st1|] eqn:E; [|done].
    cbn. apply IH. by destruct (addField_recorded name f v st st1 Hst E).
Qed.

Lemma addRemainingFields_recorded (name : string) (remaining : gomap) :
  forall st st' : fixer.FixState,
    recorded st -> fixer.addRemainingFields ToLower name cfg remaining st = Some st' ->
    recorded st'.
Proof.
  induction remaining as [|[f v] remaining IH]; intros st st' Hst; cbn.
  - by intros [= <-].
  - destruct (fixer.addField ToLower name cfg f v st) as [st1|] eqn:E; [|done].
    cbn. apply IH. by destruct (addField_recorded name f v st st1 Hst E).
Qed.

Lemma fixService_recorded (name : string) (svc : gomap) (fo : list string)
    (r : fixer.FixState) :
  fixer.fixService ToLower name svc fo cfg = Some r -> recorded r.
Proof.
  unfold fixer.fixService.
  destruct (fixer.addOrderedFields _ _ _ _ _) as [st1|] eqn:E1; [|done]. cbn.
  destruct (fixer.addRemainingFields _ _ _ _ _) as [st2|] eqn:E2; [|done]. cbn.
  assert (H2 : recorded st2).
  { eapply addRemainingFields_recorded; [|exact E2].
    eapply addOrderedFields_recorded; [|exact E1]. cbn. done. }
  intros [= <-]. destruct (negb _); cbn; [|done].
  split; [|done]. intros _ H. by apply app_eq_nil in H as [_ H].
Qed.

Lemma fixServices_recorded (entries : gomap) :
  forall (changes0 changes : list string) (fixed0 fixed : bool)
         (services0 services : gomap),
    (fixed0 = true <-> changes0 <> []) ->
    fixer.fixServices ToLower cfg entries (changes0, fixed0, services0)
    = Some (changes, fixed, services) ->
    fixed = true <-> changes <> [].
Proof.
  induction entries as [|[n v] entries IH];
    intros changes0 changes fixed0 fixed services0 services H0; cbn.
  - by intros [= <- <- <-].
  - destruct v; try (by apply IH).
    destruct (fixer.fixService _ _ _ _ _) as [st|] eqn:E; [|done]. cbn.
    destruct (fixer.fixed st) eqn:Hfixed; apply IH; [|done].
    split; [|done]. intros _ H. apply app_eq_nil in H as [_ H].
    by apply (fixService_recorded _ _ _ _ E).
Qed.

End FixedFlag.

Section Writes.

Context (ToLower : string -> string) (World : Type).
Context (os_ReadFile : World -> string -> golang.result string).
Context (os_WriteFile : World -> string -> string -> World * option string).
Context (yaml_Unmarshal : string -> golang.result gomap).
Context (yaml_Marshal : gomap -> golang.result string).

Local Abbreviation Fix :=
  (fixer.Fix ToLower World os_ReadFile os_WriteFile yaml_Unmarshal yaml_Marshal).

(** [Fix] writes nothing unless it reports the file as fixed. *)
Lemma Fix_unfixed (file : parser.ComposeFile) (cfg : config.Config) (w w' : World)
    (r : fixer.FixResult) :
  Fix file cfg w = Some (w', golang.Ok r) ->
  (fixer.Fixed r = false -> w' = w /\ fixer.Changes r = golang.make_slice [])
  /\ (fixer.Fixed r = true ->
      exists (output : string) (changes : list string),
        os_WriteFile w (parser.Path file) output = (w', None)
        /\ fixer.Changes r = golang.make_slice changes /\ changes <> []).
Proof.
  unfold fixer.Fix. cbn zeta.
  destruct (os_ReadFile w (parser.Path file)) as [data|err]; [|done].
  destruct (yaml_Unmarshal data) as [content|err]; [|done].
  destruct (golang.map_get "services" content) as [[| | | | |services]|];
    try (intros [= <- <-]; by split).
  destruct (fixer.fixServices _ _ _ _) as [[[changes fixed] services']|] eqn:E; [|done].
  cbn. apply fixServices_recorded in E; [|done].
  destruct fixed.
  - destruct (yaml_Marshal _) as [output|err]; [|done].
    destruct (os_WriteFile w (parser.Path file) output) as [w1 [err|]] eqn:Hw; [done|].
    intros [= <- <-]. split; [done|]. intros _. exists output, changes.
    split; [done|]. split; [done|]. by apply E.
  - intros [= <- <-]. split; [|done]. intros _. split; [done|]. cbn.
    destruct changes; [done|]. by destruct E as [_ E]; discriminate E.
Qed.

End Writes.

(** X10.  What [FixBytes] returns.  Either the bytes it was given, with no
    list of changes, or bytes that [yaml.Marshal] produced, with a list of
    changes that is not empty; an error is either the one of [yaml.Unmarshal]
    on the input or the one of [yaml.Marshal]. *)
Theorem FixBytes_output (ToLower : string -> string)
    (yaml_Unmarshal : string -> option gomap) (yaml_Marshal : gomap -> option string)
    (data : string) (cfg : config.Config) (res : fixer.FixBytesResult) :
  fixer.FixBytes ToLower yaml_Unmarshal yaml_Marshal data cfg = Some res ->
  match res with
  | fixer.Output out changes =>
      (changes = golang.nil_slice /\ out = data)
      \/ (exists (cs : list string) (content : gomap),
            changes = golang.make_slice cs /\ cs <> []
            /\ yaml_Marshal content = Some out)
  | fixer.Error message =>
      (yaml_Unmarshal data = None /\ message = "failed to parse YAML")
      \/ (exists content : gomap,
            yaml_Marshal content = None
            /\ message = "failed to marshal fixed content")
  end.
Proof.
  unfold fixer.FixBytes.
  destruct (yaml_Unmarshal data) as [content|]; [|intros [= <-]; by left].
  destruct (golang.map_get "services" content) as [[| | | | |services]|];
    try (intros [= <-]; by left).
  destruct (fixer.fixServices _ _ _ _) as [[[changes fixed] services']|] eqn:E; [|done].
  cbn. apply fixServices_recorded in E; [|done].
  destruct fixed; cbn.
  - destruct (yaml_Marshal _) as [out|] eqn:Hm; intros [= <-].
    + right. exists changes. eexists. split; [done|]. split; [by apply E|exact Hm].
    + right. eexists. split; [exact Hm|done].
  - intros [= <-]. by left.
Qed.

Lemma FixBytes_output_witness :
  fixer.FixBytes golang.ToLower_ascii
    (fun data => spec.okValue (example.unmarshal data))
    (fun content => spec.okValue (example.marshal content))
    "unsorted" config.NewDefaultConfig
  = Some (fixer.Output "fixed"
            (golang.make_slice [fixer.alphabetizedMessage "web" "environment"]))
  /\ ((golang.make_slice [fixer.alphabetizedMessage "web" "environment"]
       = golang.nil_slice /\ "fixed" = "unsorted")
      \/ (exists (cs : list string) (content : gomap),
            golang.make_slice [fixer.alphabetizedMessage "web" "environment"]
            = golang.make_slice cs
            /\ cs <> []
            /\ spec.okValue (example.marshal content) = Some "fixed")).
Proof.
  split; [reflexivity|].
  apply (FixBytes_output golang.ToLower_ascii
           (fun data => spec.okValue (example.unmarshal data))
           (fun content => spec.okValue (example.marshal content))
           "unsorted" config.NewDefaultConfig
           (fixer.Output "fixed"
              (golang.make_slice [fixer.alphabetizedMessage "web" "environment"]))).
  reflexivity.
Defined.

(** X11.  [Fix] is [FixBytes] between a read and a write.  On a file whose
    bytes can be read, [Fix] panics when [FixBytes] does on those bytes and
    fails when it fails, without writing; when [FixBytes] returns the bytes
    unchanged, [Fix] writes nothing and returns [Fixed = false] with an
    empty list of changes; otherwise [Fix] writes the bytes of [FixBytes] to
    the path of the file and returns [Fixed = true] with its changes, or the
    error of the write. *)
Theorem Fix_as_FixBytes (ToLower : string -> string) (World : Type)
    (os_ReadFile : World -> string -> golang.result string)
    (os_WriteFile : World -> string -> string -> World * option string)
    (yaml_Unmarshal : string -> golang.result gomap)
    (yaml_Marshal : gomap -> golang.result string)
    (file : parser.ComposeFile) (cfg : config.Config) (w : World) (data : string) :
  os_ReadFile w (parser.Path file) = golang.Ok data ->
  let path := parser.Path file in
  let fixed :=
    fixer.Fix ToLower World os_ReadFile os_WriteFile yaml_Unmarshal yaml_Marshal
      file cfg w in
  match fixer.FixBytes ToLower (fun d => spec.okValue (yaml_Unmarshal d))
          (fun c => spec.okValue (yaml_Marshal c)) data cfg with
  | None => fixed = None
  | Some (fixer.Error _) => exists err : string, fixed = Some (w, golang.Err err)
  | Some (fixer.Output out golang.nil_slice) =>
      out = data
      /\ fixed = Some (w, golang.Ok {| fixer.File := path;
                                      fixer.Fixed := false;
                                      fixer.Changes := golang.make_slice [];
                                      fixer.Error_ := None |})
  | Some (fixer.Output out (golang.make_slice changes)) =>
      changes <> []
      /\ fixed
         = Some (match os_WriteFile w path out with
                 | (w', None) =>
                     (w', golang.Ok {| fixer.File := path;
                                       fixer.Fixed := true;
                                       fixer.Changes := golang.make_slice changes;
                                       fixer.Error_ := None |})
                 | (w', Some err) =>
                     (w', golang.Err
                            (golang.wrap ("failed to write fixed file " +:+ path) err))
                 end)
  end.
Proof.
  intros Hread path fixed. subst path fixed. unfold fixer.Fix, fixer.FixBytes.
  cbn zeta. rewrite Hread.
  destruct (yaml_Unmarshal data) as [content|err]; cbn [spec.okValue]; [|by eexists].
  destruct (golang.map_get "services" content) as [[| | | | |services]|]; try done.
  destruct (fixer.fixServices _ _ _ _) as [[[changes fixed] services']|] eqn:E; [|done].
  cbn. apply fixServices_recorded in E; [|done].
  destruct fixed; cbn.
  - destruct (yaml_Marshal _) as [out|err]; cbn [spec.okValue]; [|by eexists].
    split; [by apply E|]. by destruct (os_WriteFile w (parser.Path file) out) as [w' [err|]].
  - split; [done|]. destruct changes; [done|]. by destruct E as [_ E]; discriminate E.
Qed.

Lemma Fix_as_FixBytes_witness :
  example.readFile example.disk "compose.yml" = golang.Ok "unsorted"
  /\ fixer.Fix golang.ToLower_ascii example.World example.readFile example.writeFile
       example.unmarshal example.marshal (example.composeFile "compose.yml")
       config.NewDefaultConfig example.disk
     = Some ([("compose.yml", "fixed"); ("misordered.yml", "misordered")],
             golang.Ok {| fixer.File := "compose.yml";
                          fixer.Fixed := true;
                          fixer.Changes :=
                            golang.make_slice
                              [fixer.alphabetizedMessage "web" "environment"];
                          fixer.Error_ := None |}).
Proof.
  split; [reflexivity|].
  pose proof (Fix_as_FixBytes golang.ToLower_ascii example.World example.readFile
                example.writeFile example.unmarshal example.marshal
                (example.composeFile "compose.yml") config.NewDefaultConfig
                example.disk "unsorted" eq_refl) as H.
  vm_compute in H. destruct H as [_ H]. vm_compute. exact H.
Defined.

(** X12.  [Fix] on a file that needs no alphabetization.  When the special
    fields of every service are in order, [Fix] returns [Fixed = false] and
    no change and leaves the file system as it is, whatever the order of the
    fields of the services. *)
Theorem Fix_leaves_alphabetized_file (ToLower : string -> string) (World : Type)
    (os_ReadFile : World -> string -> golang.result string)
    (os_WriteFile : World -> string -> string -> World * option string)
    (yaml_Unmarshal : string -> golang.result gomap)
    (yaml_Marshal : gomap -> golang.result string)
    (file : parser.ComposeFile) (cfg : config.Config) (w : World)
    (data : string) (content services : gomap) :
  os_ReadFile w (parser.Path file) = golang.Ok data ->
  yaml_Unmarshal data = golang.Ok content ->
  golang.map_get "services" content = Some (VMap services) ->
  (forall n m, (n, VMap m) ∈ services ->
     spec.wellFormed m = true
     /\ spec.comparableEntries cfg m = true
     /\ validator.validateAlphabetization ToLower n (spec.serviceOf n m 0 0) cfg = []) ->
  fixer.Fix ToLower World os_ReadFile os_WriteFile yaml_Unmarshal yaml_Marshal
    file cfg w
  = Some (w, golang.Ok {| fixer.File := parser.Path file;
                          fixer.Fixed := false;
                          fixer.Changes := golang.make_slice [];
                          fixer.Error_ := None |}).
Proof.
  intros Hread Hparse Hservices Hsettled. unfold fixer.Fix. cbn zeta.
  rewrite Hread, Hparse, Hservices.
  destruct (fixServices_settled ToLower cfg services Hsettled [] false services)
    as [services' ->].
  reflexivity.
Qed.

Lemma Fix_leaves_alphabetized_file_witness :
  validator.validateFieldOrder "web" scenario.misordered
    config.DefaultFieldOrder config.NewDefaultConfig <> []
  /\ fixer.Fix golang.ToLower_ascii example.World example.readFile example.writeFile
       example.unmarshal example.marshal (example.composeFile "misordered.yml")
       config.NewDefaultConfig example.disk
     = Some (example.disk,
             golang.Ok {| fixer.File := "misordered.yml";
                          fixer.Fixed := false;
                          fixer.Changes := golang.make_slice [];
                          fixer.Error_ := None |}).
Proof.
  split; [discriminate|].
  apply (Fix_leaves_alphabetized_file golang.ToLower_ascii example.World
           example.readFile example.writeFile example.unmarshal example.marshal
           (example.composeFile "misordered.yml") config.NewDefaultConfig example.disk
           "misordered" (example.services (parser.Config scenario.misordered))
           [("web", VMap (parser.Config scenario.misordered))]);
    try reflexivity.
  intros n m Hin. apply list_elem_of_singleton in Hin. injection Hin as -> ->.
  repeat split; reflexivity.
Defined.

Section Changes.

Context (ToLower : string -> string) (cfg : config.Config).

(** A change that records the alphabetization of a special field of one of
    the services of [services]. *)
Local Abbreviation recordOf := (fun (services : gomap) (c : string) =>
  exists (n : string) (m : gomap) (f : string),
    (n, VMap m) ∈ services
    /\ golang.map_has f m = true
    /\ f ∈ spec.specialFields
    /\ c = fixer.alphabetizedMessage n f).

Lemma alphabetized_not_reordered (n n' f : string) :
  fixer.alphabetizedMessage n f <> fixer.reorderedMessage n'.
Proof.
  unfold fixer.alphabetizedMessage, fixer.reorderedMessage. intros H.
  change ("': reordered fields") with ("': reordered field" +:+ "s") in H.
  rewrite <- !append_assoc in H.
  by apply append_last_inj in H as [_ H].
Qed.

Lemma fixService_records (name : string) (svc : gomap) (fo : list string)
    (r : fixer.FixState) :
  NoDup (List.map fst svc) ->
  fixer.fixService ToLower name svc fo cfg = Some r ->
  forall c, c ∈ fixer.changes r ->
    exists f, golang.map_has f svc = true /\ f ∈ spec.specialFields
              /\ c = fixer.alphabetizedMessage name f.
Proof.
  intros Hnd Hr c Hc. rewrite (fixService_spec ToLower name cfg svc fo Hnd) in Hr.
  destruct (forallb _ _); [|done]. injection Hr as <-. cbn [fixer.changes] in Hc.
  unfold spec.fixRecords in Hc.
  apply list_elem_of_In, in_map_iff in Hc as ([f v] & <- & He).
  apply filter_In in He as [Hin He]. exists f. cbn [fst]. split; [|split; [|done]].
  - apply map_has_elem. apply list_elem_of_In in Hin. apply placement_elem in Hin; [|done].
    apply list_elem_of_In, (in_map fst) in Hin. by apply list_elem_of_In.
  - by apply (changed_special ToLower cfg (f, v)).
Qed.

Lemma fixServices_records (services : gomap) (entries : gomap) :
  (forall n m, (n, VMap m) ∈ entries ->
     (n, VMap m) ∈ services /\ NoDup (List.map fst m)) ->
  forall (changes0 changes : list string) (fixed0 fixed : bool)
         (services0 services' : gomap),
    Forall (recordOf services) changes0 ->
    fixer.fixServices ToLower cfg entries (changes0, fixed0, services0)
    = Some (changes, fixed, services') ->
    Forall (recordOf services) changes.
Proof.
  induction entries as [|[n v] entries IH];
    intros Hentries changes0 changes fixed0 fixed services0 services' H0; cbn.
  - by intros [= <- <- <-].
  - assert (Hrest : forall n m, (n, VMap m) ∈ entries ->
              (n, VMap m) ∈ services /\ NoDup (List.map fst m)).
    { intros n' m' Hin. apply Hentries, elem_of_cons. by right. }
    destruct v as [| | | | |m]; try (by apply IH).
    destruct (Hentries n m) as [Hin Hnd]; [apply elem_of_cons; by left|].
    destruct (fixer.fixService _ _ _ _ _) as [st|] eqn:E; [|done]. cbn.
    destruct (fixer.fixed st); apply IH; try done.
    apply Forall_app. split; [done|]. apply Forall_forall. intros c Hc.
    destruct (fixService_records n m _ st Hnd E c Hc) as (f & Hf & Hs & ->).
    by exists n, m, f.
Qed.

End Changes.

(** X23.  The changes that [FixBytes] reports.  When the maps of the services
    have distinct keys, every change that [FixBytes] returns records the
    alphabetization of environment, volumes or labels in a service of the file
    that has the field: no change reports that fields were reordered. *)
Theorem changes_are_alphabetizations (ToLower : string -> string)
    (yaml_Unmarshal : string -> option gomap) (yaml_Marshal : gomap -> option string)
    (data : string) (cfg : config.Config) (content services : gomap)
    (out : string) (changes : list string) :
  yaml_Unmarshal data = Some content ->
  golang.map_get "services" content = Some (VMap services) ->
  (forall n m, (n, VMap m) ∈ services -> spec.distinct (List.map fst m) = true) ->
  fixer.FixBytes ToLower yaml_Unmarshal yaml_Marshal data cfg
  = Some (fixer.Output out (golang.make_slice changes)) ->
  forall c : string,
    c ∈ changes ->
    (exists (n : string) (m : gomap) (f : string),
        (n, VMap m) ∈ services
        /\ golang.map_has f m = true
        /\ f ∈ spec.specialFields
        /\ c = fixer.alphabetizedMessage n f)
    /\ forall n : string, c <> fixer.reorderedMessage n.
Proof.
  intros Hparse Hservices Hdistinct. unfold fixer.FixBytes.
  rewrite Hparse, Hservices.
  destruct (fixer.fixServices _ _ _ _) as [[[changes' fixed] services']|] eqn:E; [|done].
  cbn. apply (fixServices_records ToLower cfg services) in E; [| |done].
  - destruct fixed; cbn; [|done].
    destruct (yaml_Marshal _); [|done]. intros [= <- <-] c Hc.
    rewrite Forall_forall in E. destruct (E c Hc) as (n & m & f & Hin & Hf & Hs & ->).
    split; [by exists n, m, f|]. intros n'. apply alphabetized_not_reordered.
  - intros n m Hin. split; [done|]. by apply distinct_NoDup, (Hdistinct n).
Qed.

Lemma changes_are_alphabetizations_witness :
  fixer.FixBytes golang.ToLower_ascii
    (fun data => spec.okValue (example.unmarshal data))
    (fun content => spec.okValue (example.marshal content))
    "unsorted" config.NewDefaultConfig
  = Some (fixer.Output "fixed"
            (golang.make_slice [fixer.alphabetizedMessage "web" "environment"]))
  /\ forall c : string,
       c ∈ [fixer.alphabetizedMessage "web" "environment"] ->
       forall n : string, c <> fixer.reorderedMessage n.
Proof.
  split; [reflexivity|]. intros c Hc.
  apply (changes_are_alphabetizations golang.ToLower_ascii
           (fun data => spec.okValue (example.unmarshal data))
           (fun content => spec.okValue (example.marshal content))
           "unsorted" config.NewDefaultConfig
           (example.services (parser.Config scenario.unsortedEnvironment))
           [("web", VMap (parser.Config scenario.unsortedEnvironment))]
           "fixed" [fixer.alphabetizedMessage "web" "environment"]);
    try reflexivity; [|exact Hc].
  intros n m Hin. apply list_elem_of_singleton in Hin. injection Hin as -> ->.
  reflexivity.
Defined.

(** ** The services of a file *)

Section Parsed.

Context (Node_String : parser.Node -> string).
Context (yaml_Unmarshal : string -> option Value).

Local Abbreviation decoded := (spec.decoded Node_String yaml_Unmarshal).

Lemma map_set_keys {V : Type} (k k' : string) (v : V) (m : list (string * V)) :
  k' ∈ List.map fst (golang.map_set k v m) <-> k' = k \/ k' ∈ List.map fst m.
Proof.
  induction m as [|[g x] m IH]; cbn.
  - rewrite list_elem_of_singleton, elem_of_nil. tauto.
  - destruct (String.eqb g k) eqn:E; cbn; rewrite !elem_of_cons.
    + apply String.eqb_eq in E as ->. tauto.
    + rewrite IH. tauto.
Qed.

Lemma map_set_length {V : Type} (k : string) (v : V) (m : list (string * V)) :
  (length (golang.map_set k v m) <= S (length m))%nat.
Proof.
  induction m as [|[g x] m IH]; cbn; [lia|].
  destruct (String.eqb g k); cbn; lia.
Qed.

Lemma map_get_snoc {V : Type} (k f : string) (v : V) (l : list (string * V)) :
  golang.map_get f (rev (l ++ [(k, v)]))
  = if String.eqb k f then Some v else golang.map_get f (rev l).
Proof. by rewrite rev_app_distr. Qed.

(** The loop of [decodeFields] from any point on. *)
Lemma decodeFields_loop (fields : list (parser.Key * parser.Node)) :
  forall (done : list (parser.Key * parser.Node)) (fo : list string) (cfg : gomap),
    fo = List.map fst (spec.named done) ->
    NoDup (List.map fst cfg) ->
    (forall f, golang.map_get f cfg
               = decoded <$> golang.map_get f (rev (spec.named done))) ->
    (length cfg <= length fo)%nat ->
    exists (fo' : list string) (cfg' : gomap),
      fold_left
        (fun '(fieldOrder, svcConfig) '(k, v) =>
           let fieldName := parser.Key_String k in
           (fieldOrder ++ [fieldName],
            match yaml_Unmarshal (Node_String v) with
            | Some value => golang.map_set fieldName value svcConfig
            | None => golang.map_set fieldName (VString (Node_String v)) svcConfig
            end))
        fields (fo, cfg)
      = (fo', cfg')
      /\ fo' = List.map fst (spec.named (done ++ fields))
      /\ NoDup (List.map fst cfg')
      /\ (forall f, golang.map_get f cfg'
                    = decoded <$> golang.map_get f (rev (spec.named (done ++ fields))))
      /\ (length cfg' <= length fo')%nat.
Proof.
  induction fields as [|[k v] fields IH]; intros done fo cfg Hfo Hnd Hget Hlen.
  - exists fo, cfg. by rewrite app_nil_r.
  - cbn [fold_left].
    replace (done ++ (k, v) :: fields) with ((done ++ [(k, v)]) ++ fields)
      by (by rewrite <- app_assoc).
    set (value := match yaml_Unmarshal (Node_String v) with
                  | Some value => value
                  | None => VString (Node_String v)
                  end).
    replace (match yaml_Unmarshal (Node_String v) with
             | Some value0 => golang.map_set (parser.Key_String k) value0 cfg
             | None => golang.map_set (parser.Key_String k) (VString (Node_String v)) cfg
             end)
      with (golang.map_set (parser.Key_String k) value cfg)
      by (unfold value; by destruct (yaml_Unmarshal (Node_String v))).
    apply IH.
    + unfold spec.named. rewrite !map_app. cbn. by rewrite Hfo.
    + by apply map_set_NoDup.
    + intros f. rewrite map_get_set. unfold spec.named. rewrite map_app. cbn [List.map].
      rewrite map_get_snoc. destruct (String.eqb (parser.Key_String k) f); [done|].
      apply Hget.
    + rewrite length_app. cbn. pose proof (map_set_length (parser.Key_String k) value cfg).
      lia.
Qed.

Lemma decodeFields_spec (fields : list (parser.Key * parser.Node)) :
  exists (fo : list string) (cfg : gomap),
    parser.decodeFields Node_String yaml_Unmarshal fields = (fo, cfg)
    /\ fo = List.map fst (spec.named fields)
    /\ NoDup (List.map fst cfg)
    /\ (forall f, golang.map_get f cfg
                  = decoded <$> golang.map_get f (rev (spec.named fields)))
    /\ (length cfg <= length fo)%nat.
Proof.
  unfold parser.decodeFields.
  destruct (decodeFields_loop fields [] [] []) as (fo & cfg & H); try done.
  - constructor.
  - by exists fo, cfg.
Qed.

(** What holds of every service that [GetServices] returns. *)
Local Abbreviation parsed := (fun (name : string) (s : parser.Service) =>
  parser.Name s = name
  /\ exists fields : list (parser.Key * parser.Node),
       parser.FieldOrder s = List.map fst (spec.named fields)
       /\ NoDup (List.map fst (parser.Config s))
       /\ (forall f, golang.map_get f (parser.Config s)
                     = decoded <$> golang.map_get f (rev (spec.named fields)))
       /\ (length (parser.Config s) <= length (parser.FieldOrder s))%nat).

Lemma extractServices_parsed (nodes : list (parser.Key * parser.Node)) :
  forall acc : gmap string parser.Service,
    map_Forall parsed acc ->
    map_Forall parsed (parser.extractServices Node_String yaml_Unmarshal nodes acc).
Proof.
  unfold parser.extractServices.
  induction nodes as [|[k [svcMapping|text]] nodes IH]; intros acc Hacc; cbn [fold_left].
  - done.
  - apply IH.
    destruct (decodeFields_spec svcMapping) as (fo & cfg & -> & Hfo & Hnd & Hget & Hlen).
    apply map_Forall_insert_2; [|done]. cbn. split; [done|]. by exists svcMapping.
  - by apply IH.
Qed.

Lemma GetServicesOf_parsed (docs : list (option parser.DocumentNode)) :
  map_Forall parsed (parser.GetServicesOf Node_String yaml_Unmarshal docs).
Proof.
  unfold parser.GetServicesOf.
  assert (H : forall acc, map_Forall parsed acc ->
            map_Forall parsed
              (fold_left (parser.addDocument Node_String yaml_Unmarshal) docs acc)).
  { induction docs as [|doc docs IH]; intros acc Hacc; cbn [fold_left]; [done|].
    apply IH. unfold parser.addDocument.
    destruct doc as [[[[mapping|text]|]]|]; cbn [parser.Body]; try done.
    destruct (parser.findServicesNode mapping); [|done].
    by apply extractServices_parsed. }
  apply H, map_Forall_empty.
Qed.

End Parsed.

(** X13.  The services that [GetServices] returns.  A service is stored under
    its own name; its configuration has distinct keys, which are the names of
    its field order; the configuration is no longer than the field order; the
    value of a field is what [yaml.Unmarshal] decodes for the last field of
    that name, or the text of the node when the decoding fails; and the two
    sequences that the order check compares hold the same fields. *)
Theorem GetServices_fields (Node_String : parser.Node -> string)
    (yaml_Unmarshal : string -> option Value)
    (docs : list (option parser.DocumentNode)) (name : string) (s : parser.Service) :
  parser.GetServicesOf Node_String yaml_Unmarshal docs !! name = Some s ->
  parser.Name s = name
  /\ spec.distinct (List.map fst (parser.Config s)) = true
  /\ (forall f, f ∈ parser.FieldOrder s <-> golang.map_has f (parser.Config s) = true)
  /\ (length (parser.Config s) <= length (parser.FieldOrder s))%nat
  /\ (exists fields : list (parser.Key * parser.Node),
        parser.FieldOrder s = List.map fst (spec.named fields)
        /\ forall f, golang.map_get f (parser.Config s)
                     = spec.decoded Node_String yaml_Unmarshal
                         <$> golang.map_get f (rev (spec.named fields)))
  /\ (forall (fo : list string) (f : string),
        f ∈ spec.actualFields s fo <-> f ∈ spec.expectedFields s fo).
Proof.
  intros Hs.
  destruct (GetServicesOf_parsed Node_String yaml_Unmarshal docs name s Hs)
    as (Hname & fields & Hfo & Hnd & Hget & Hlen).
  assert (Hsame : forall f, f ∈ parser.FieldOrder s
                            <-> golang.map_has f (parser.Config s) = true).
  { intros f. unfold golang.map_has. rewrite Hget, Hfo.
    destruct (golang.map_get f (rev (spec.named fields))) as [v|] eqn:E; cbn.
    - split; [done|]. intros _. apply map_get_Some_elem in E.
      apply list_elem_of_In, in_rev, (in_map fst) in E. by apply list_elem_of_In.
    - split; [|done]. intros Hin. apply map_get_None in E. exfalso. apply E.
      rewrite map_rev. by apply list_elem_of_In, in_rev, list_elem_of_In;
        rewrite rev_involutive. }
  split; [done|]. split; [by apply distinct_NoDup|]. split; [done|].
  split; [done|]. split; [by exists fields|].
  intros fo f. unfold spec.actualFields, spec.expectedFields.
  rewrite !list_elem_of_In, !filter_In, <- !list_elem_of_In.
  rewrite isInFieldOrder_elem, Hsame. tauto.
Qed.

Lemma GetServices_fields_witness :
  exists s : parser.Service,
    parser.GetServicesOf example.nodeString example.unmarshalValue
      [scenario.firstDocument] !! "web" = Some s
    /\ parser.Name s = "web".
Proof.
  assert (H : parser.GetServicesOf example.nodeString example.unmarshalValue
                [scenario.firstDocument] !! "web"
              = Some {| parser.Name := "web";
                        parser.Config := [("image", VString "nginx")];
                        parser.FieldOrder := ["image"];
                        parser.Line := 2;
                        parser.Column := 3 |}).
  { unfold parser.GetServicesOf. cbn. apply lookup_insert_eq. }
  eexists. split; [exact H|].
  apply (GetServices_fields example.nodeString example.unmarshalValue
           [scenario.firstDocument] "web" _ H).
Defined.

Section Names.

Context (Node_String : parser.Node -> string).
Context (yaml_Unmarshal : string -> option Value).

Local Abbreviation extractServices := (parser.extractServices Node_String yaml_Unmarshal).
Local Abbreviation GetServicesOf := (parser.GetServicesOf Node_String yaml_Unmarshal).

Lemma findServicesNode_first (values : list (parser.Key * parser.Node))
    (servicesNode : list (parser.Key * parser.Node)) :
  parser.findServicesNode values = Some servicesNode
  <-> exists (i : nat) (k : parser.Key),
        values !! i = Some (k, parser.MappingNode servicesNode)
        /\ parser.Key_String k = "services"
        /\ forall (j : nat) (k' : parser.Key) (m : list (parser.Key * parser.Node)),
             (j < i)%nat -> values !! j = Some (k', parser.MappingNode m) ->
             parser.Key_String k' <> "services".
Proof.
  induction values as [|[k v] values IH]; cbn.
  - split; [done|]. by intros (i & k & Hi & _).
  - assert (Hskip : (parser.Key_String k <> "services"
                     \/ forall m, v <> parser.MappingNode m) ->
             parser.findServicesNode values = Some servicesNode
             <-> exists (i : nat) (k0 : parser.Key),
                   ((k, v) :: values) !! i = Some (k0, parser.MappingNode servicesNode)
                   /\ parser.Key_String k0 = "services"
                   /\ forall (j : nat) (k' : parser.Key)
                             (m : list (parser.Key * parser.Node)),
                        (j < i)%nat ->
                        ((k, v) :: values) !! j = Some (k', parser.MappingNode m) ->
                        parser.Key_String k' <> "services").
    { intros Hno. rewrite IH. split.
      - intros (i & k0 & Hi & Hk0 & Hfirst). exists (S i), k0. repeat split; try done.
        intros [|j] k' m Hj Hlook; cbn in Hlook.
        + injection Hlook as -> ->. destruct Hno as [Hno|Hno]; [done|].
          by specialize (Hno m).
        + apply (Hfirst j k' m); [lia|done].
      - intros ([|i] & k0 & Hi & Hk0 & Hfirst); cbn in Hi.
        + injection Hi as -> ->. destruct Hno as [Hno|Hno]; [done|].
          by specialize (Hno servicesNode).
        + exists i, k0. repeat split; try done.
          intros j k' m Hj Hlook. apply (Hfirst (S j) k' m); [lia|done]. }
    destruct (String.eqb (parser.Key_String k) "services") eqn:E.
    + apply String.eqb_eq in E. destruct v as [m|text].
      * split.
        -- intros [= ->]. exists 0%nat, k. repeat split; try done. intros j ? ? Hj. lia.
        -- intros ([|i] & k0 & Hi & Hk0 & Hfirst); cbn in Hi.
           ++ by injection Hi as -> ->.
           ++ by specialize (Hfirst 0%nat k m ltac:(lia) eq_refl).
      * apply Hskip. by right.
    + apply String.eqb_neq in E. apply Hskip. by left.
Qed.

Lemma extractServices_cons (node : parser.Key * parser.Node)
    (nodes : list (parser.Key * parser.Node)) (acc : gmap string parser.Service) :
  extractServices (node :: nodes) acc = extractServices nodes (extractServices [node] acc).
Proof. reflexivity. Qed.

Lemma extractServices_names (nodes : list (parser.Key * parser.Node)) (name : string) :
  is_Some (extractServices nodes ∅ !! name)
  <-> exists (k : parser.Key) (fields : list (parser.Key * parser.Node)),
        (k, parser.MappingNode fields) ∈ nodes /\ parser.Key_String k = name.
Proof.
  induction nodes as [|[k v] nodes IH].
  - cbn. rewrite lookup_empty. split; [by intros [? ?]|].
    intros (k & fields & Hin & _). by apply elem_of_nil in Hin.
  - rewrite extractServices_cons, extractServices_union.
    rewrite lookup_union_is_Some, IH. unfold parser.extractServices at 1.
    cbn [fold_left]. destruct v as [fields|text].
    + destruct (parser.decodeFields _ _ fields) as [fo cfg].
      rewrite lookup_insert_is_Some, lookup_empty. split.
      * intros [(k' & fields' & Hin & Hk')|[Hk|[_ [? ?]]]]; [| |done].
        -- exists k', fields'. split; [apply elem_of_cons; by right|done].
        -- exists k, fields. split; [apply elem_of_cons; by left|done].
      * intros (k' & fields' & Hin & Hk'). apply elem_of_cons in Hin as [Heq|Hin].
        -- injection Heq as -> ->. right. by left.
        -- left. by exists k', fields'.
    + rewrite lookup_empty. split.
      * intros [(k' & fields' & Hin & Hk')|[? ?]]; [|done].
        exists k', fields'. split; [apply elem_of_cons; by right|done].
      * intros (k' & fields' & Hin & Hk'). apply elem_of_cons in Hin as [Heq|Hin];
          [done|]. left. by exists k', fields'.
Qed.

End Names.

(** X14.  The names of the services of a file.  [GetServices] has a service
    of a given name exactly when, in some document whose body is a mapping,
    the first [services] key whose value is a mapping holds a key of that
    name whose value is a mapping. *)
Theorem GetServices_names (Node_String : parser.Node -> string)
    (yaml_Unmarshal : string -> option Value)
    (docs : list (option parser.DocumentNode)) (name : string) :
  is_Some (parser.GetServicesOf Node_String yaml_Unmarshal docs !! name)
  <-> exists (doc : parser.DocumentNode)
             (mapping servicesNode fields : list (parser.Key * parser.Node))
             (k : parser.Key),
        Some doc ∈ docs
        /\ parser.Body doc = Some (parser.MappingNode mapping)
        /\ parser.findServicesNode mapping = Some servicesNode
        /\ (k, parser.MappingNode fields) ∈ servicesNode
        /\ parser.Key_String k = name.
Proof.
  induction docs as [|doc docs IH] using rev_ind.
  - cbn. rewrite lookup_empty. split; [by intros [? ?]|].
    intros (doc & ? & ? & ? & ? & Hin & _). by apply elem_of_nil in Hin.
  - rewrite GetServicesOf_app, lookup_union_is_Some, IH. clear IH.
    unfold parser.GetServicesOf at 1. cbn [fold_left]. unfold parser.addDocument.
    split.
    + intros [H|(d & mapping & servicesNode & fields & k & Hin & H)].
      * destruct doc as [[[[mapping|text]|]]|]; cbn [parser.Body] in H;
          try (rewrite lookup_empty in H; by destruct H).
        destruct (parser.findServicesNode mapping) as [servicesNode|] eqn:E;
          [|rewrite lookup_empty in H; by destruct H].
        apply extractServices_names in H as (k & fields & Hin & Hk).
        exists {| parser.Body := Some (parser.MappingNode mapping) |},
               mapping, servicesNode, fields, k.
        split; [|done]. apply elem_of_app. right. by apply list_elem_of_singleton.
      * exists d, mapping, servicesNode, fields, k. split; [|done].
        apply elem_of_app. by left.
    + intros (d & mapping & servicesNode & fields & k & Hin & Hbody & Hfind & Hk & Hname).
      apply elem_of_app in Hin as [Hin|Hin].
      * right. by exists d, mapping, servicesNode, fields, k.
      * left. apply list_elem_of_singleton in Hin as <-. rewrite Hbody, Hfind.
        apply extractServices_names. by exists k, fields.
Qed.

(** ** The report of [Validate] and its printing *)

Section Reports.

Context (ToLower : string -> string).
Context (Node_String : parser.Node -> string).
Context (yaml_Unmarshal : string -> option Value).
Context (cfg : config.Config).

Local Abbreviation Validate := (validator.Validate ToLower Node_String yaml_Unmarshal).
Local Abbreviation GetServices := (parser.GetServices Node_String yaml_Unmarshal).

Lemma Validate_loop (l : list (string * parser.Service)) :
  forall (r : validator.ValidationResult) (vs : list validator.Violation),
    validator.Violations r = golang.make_slice vs ->
    let r' :=
      fold_left
        (fun result '(serviceName, service) =>
           let fieldOrder := config.GetFieldOrder cfg serviceName in
           let orderViolations :=
             validator.validateFieldOrder serviceName service fieldOrder cfg in
           let result :=
             {| validator.File := validator.File result;
                validator.Valid := validator.Valid result;
                validator.Violations :=
                  golang.append (validator.Violations result) orderViolations |} in
           let alphaViolations :=
             validator.validateAlphabetization ToLower serviceName service cfg in
           {| validator.File := validator.File result;
              validator.Valid := validator.Valid result;
              validator.Violations :=
                golang.append (validator.Violations result) alphaViolations |})
        l r in
    validator.Violations r'
    = golang.make_slice (vs ++ flat_map (spec.serviceViolations ToLower cfg) l)
    /\ validator.File r' = validator.File r
    /\ validator.Valid r' = validator.Valid r.
Proof.
  induction l as [|[n s] l IH]; intros r vs Hvs; cbn [fold_left flat_map].
  - by rewrite app_nil_r.
  - cbn zeta.
    match goal with
    | |- context [fold_left _ l ?r1] =>
        destruct (IH r1 (vs ++ spec.serviceViolations ToLower cfg (n, s)))
          as (H1 & H2 & H3)
    end.
    + cbn. rewrite Hvs. cbn. unfold spec.serviceViolations. cbn [fst snd].
      by rewrite app_assoc.
    + cbn zeta in H1, H2, H3. rewrite H1, H2, H3. by rewrite <- app_assoc.
Qed.

Lemma Validate_violations (file : parser.ComposeFile) :
  validator.Violations (Validate file cfg)
  = golang.make_slice (flat_map (spec.serviceViolations ToLower cfg)
                         (map_to_list (GetServices file)))
  /\ validator.File (Validate file cfg) = parser.Path file
  /\ validator.Valid (Validate file cfg)
     = negb (0 <? Z.of_nat (length (flat_map (spec.serviceViolations ToLower cfg)
                                      (map_to_list (GetServices file))))).
Proof.
  unfold validator.Validate. cbn zeta.
  match goal with
  | |- context [fold_left ?f ?l ?r] =>
      destruct (Validate_loop l r [] eq_refl) as (H1 & H2 & H3);
      cbn zeta in H1, H2, H3;
      set (r' := fold_left f l r) in *; clearbody r'
  end.
  cbn in H1, H2, H3. rewrite H1. cbn [golang.len].
  destruct (0 <? _); cbn; rewrite ?H1, ?H2, ?H3; done.
Qed.

Lemma serviceViolations_elem (n : string) (s : parser.Service) (v : validator.Violation) :
  v ∈ spec.serviceViolations ToLower cfg (n, s) ->
  validator.Service v = n
  /\ ((validator.Type_ v = "order"
       /\ (validator.Line v = parser.Line s \/ validator.Line v = 0))
      \/ (validator.Type_ v = "alphabetization"
          /\ validator.Field v ∈ spec.specialFields
          /\ validator.Line v = parser.Line s)).
Proof.
  unfold spec.serviceViolations. cbn [fst snd].
  rewrite elem_of_app, validateFieldOrder_parts, validateAlphabetization_parts.
  rewrite !elem_of_app. intros [[H|H]|[H|[H|H]]].
  - unfold spec.positionalDiff in H.
    apply list_elem_of_In, in_map_iff in H as ([a e] & <- & _). cbn. auto.
  - destruct (config.Strict cfg); [|by apply elem_of_nil in H].
    apply list_elem_of_In, in_map_iff in H as (f & <- & _). cbn. auto.
  - unfold spec.alphabetizationReport in H.
    destruct (_ && _); [|by apply elem_of_nil in H].
    apply list_elem_of_singleton in H as ->. cbn. split; [done|]. right.
    split; [done|]. split; [|done]. unfold spec.specialFields.
    rewrite !elem_of_cons. auto.
  - unfold spec.alphabetizationReport in H.
    destruct (_ && _); [|by apply elem_of_nil in H].
    apply list_elem_of_singleton in H as ->. cbn. split; [done|]. right.
    split; [done|]. split; [|done]. unfold spec.specialFields.
    rewrite !elem_of_cons. auto.
  - unfold spec.alphabetizationReport in H.
    destruct (_ && _); [|by apply elem_of_nil in H].
    apply list_elem_of_singleton in H as ->. cbn. split; [done|]. right.
    split; [done|]. split; [|done]. unfold spec.specialFields.
    rewrite !elem_of_cons. auto.
Qed.

Lemma Validate_elem (file : parser.ComposeFile) (v : validator.Violation) :
  v ∈ golang.elems (validator.Violations (Validate file cfg)) ->
  exists s : parser.Service,
    GetServices file !! validator.Service v = Some s
    /\ ((validator.Type_ v = "order"
         /\ (validator.Line v = parser.Line s \/ validator.Line v = 0))
        \/ (validator.Type_ v = "alphabetization"
            /\ validator.Field v ∈ spec.specialFields
            /\ validator.Line v = parser.Line s)).
Proof.
  destruct (Validate_violations file) as (Hvs & _). rewrite Hvs. cbn [golang.elems].
  rewrite list_elem_of_In, in_flat_map. intros ([n s] & Hin & Hv).
  apply list_elem_of_In, elem_of_map_to_list in Hin.
  apply list_elem_of_In, serviceViolations_elem in Hv as [Hn Hv].
  exists s. by rewrite Hn.
Qed.

End Reports.

(** X15.  The report of [Validate].  The result names the path of the file;
    its violations are, service after service, the order violations followed
    by the alphabetization violations; every violation names a service of the
    file and is of type order, with the line of the service or, in strict
    mode, line 0, or of type alphabetization, for one of the three special
    fields and with the line of the service; a file without services is
    valid. *)
Theorem Validate_reports (ToLower : string -> string)
    (Node_String : parser.Node -> string) (yaml_Unmarshal : string -> option Value)
    (file : parser.ComposeFile) (cfg : config.Config) :
  let result := validator.Validate ToLower Node_String yaml_Unmarshal file cfg in
  let services := parser.GetServices Node_String yaml_Unmarshal file in
  validator.File result = parser.Path file
  /\ validator.Violations result
     = golang.make_slice (flat_map (spec.serviceViolations ToLower cfg)
                            (map_to_list services))
  /\ (forall v, v ∈ golang.elems (validator.Violations result) ->
        exists s : parser.Service,
          services !! validator.Service v = Some s
          /\ ((validator.Type_ v = "order"
               /\ (validator.Line v = parser.Line s \/ validator.Line v = 0))
              \/ (validator.Type_ v = "alphabetization"
                  /\ validator.Field v ∈ spec.specialFields
                  /\ validator.Line v = parser.Line s)))
  /\ (services = ∅ -> validator.Valid result = true).
Proof.
  cbn zeta.
  destruct (Validate_violations ToLower Node_String yaml_Unmarshal cfg file)
    as (Hvs & Hfile & Hvalid).
  split; [done|]. split; [done|]. split.
  - apply Validate_elem.
  - intros Hempty. rewrite Hvalid, Hempty, map_to_list_empty. done.
Qed.

(** X16.  [printViolation].  For every violation that [Validate] returns the
    function prints the line that names the service and gives the message,
    followed by at most three lines; it prints nothing for a violation of
    another type; and it prints the first line only for a violation of strict
    mode. *)
Theorem violations_are_printed (ToLower : string -> string)
    (Node_String : parser.Node -> string) (yaml_Unmarshal : string -> option Value)
    (file : parser.ComposeFile) (cfg : config.Config) :
  (forall v,
      v ∈ golang.elems (validator.Violations
                          (validator.Validate ToLower Node_String yaml_Unmarshal file cfg)) ->
      exists rest : list main.Event,
        main.printViolation v cfg = spec.headerLine v :: rest
        /\ (length rest <= 3)%nat)
  /\ (forall v : validator.Violation,
        validator.Type_ v <> "order" -> validator.Type_ v <> "alphabetization" ->
        main.printViolation v cfg = [])
  /\ (forall name field : string,
        main.printViolation (validator.strictViolation name field) cfg
        = [spec.headerLine (validator.strictViolation name field)]).
Proof.
  split; [|split].
  - intros v Hv.
    destruct (Validate_elem ToLower Node_String yaml_Unmarshal cfg file v Hv)
      as (s & _ & [[Htype _]|[Htype _]]);
      unfold main.printViolation, main.printLine; rewrite Htype; cbn [String.eqb].
    + eexists. split; [reflexivity|].
      destruct (negb _ && negb _), (0 <? validator.Line v); cbn; lia.
    + change ("alphabetization" =? "order")%string with false. cbn iota.
      change ("alphabetization" =? "alphabetization")%string with true. cbn iota.
      eexists. split; [reflexivity|]. destruct (0 <? validator.Line v); cbn; lia.
  - intros v Ho Ha. unfold main.printViolation.
    apply String.eqb_neq in Ho, Ha. by rewrite Ho, Ha.
  - reflexivity.
Qed.

(** ** Exclusion patterns and the configuration file *)

Section Excluded.

Context (Separator : ascii).
Context (filepath_Match : string -> string -> bool).
Context (filepath_Base : string -> string).

Local Abbreviation isExcludedBy :=
  (config.isExcludedBy Separator filepath_Match filepath_Base).
Local Abbreviation matchesComponent := (config.matchesComponent filepath_Match).

Lemma matchesComponent_exists (suffix : string) (components : list string) :
  matchesComponent suffix components = true
  <-> exists component, component ∈ components
                        /\ filepath_Match suffix component = true.
Proof.
  induction components as [|c components IH]; cbn.
  - split; [done|]. intros (c & Hc & _). by apply elem_of_nil in Hc.
  - destruct (filepath_Match suffix c) eqn:E.
    + split; [|done]. intros _. exists c. split; [apply elem_of_cons; by left|done].
    + rewrite IH. split.
      * intros (c' & Hc' & Hm). exists c'. split; [apply elem_of_cons; by right|done].
      * intros (c' & Hc' & Hm). apply elem_of_cons in Hc' as [->|Hc']; [congruence|].
        by exists c'.
Qed.

Lemma isExcludedBy_cons (pattern : string) (patterns : list string) (path : string) :
  isExcludedBy (pattern :: patterns) path
  = isExcludedBy [pattern] path || isExcludedBy patterns path.
Proof.
  cbn. destruct (golang.strings_HasPrefix pattern "**/").
  - by destruct (config.matchesComponent _ _ _).
  - destruct (filepath_Match pattern path); [done|].
    by destruct (filepath_Match pattern (filepath_Base path)).
Qed.

Lemma isExcludedBy_exists (patterns : list string) (path : string) :
  isExcludedBy patterns path = true
  <-> exists pattern, pattern ∈ patterns /\ isExcludedBy [pattern] path = true.
Proof.
  induction patterns as [|p patterns IH].
  - split; [done|]. intros (p & Hp & _). by apply elem_of_nil in Hp.
  - rewrite isExcludedBy_cons, orb_true_iff, IH. split.
    + intros [H|(p' & Hp' & H)].
      * exists p. split; [apply elem_of_cons; by left|done].
      * exists p'. split; [apply elem_of_cons; by right|done].
    + intros (p' & Hp' & H). apply elem_of_cons in Hp' as [->|Hp']; [by left|].
      right. by exists p'.
Qed.

End Excluded.

(** X17.  [IsExcluded].  A path is excluded exactly when one pattern of the
    list excludes it.  A pattern that starts with [**/] excludes a path
    exactly when its rest, without a trailing [/**] and a trailing [/],
    matches one of the components of the path; any other pattern excludes a
    path when it matches the path or its base name.  The default
    configuration excludes nothing. *)
Theorem IsExcluded_by_some_pattern (Separator : ascii)
    (filepath_Match : string -> string -> bool) (filepath_Base : string -> string)
    (c : config.Config) (path : string) :
  let excludedBy := config.isExcludedBy Separator filepath_Match filepath_Base in
  (config.IsExcluded Separator filepath_Match filepath_Base c path = true
   <-> exists pattern, pattern ∈ config.Exclude c /\ excludedBy [pattern] path = true)
  /\ (forall rest : string,
        excludedBy ["**/" +:+ rest] path = true
        <-> exists component,
              component ∈ golang.strings_Split path Separator
              /\ filepath_Match
                   (golang.strings_TrimSuffix (golang.strings_TrimSuffix rest "/**") "/")
                   component = true)
  /\ (forall pattern : string,
        golang.strings_HasPrefix pattern "**/" = false ->
        excludedBy [pattern] path
        = filepath_Match pattern path || filepath_Match pattern (filepath_Base path))
  /\ config.IsExcluded Separator filepath_Match filepath_Base
       config.NewDefaultConfig path = false.
Proof.
  cbn zeta. split; [apply isExcludedBy_exists|]. split; [|split; [|done]].
  - intros rest. cbn [config.isExcludedBy].
    rewrite (strings_HasPrefix_append "**/" rest).
    unfold config.recursiveSuffix. cbn zeta.
    rewrite recursive_rest.
    rewrite <- matchesComponent_exists.
    by destruct (config.matchesComponent _ _ _).
  - intros pattern Hp. cbn [config.isExcludedBy]. rewrite Hp.
    destruct (filepath_Match pattern path); [done|].
    by destruct (filepath_Match pattern (filepath_Base path)).
Qed.

(** X18.  The spellings of a recursive pattern.  For a name that ends neither
    in [/] nor in [/**], the patterns [**/name], [**/name/] and [**/name/**]
    are matched against the components of a path as [name], so that they
    exclude the same paths. *)
Theorem recursive_pattern_spellings (Separator : ascii)
    (filepath_Match : string -> string -> bool) (filepath_Base : string -> string)
    (dir path : string) :
  golang.strings_HasSuffix dir "/" = false ->
  golang.strings_HasSuffix dir "/**" = false ->
  let excludedBy := config.isExcludedBy Separator filepath_Match filepath_Base in
  config.recursiveSuffix ("**/" +:+ dir) = dir
  /\ config.recursiveSuffix ("**/" +:+ dir +:+ "/") = dir
  /\ config.recursiveSuffix ("**/" +:+ dir +:+ "/**") = dir
  /\ excludedBy ["**/" +:+ dir +:+ "/"] path = excludedBy ["**/" +:+ dir] path
  /\ excludedBy ["**/" +:+ dir +:+ "/**"] path = excludedBy ["**/" +:+ dir] path.
Proof.
  intros Hslash Hstars. cbn zeta.
  assert (Hrec : forall rest, config.recursiveSuffix ("**/" +:+ rest)
                 = golang.strings_TrimSuffix (golang.strings_TrimSuffix rest "/**") "/").
  { intros rest. unfold config.recursiveSuffix. cbn zeta.
    by rewrite recursive_rest. }
  assert (H1 : config.recursiveSuffix ("**/" +:+ dir) = dir).
  { rewrite Hrec. unfold golang.strings_TrimSuffix. by rewrite Hstars, Hslash. }
  assert (H2 : config.recursiveSuffix ("**/" +:+ dir +:+ "/") = dir).
  { rewrite Hrec.
    assert (Hno : golang.strings_HasSuffix (dir +:+ "/") "/**" = false).
    { destruct (golang.strings_HasSuffix (dir +:+ "/") "/**") eqn:E; [|done].
      apply strings_HasSuffix_inv in E as [a Ha].
      change "/**" with ("/*" +:+ "*") in Ha. rewrite <- append_assoc in Ha.
      by apply append_last_inj in Ha as [_ Ha]. }
    unfold golang.strings_TrimSuffix at 2. rewrite Hno.
    apply strings_TrimSuffix_append. }
  assert (H3 : config.recursiveSuffix ("**/" +:+ dir +:+ "/**") = dir).
  { rewrite Hrec, strings_TrimSuffix_append.
    unfold golang.strings_TrimSuffix. by rewrite Hslash. }
  split; [done|]. split; [done|]. split; [done|].
  cbn [config.isExcludedBy].
  rewrite (strings_HasPrefix_append "**/" dir).
  rewrite (strings_HasPrefix_append "**/" (dir +:+ "/")).
  rewrite (strings_HasPrefix_append "**/" (dir +:+ "/**")).
  by rewrite H1, H2, H3.
Qed.

Lemma recursive_pattern_spellings_witness :
  golang.strings_HasSuffix "test" "/" = false
  /\ golang.strings_HasSuffix "test" "/**" = false
  /\ config.recursiveSuffix "**/test/**" = "test".
Proof.
  split; [reflexivity|]. split; [reflexivity|].
  apply (recursive_pattern_spellings "/"%char (fun _ _ => false) (fun p => p)
           "test" "compose.yml"); reflexivity.
Defined.

Lemma GetFieldOrder_nonempty (c : config.Config) (name : string) :
  config.FieldOrder c <> [] -> config.GetFieldOrder c name <> [].
Proof.
  intros Hc. unfold config.GetFieldOrder.
  destruct (config.ServiceOverrides c !! name) as [o|]; [|done].
  destruct (config.Override_FieldOrder o); cbn; done.
Qed.

(** X19.  [LoadFromFile].  A configuration that the function returns has a
    field order that is not empty, the default one when the file gives none,
    so that [GetFieldOrder] is not empty for any service; the other settings
    are those that [yaml.Unmarshal] decodes over the default
    configuration. *)
Theorem LoadFromFile_field_order (World : Type)
    (os_ReadFile : World -> string -> golang.result string)
    (yaml_Unmarshal : string -> config.Config -> golang.result config.Config)
    (w : World) (path : string) (cfg : config.Config) :
  config.LoadFromFile World os_ReadFile yaml_Unmarshal w path = golang.Ok cfg ->
  config.FieldOrder cfg <> []
  /\ (forall name : string, config.GetFieldOrder cfg name <> [])
  /\ exists (data : string) (decoded : config.Config),
       os_ReadFile w path = golang.Ok data
       /\ yaml_Unmarshal data config.NewDefaultConfig = golang.Ok decoded
       /\ config.FieldOrder cfg
          = (if decide (config.FieldOrder decoded = [])
             then config.DefaultFieldOrder
             else config.FieldOrder decoded)
       /\ config.Alphabetization cfg = config.Alphabetization decoded
       /\ config.Strict cfg = config.Strict decoded
       /\ config.Exclude cfg = config.Exclude decoded
       /\ config.ServiceOverrides cfg = config.ServiceOverrides decoded.
Proof.
  unfold config.LoadFromFile.
  destruct (os_ReadFile w path) as [data|err] eqn:Hread; [|done].
  destruct (yaml_Unmarshal data config.NewDefaultConfig) as [decoded|err] eqn:Hdec;
    [|done].
  cbn zeta. intros [= <-].
  destruct (Z.of_nat (length (config.FieldOrder decoded)) =? 0) eqn:Hlen.
  - apply Z.eqb_eq in Hlen.
    assert (E : config.FieldOrder decoded = [])
      by (destruct (config.FieldOrder decoded); [done|cbn in Hlen; lia]).
    cbn. split; [done|]. split; [intros name; by apply GetFieldOrder_nonempty|].
    exists data, decoded. by rewrite E.
  - apply Z.eqb_neq in Hlen.
    assert (E : config.FieldOrder decoded <> [])
      by (intros E; rewrite E in Hlen; cbn in Hlen; lia).
    split; [done|]. split; [intros name; by apply GetFieldOrder_nonempty|].
    exists data, decoded. by destruct (decide (config.FieldOrder decoded = [])).
Qed.

Lemma LoadFromFile_field_order_witness :
  config.LoadFromFile example.World example.readFile example.unmarshalConfig
    example.disk "compose.yml"
  = golang.Ok scenario.strictConfig
  /\ config.FieldOrder scenario.strictConfig <> [].
Proof.
  split; [reflexivity|].
  apply (LoadFromFile_field_order example.World example.readFile
           example.unmarshalConfig example.disk "compose.yml" scenario.strictConfig).
  reflexivity.
Defined.

Section Climb.

Context (World : Type).
Context (os_Stat : World -> string -> bool).
Context (os_ReadFile : World -> string -> golang.result string).
Context (filepath_Join : string -> string -> string).
Context (filepath_Dir : string -> string).
Context (yaml_Unmarshal : string -> config.Config -> golang.result config.Config).

Local Abbreviation findConfigFile := (config.findConfigFile World os_Stat filepath_Join).
Local Abbreviation loadFrom :=
  (config.loadFrom World os_Stat os_ReadFile filepath_Join filepath_Dir yaml_Unmarshal).

Lemma findConfigFile_first (w : World) (dir : string) (names : list string)
    (path : string) :
  findConfigFile w dir names = Some path
  <-> exists (i : nat) (name : string),
        names !! i = Some name
        /\ path = filepath_Join dir name
        /\ os_Stat w path = true
        /\ forall (j : nat) (earlier : string),
             (j < i)%nat -> names !! j = Some earlier ->
             os_Stat w (filepath_Join dir earlier) = false.
Proof.
  induction names as [|name names IH]; cbn.
  - split; [done|]. by intros (i & name & Hi & _).
  - destruct (os_Stat w (filepath_Join dir name)) eqn:E.
    + split.
      * intros [= <-]. exists 0%nat, name. repeat split; try done. intros j ? Hj. lia.
      * intros ([|i] & name' & Hi & -> & Hstat & Hfirst); cbn in Hi.
        -- by injection Hi as ->.
        -- specialize (Hfirst 0%nat name ltac:(lia) eq_refl). congruence.
    + rewrite IH. split.
      * intros (i & name' & Hi & -> & Hstat & Hfirst).
        exists (S i), name'. repeat split; try done.
        intros [|j] earlier Hj Hearlier; cbn in Hearlier.
        -- by injection Hearlier as <-.
        -- apply (Hfirst j); [lia|done].
      * intros ([|i] & name' & Hi & -> & Hstat & Hfirst); cbn in Hi.
        -- injection Hi as ->. congruence.
        -- exists i, name'. repeat split; try done.
           intros j earlier Hj Hearlier. apply (Hfirst (S j)); [lia|done].
Qed.

Lemma loadFrom_climb (w : World) (n : nat) :
  forall (fuel : nat) (dir : string),
    (n <= fuel)%nat ->
    (forall k, (k < n)%nat ->
       findConfigFile w (Nat.iter k filepath_Dir dir) config.configFileNames = None
       /\ filepath_Dir (Nat.iter k filepath_Dir dir) <> Nat.iter k filepath_Dir dir) ->
    loadFrom fuel w dir = loadFrom (fuel - n) w (Nat.iter n filepath_Dir dir).
Proof.
  induction n as [|n IH]; intros fuel dir Hfuel Hclimb.
  - by rewrite Nat.sub_0_r.
  - destruct fuel as [|fuel]; [lia|].
    destruct (Hclimb 0%nat ltac:(lia)) as [Hnone Hparent].
    change (Nat.iter 0 filepath_Dir dir) with dir in Hnone, Hparent.
    cbn [config.loadFrom]. rewrite Hnone.
    apply String.eqb_neq in Hparent. rewrite Hparent.
    rewrite Nat.iter_succ_r. cbn [Nat.sub]. apply IH; [lia|].
    intros k Hk. rewrite <- !Nat.iter_succ_r. apply Hclimb. lia.
Qed.

End Climb.

(** X20.  [Load].  When none of the first [n] directories on the way from the
    working directory to the root holds a configuration file, [Load] loads the
    file it finds in the next directory, and returns the default
    configuration when that directory holds none and is its own parent;
    [n + 1] directories of fuel are enough.  In a directory the file found is
    the first of the four names, in their order, that exists. *)
Theorem Load_nearest_directory (World : Type)
    (os_Getwd : World -> golang.result string)
    (os_Stat : World -> string -> bool)
    (os_ReadFile : World -> string -> golang.result string)
    (filepath_Join : string -> string -> string)
    (filepath_Dir : string -> string)
    (yaml_Unmarshal : string -> config.Config -> golang.result config.Config)
    (fuel n : nat) (w : World) (dir : string) :
  let Load :=
    config.Load World os_Getwd os_Stat os_ReadFile filepath_Join filepath_Dir
      yaml_Unmarshal in
  let found := fun d : string =>
    config.findConfigFile World os_Stat filepath_Join w d config.configFileNames in
  os_Getwd w = golang.Ok dir ->
  (n < fuel)%nat ->
  (forall k, (k < n)%nat ->
     found (Nat.iter k filepath_Dir dir) = None
     /\ filepath_Dir (Nat.iter k filepath_Dir dir) <> Nat.iter k filepath_Dir dir) ->
  (forall path : string,
      found (Nat.iter n filepath_Dir dir) = Some path ->
      Load fuel w
      = Some (config.LoadFromFile World os_ReadFile yaml_Unmarshal w path))
  /\ (found (Nat.iter n filepath_Dir dir) = None ->
      filepath_Dir (Nat.iter n filepath_Dir dir) = Nat.iter n filepath_Dir dir ->
      Load fuel w = Some (golang.Ok config.NewDefaultConfig))
  /\ (forall d path : string,
        found d = Some path
        <-> exists (i : nat) (name : string),
              config.configFileNames !! i = Some name
              /\ path = filepath_Join d name
              /\ os_Stat w path = true
              /\ forall (j : nat) (earlier : string),
                   (j < i)%nat -> config.configFileNames !! j = Some earlier ->
                   os_Stat w (filepath_Join d earlier) = false).
Proof.
  intros Load found Hwd Hfuel Hclimb. subst Load found.
  unfold config.Load. rewrite Hwd.
  rewrite (loadFrom_climb World os_Stat os_ReadFile filepath_Join filepath_Dir
             yaml_Unmarshal w n fuel dir) by (done || lia).
  destruct (fuel - n)%nat as [|m] eqn:E; [lia|]. cbn [config.loadFrom].
  split; [|split].
  - by intros path ->.
  - intros -> Htop. by rewrite Htop, String.eqb_refl.
  - intros d path. apply findConfigFile_first.
Qed.

Lemma Load_nearest_directory_witness :
  example.getwd example.configDisk = golang.Ok "/srv/app"
  /\ config.Load example.World example.getwd example.stat example.readFile
       example.joinPath example.parentDir example.unmarshalConfig 3 example.configDisk
     = Some (golang.Ok scenario.strictConfig).
Proof.
  split; [reflexivity|].
  destruct (Load_nearest_directory example.World example.getwd example.stat
              example.readFile example.joinPath example.parentDir
              example.unmarshalConfig 3 1 example.configDisk "/srv/app")
    as (Hfound & _).
  - reflexivity.
  - lia.
  - intros [|k] Hk; [|lia]. split; [reflexivity|discriminate].
  - rewrite (Hfound "/srv/compose-validator.yml"); reflexivity.
Defined.

(** ** The command *)

Section Process.

Context (ToLower : string -> string).
Context (World : Type).
Context (os_ReadFile : World -> string -> golang.result string).
Context (os_WriteFile : World -> string -> string -> World * option string).
Context (filepath_Glob : World -> string -> golang.result (list string)).
Context (filepath_Base : string -> string).
Context (filepath_Match : string -> string -> bool).
Context (Separator : ascii).
Context (Node_String : parser.Node -> string).
Context (yaml_ParseBytes : string -> golang.result (list (option parser.DocumentNode))).
Context (yaml_Unmarshal : string -> option Value).
Context (yaml_Unmarshal_map : string -> golang.result gomap).
Context (yaml_Marshal : gomap -> golang.result string).

Local Abbreviation ParseFile := (parser.ParseFile World os_ReadFile yaml_ParseBytes).
Local Abbreviation Validate := (validator.Validate ToLower Node_String yaml_Unmarshal).
Local Abbreviation IsExcluded :=
  (config.IsExcluded Separator filepath_Match filepath_Base).
Local Abbreviation processFile :=
  (main.processFile ToLower World os_ReadFile os_WriteFile Node_String yaml_ParseBytes
     yaml_Unmarshal yaml_Unmarshal_map yaml_Marshal).
Local Abbreviation processFiles :=
  (main.processFiles ToLower World os_ReadFile os_WriteFile filepath_Base filepath_Match
     Separator Node_String yaml_ParseBytes yaml_Unmarshal yaml_Unmarshal_map
     yaml_Marshal).
Local Abbreviation processPatterns :=
  (main.processPatterns ToLower World os_ReadFile os_WriteFile filepath_Glob
     filepath_Base filepath_Match Separator Node_String yaml_ParseBytes yaml_Unmarshal
     yaml_Unmarshal_map yaml_Marshal).

(** [processFile] without the flag [--fix]. *)
Lemma processFile_check (flags : main.Flags) (path : string) (cfg : config.Config)
    (w : World) (out : list main.Event) :
  main.fixMode flags = false ->
  exists printed : list main.Event,
    processFile flags path cfg w out
    = Some (w, out ++ printed,
            match ParseFile w path with
            | golang.Ok file => golang.Ok (Validate file cfg)
            | golang.Err err => golang.Err err
            end).
Proof.
  intros Hcheck. unfold main.processFile. rewrite Hcheck. cbn [andb].
  destruct (ParseFile w path) as [file|err]; [|exists []; by rewrite app_nil_r].
  cbn zeta. destruct (negb _).
  - by eexists.
  - destruct (main.verbose flags); [by eexists|]. exists []. by rewrite app_nil_r.
Qed.

(** Without [--fix] the file system stays as it is, so that the loops of
    [run] can be described from the file system [w] they start in. *)
Context (flags : main.Flags) (cfg : config.Config) (w : World).

Hypothesis check_mode : main.fixMode flags = false.

Local Abbreviation accepted := (fun file : string =>
  IsExcluded cfg file
  || match ParseFile w file with
     | golang.Ok f => validator.Valid (Validate f cfg)
     | golang.Err _ => false
     end).

Local Abbreviation patternAccepted := (fun pattern : string =>
  match filepath_Glob w pattern with
  | golang.Ok files => forallb accepted files
  | golang.Err _ => false
  end).

Lemma processFiles_check (files : list string) :
  forall (out : list main.Event) (valid : bool) (total : Z),
    exists (printed : list main.Event) (total' : Z),
      processFiles flags cfg files
        {| main.world := w; main.stdout := out; main.allValid := valid;
           main.totalViolations := total |}
      = Some {| main.world := w;
                main.stdout := out ++ printed;
                main.allValid := valid && forallb accepted files;
                main.totalViolations := total' |}.
Proof.
  induction files as [|file files IH]; intros out valid total;
    cbn [main.processFiles forallb main.world main.stdout main.allValid
         main.totalViolations].
  - exists [], total. by rewrite app_nil_r, andb_true_r.
  - destruct (IsExcluded cfg file) eqn:Hex; cbn [orb].
    + destruct (main.verbose flags).
      * destruct (IH (out ++ [main.Colored main.Yellow
                                ("Skipping excluded file: " +:+ file)]) valid total)
          as (printed & total' & ->).
        rewrite <- app_assoc. by eexists _, _.
      * destruct (IH out valid total) as (printed & total' & ->). by eexists _, _.
    + destruct (processFile_check flags file cfg w out check_mode) as (printed1 & ->).
      cbn. destruct (ParseFile w file) as [f|err].
      * destruct (validator.Valid (Validate f cfg)); cbn [negb].
        -- destruct (IH (out ++ printed1) valid total) as (printed & total' & ->).
           rewrite <- app_assoc. by eexists _, _.
        -- match goal with
           | |- context [main.Build_RunState w (out ++ printed1) false ?t] =>
               destruct (IH (out ++ printed1) false t) as (printed & total' & ->)
           end.
           rewrite <- app_assoc, andb_false_r. by eexists _, _.
      * match goal with
        | |- context [main.Build_RunState w ?o false total] =>
            destruct (IH o false total) as (printed & total' & ->)
        end.
        rewrite <- !app_assoc, andb_false_r. by eexists _, _.
Qed.

Lemma processPatterns_check (patterns : list string) :
  forall (out : list main.Event) (valid : bool) (total : Z),
    exists (printed : list main.Event) (valid' : bool) (total' : Z)
           (err : option string),
      processPatterns flags cfg patterns
        {| main.world := w; main.stdout := out; main.allValid := valid;
           main.totalViolations := total |}
      = Some ({| main.world := w;
                 main.stdout := out ++ printed;
                 main.allValid := valid';
                 main.totalViolations := total' |}, err)
      /\ ((err = None /\ valid' = true)
          <-> valid = true /\ forallb patternAccepted patterns = true).
Proof.
  induction patterns as [|pattern patterns IH]; intros out valid total;
    cbn [main.processPatterns forallb main.world main.stdout main.allValid
         main.totalViolations].
  - exists [], valid, total, None. rewrite app_nil_r. split; [done|]. tauto.
  - destruct (filepath_Glob w pattern) as [files|err].
    + destruct (Z.of_nat (length files) =? 0) eqn:Hlen.
      * apply Z.eqb_eq in Hlen. destruct files; [|cbn in Hlen; lia].
        match goal with
        | |- context [main.Build_RunState w ?o valid total] =>
            destruct (IH o valid total) as (printed & valid' & total' & err & -> & Hiff)
        end.
        eexists _, valid', total', err. rewrite <- app_assoc. split; [done|].
        cbn [forallb andb]. exact Hiff.
      * destruct (processFiles_check files out valid total) as (printed1 & total1 & ->).
        cbn.
        match goal with
        | |- context [main.Build_RunState w ?o ?v total1] =>
            destruct (IH o v total1) as (printed & valid' & total' & err & -> & Hiff)
        end.
        eexists _, valid', total', err. rewrite <- app_assoc. split; [done|].
        rewrite Hiff, !andb_true_iff. tauto.
    + eexists [], valid, total, (Some _).
      rewrite app_nil_r. split; [done|].
      cbn [andb]. split; [by intros [? _]|by intros [_ ?]].
Qed.

End Process.

(** X21.  [processFile].  The result that the function returns is the
    validation of the file as the function leaves it; without [--fix] the
    function leaves the file system as it is; it only adds to the output,
    and with [--fix] it adds nothing, or the line that reports a valid file,
    or the line that reports the fix followed by the changes: it prints no
    violation. *)
Theorem processFile_result (ToLower : string -> string) (World : Type)
    (os_ReadFile : World -> string -> golang.result string)
    (os_WriteFile : World -> string -> string -> World * option string)
    (Node_String : parser.Node -> string)
    (yaml_ParseBytes : string -> golang.result (list (option parser.DocumentNode)))
    (yaml_Unmarshal : string -> option Value)
    (yaml_Unmarshal_map : string -> golang.result gomap)
    (yaml_Marshal : gomap -> golang.result string)
    (flags : main.Flags) (path : string) (cfg : config.Config)
    (w w' : World) (out out' : list main.Event)
    (result : validator.ValidationResult) :
  main.processFile ToLower World os_ReadFile os_WriteFile Node_String yaml_ParseBytes
    yaml_Unmarshal yaml_Unmarshal_map yaml_Marshal flags path cfg w out
  = Some (w', out', golang.Ok result) ->
  (exists file : parser.ComposeFile,
      parser.ParseFile World os_ReadFile yaml_ParseBytes w' path = golang.Ok file
      /\ result = validator.Validate ToLower Node_String yaml_Unmarshal file cfg)
  /\ (main.fixMode flags = false -> w' = w)
  /\ (exists printed : list main.Event,
        out' = out ++ printed
        /\ (main.fixMode flags = true ->
            printed = []
            \/ printed = [main.Colored main.Green ("✓ " +:+ path +:+ ": valid")]
            \/ exists changes : list string,
                 changes <> []
                 /\ printed
                    = main.Colored main.Green ("✓ Fixed " +:+ path +:+ ":")
                      :: List.map (fun change =>
                                     main.Print ("  - " +:+ change +:+ golang.newline))
                                  changes)).
Proof.
  unfold main.processFile.
  destruct (parser.ParseFile World os_ReadFile yaml_ParseBytes w path)
    as [file|err] eqn:Hparse; [|done].
  cbn zeta.
  destruct (main.fixMode flags) eqn:Hfix; cbn [andb].
  - destruct (negb (validator.Valid
                      (validator.Validate ToLower Node_String yaml_Unmarshal file cfg)))
      eqn:Hvalid.
    + destruct (fixer.Fix ToLower World os_ReadFile os_WriteFile yaml_Unmarshal_map
                  yaml_Marshal file cfg w) as [[w1 [r|err]]|] eqn:Hfixed; cbn; [|done|done].
      destruct (Fix_unfixed ToLower World os_ReadFile os_WriteFile yaml_Unmarshal_map
                  yaml_Marshal file cfg w w1 r Hfixed) as [Hno Hyes].
      destruct (fixer.Fixed r) eqn:Hr.
      * destruct (parser.ParseFile World os_ReadFile yaml_ParseBytes w1 path)
          as [file'|err] eqn:Hparse'; [|done].
        intros [= <- <- <-]. split; [by exists file'|]. split; [done|].
        destruct (Hyes eq_refl) as (output & changes & _ & Hchanges & Hne).
        eexists. split; [done|]. intros _. right. right.
        exists changes. split; [done|]. by rewrite Hchanges.
      * intros [= <- <- <-]. destruct (Hno eq_refl) as [-> _].
        split; [by exists file|]. split; [done|]. exists [].
        split; [by rewrite app_nil_r|]. by left.
    + destruct (main.verbose flags).
      * intros [= <- <- <-]. split; [by exists file|]. split; [done|].
        eexists. split; [done|]. intros _. right. by left.
      * intros [= <- <- <-]. split; [by exists file|]. split; [done|]. exists [].
        split; [by rewrite app_nil_r|]. by left.
  - destruct (negb (validator.Valid
                      (validator.Validate ToLower Node_String yaml_Unmarshal file cfg)))
      eqn:Hvalid.
    + intros [= <- <- <-]. split; [by exists file|]. split; [done|].
      eexists. split; [done|]. done.
    + destruct (main.verbose flags).
      * intros [= <- <- <-]. split; [by exists file|]. split; [done|].
        eexists. split; [done|]. done.
      * intros [= <- <- <-]. split; [by exists file|]. split; [done|]. exists [].
        split; [by rewrite app_nil_r|]. done.
Qed.

Lemma processFile_result_witness :
  exists (w' : example.World) (out' : list main.Event)
         (result : validator.ValidationResult),
    main.processFile golang.ToLower_ascii example.World example.readFile
      example.writeFile example.nodeString example.parseBytes example.unmarshalValue
      example.unmarshal example.marshal example.checkFlags "compose.yml"
      config.NewDefaultConfig example.disk []
    = Some (w', out', golang.Ok result)
    /\ (main.fixMode example.checkFlags = false -> w' = example.disk).
Proof.
  eexists _, _, _. split; [reflexivity|].
  apply (processFile_result golang.ToLower_ascii example.World example.readFile
           example.writeFile example.nodeString example.parseBytes
           example.unmarshalValue example.unmarshal example.marshal
           example.checkFlags "compose.yml" config.NewDefaultConfig
           example.disk _ [] _ _ eq_refl).
Defined.

(** X22.  The exit status without [--fix].  Once the configuration is loaded,
    [run] returns, leaves the file system as it is and only adds to the
    output; [main] ends with status 0 or 1, and with status 0 exactly when
    [filepath.Glob] accepts every pattern and every file it finds is excluded
    or can be parsed and is valid. *)
Theorem check_mode_exit_status (ToLower : string -> string) (World : Type)
    (os_Getwd : World -> golang.result string)
    (os_Stat : World -> string -> bool)
    (os_ReadFile : World -> string -> golang.result string)
    (os_WriteFile : World -> string -> string -> World * option string)
    (filepath_Glob : World -> string -> golang.result (list string))
    (filepath_Join : string -> string -> string)
    (filepath_Dir filepath_Base : string -> string)
    (filepath_Match : string -> string -> bool)
    (Separator : ascii)
    (Node_String : parser.Node -> string)
    (yaml_ParseBytes : string -> golang.result (list (option parser.DocumentNode)))
    (yaml_Unmarshal : string -> option Value)
    (yaml_Unmarshal_map : string -> golang.result gomap)
    (yaml_Unmarshal_config : string -> config.Config -> golang.result config.Config)
    (yaml_Marshal : gomap -> golang.result string)
    (flags : main.Flags) (args : list string) (fuel : nat) (w : World)
    (out : list main.Event) (cfg : config.Config) :
  main.fixMode flags = false ->
  args <> [] ->
  (if negb (String.eqb (main.configPath flags) "")
   then Some (config.LoadFromFile World os_ReadFile yaml_Unmarshal_config w
                (main.configPath flags))
   else config.Load World os_Getwd os_Stat os_ReadFile filepath_Join filepath_Dir
          yaml_Unmarshal_config fuel w)
  = Some (golang.Ok cfg) ->
  exists (printed : list main.Event) (o : main.Outcome),
    main.run ToLower World os_Getwd os_Stat os_ReadFile os_WriteFile filepath_Glob
      filepath_Join filepath_Dir filepath_Base filepath_Match Separator Node_String
      yaml_ParseBytes yaml_Unmarshal yaml_Unmarshal_map yaml_Unmarshal_config
      yaml_Marshal flags args fuel w out
    = Some (w, out ++ printed, o)
    /\ (main.exitStatus o = 0 \/ main.exitStatus o = 1)
    /\ (main.exitStatus o = 0
        <-> forall pattern : string,
              pattern ∈ args ->
              exists files : list string,
                filepath_Glob w pattern = golang.Ok files
                /\ forall file : string,
                     file ∈ files ->
                     config.IsExcluded Separator filepath_Match filepath_Base cfg file
                     = true
                     \/ exists f : parser.ComposeFile,
                          parser.ParseFile World os_ReadFile yaml_ParseBytes w file
                          = golang.Ok f
                          /\ validator.Valid
                               (validator.Validate ToLower Node_String yaml_Unmarshal
                                  f cfg)
                             = true).
Proof.
  intros Hcheck Hargs Hload. unfold main.run.
  destruct args as [|arg args]; [done|].
  replace (Z.of_nat (length (arg :: args)) =? 0) with false
    by (symmetry; apply Z.eqb_neq; cbn; lia).
  rewrite Hload. cbn [mbind option_bind].
  match goal with
  | |- context [main.Build_RunState w ?o true 0] =>
      destruct (processPatterns_check ToLower World os_ReadFile os_WriteFile
                  filepath_Glob filepath_Base filepath_Match Separator Node_String
                  yaml_ParseBytes yaml_Unmarshal yaml_Unmarshal_map yaml_Marshal
                  flags cfg w Hcheck (arg :: args) o true 0)
        as (printed & valid & total & err & -> & Hiff)
  end.
  cbn [mbind option_bind main.world main.stdout main.allValid main.totalViolations].
  assert (Hspec : forallb
            (fun pattern =>
               match filepath_Glob w pattern with
               | golang.Ok files =>
                   forallb
                     (fun file =>
                        config.IsExcluded Separator filepath_Match filepath_Base cfg file
                        || match parser.ParseFile World os_ReadFile yaml_ParseBytes
                                   w file with
                           | golang.Ok f =>
                               validator.Valid
                                 (validator.Validate ToLower Node_String yaml_Unmarshal
                                    f cfg)
                           | golang.Err _ => false
                           end) files
               | golang.Err _ => false
               end) (arg :: args) = true
          <-> forall pattern : string,
                pattern ∈ arg :: args ->
                exists files : list string,
                  filepath_Glob w pattern = golang.Ok files
                  /\ forall file : string,
                       file ∈ files ->
                       config.IsExcluded Separator filepath_Match filepath_Base cfg file
                       = true
                       \/ exists f : parser.ComposeFile,
                            parser.ParseFile World os_ReadFile yaml_ParseBytes w file
                            = golang.Ok f
                            /\ validator.Valid
                                 (validator.Validate ToLower Node_String yaml_Unmarshal
                                    f cfg)
                               = true).
  { rewrite forallb_forall. split.
    - intros H pattern Hin. specialize (H pattern (proj1 (list_elem_of_In _ _) Hin)).
      destruct (filepath_Glob w pattern) as [files|]; [|done].
      exists files. split; [done|]. intros file Hfile.
      rewrite forallb_forall in H.
      specialize (H file (proj1 (list_elem_of_In _ _) Hfile)).
      apply orb_true_iff in H as [H|H]; [by left|]. right.
      destruct (parser.ParseFile _ _ _ w file) as [f|]; [|done]. by exists f.
    - intros H pattern Hin. apply list_elem_of_In in Hin.
      destruct (H pattern Hin) as (files & -> & Hfiles).
      apply forallb_forall. intros file Hfile. apply list_elem_of_In in Hfile.
      apply orb_true_iff.
      destruct (Hfiles file Hfile) as [Hex|(f & -> & Hvalid)]; [by left|by right]. }
  destruct err as [err|].
  - destruct (main.verbose flags); eexists _, _;
      (split; [rewrite <- ?app_assoc; reflexivity|split; [by right|]]);
      rewrite <- Hspec; cbn; (split; [done|]); intros H;
      by destruct (proj2 Hiff (conj eq_refl H)) as [? _].
  - destruct valid.
    + destruct (main.verbose flags); eexists _, _;
        (split; [rewrite <- ?app_assoc; reflexivity|split; [by left|]]);
        rewrite <- Hspec; cbn; (split; [|done]); intros _;
        by apply (proj1 Hiff (conj eq_refl eq_refl)).
    + destruct (main.verbose flags); eexists _, _;
        (split; [rewrite <- ?app_assoc; reflexivity|split; [by right|]]);
        rewrite <- Hspec; cbn; (split; [done|]); intros H;
        by destruct (proj2 Hiff (conj eq_refl H)) as [_ ?].
Qed.

Lemma check_mode_exit_status_witness :
  main.fixMode example.checkFlags = false
  /\ ["compose.yml"] <> []
  /\ exists (printed : list main.Event) (o : main.Outcome),
       main.run golang.ToLower_ascii example.World example.getwd example.stat
         example.readFile example.writeFile example.glob example.joinPath
         example.parentDir example.baseName example.matchName "/"%char
         example.nodeString example.parseBytes example.unmarshalValue
         example.unmarshal example.unmarshalConfig example.marshal
         example.checkFlags ["compose.yml"] 0 example.disk []
       = Some (example.disk, [] ++ printed, o)
       /\ (main.exitStatus o = 0 \/ main.exitStatus o = 1).
Proof.
  split; [reflexivity|]. split; [discriminate|].
  destruct (check_mode_exit_status golang.ToLower_ascii example.World example.getwd
              example.stat example.readFile example.writeFile example.glob
              example.joinPath example.parentDir example.baseName example.matchName
              "/"%char example.nodeString example.parseBytes example.unmarshalValue
              example.unmarshal example.unmarshalConfig example.marshal
              example.checkFlags ["compose.yml"] 0 example.disk []
              scenario.strictConfig eq_refl ltac:(discriminate) eq_refl)
    as (printed & o & Hrun & Hstatus & _).
  exists printed, o. split; [exact Hrun|exact Hstatus].
Defined.

Section Flags.

Context (ToLower : string -> string).
Context (World : Type).
Context (os_ReadFile : World -> string -> golang.result string).
Context (os_WriteFile : World -> string -> string -> World * option string).
Context (filepath_Glob : World -> string -> golang.result (list string)).
Context (filepath_Base : string -> string).
Context (filepath_Match : string -> string -> bool).
Context (Separator : ascii).
Context (Node_String : parser.Node -> string).
Context (yaml_ParseBytes : string -> golang.result (list (option parser.DocumentNode))).
Context (yaml_Unmarshal : string -> option Value).
Context (yaml_Unmarshal_map : string -> golang.result gomap).
Context (yaml_Marshal : gomap -> golang.result string).

Context (v f : bool) (c : string) (o a o' a' : bool).

Local Abbreviation flags :=
  {| main.verbose := v; main.fixMode := f; main.configPath := c;
     main.checkOrder := o; main.checkAlpha := a |}.
Local Abbreviation flags' :=
  {| main.verbose := v; main.fixMode := f; main.configPath := c;
     main.checkOrder := o'; main.checkAlpha := a' |}.

Local Abbreviation processFiles :=
  (main.processFiles ToLower World os_ReadFile os_WriteFile filepath_Base filepath_Match
     Separator Node_String yaml_ParseBytes yaml_Unmarshal yaml_Unmarshal_map
     yaml_Marshal).
Local Abbreviation processPatterns :=
  (main.processPatterns ToLower World os_ReadFile os_WriteFile filepath_Glob
     filepath_Base filepath_Match Separator Node_String yaml_ParseBytes yaml_Unmarshal
     yaml_Unmarshal_map yaml_Marshal).

Lemma processFiles_flags (cfg : config.Config) (files : list string) :
  forall st : main.RunState World,
    processFiles flags' cfg files st = processFiles flags cfg files st.
Proof.
  induction files as [|file files IH]; intros st; [done|].
  cbn [main.processFiles main.verbose]. rewrite !IH.
  destruct (config.IsExcluded _ _ _ cfg file); [done|].
  change (main.processFile ToLower World os_ReadFile os_WriteFile Node_String
            yaml_ParseBytes yaml_Unmarshal yaml_Unmarshal_map yaml_Marshal flags' file
            cfg (main.world st) (main.stdout st))
    with (main.processFile ToLower World os_ReadFile os_WriteFile Node_String
            yaml_ParseBytes yaml_Unmarshal yaml_Unmarshal_map yaml_Marshal flags file
            cfg (main.world st) (main.stdout st)).
  destruct (main.processFile _ _ _ _ _ _ _ _ _ _ _ _ _ _) as [[[w out] [r|err]]|];
    cbn; [|by rewrite IH|done].
  destruct (negb _); by rewrite IH.
Qed.

Lemma processPatterns_flags (cfg : config.Config) (patterns : list string) :
  forall st : main.RunState World,
    processPatterns flags' cfg patterns st = processPatterns flags cfg patterns st.
Proof.
  induction patterns as [|pattern patterns IH]; intros st; [done|].
  cbn [main.processPatterns]. destruct (filepath_Glob _ _) as [files|err]; [|done].
  destruct (_ =? _); [by rewrite IH|]. rewrite processFiles_flags.
  destruct (main.processFiles _ _ _ _ _ _ _ _ _ _ _ _ _ _ _ _) as [st1|]; cbn; [|done].
  by rewrite IH.
Qed.

End Flags.

(** X24.  The flags that [run] reads.  Two sets of flags that agree on
    [--verbose], [--fix] and [--config] make [run] do the same: the flags
    [--check-order-only] and [--check-alphabetization-only] change nothing. *)
Theorem check_only_flags_ignored (ToLower : string -> string) (World : Type)
    (os_Getwd : World -> golang.result string)
    (os_Stat : World -> string -> bool)
    (os_ReadFile : World -> string -> golang.result string)
    (os_WriteFile : World -> string -> string -> World * option string)
    (filepath_Glob : World -> string -> golang.result (list string))
    (filepath_Join : string -> string -> string)
    (filepath_Dir filepath_Base : string -> string)
    (filepath_Match : string -> string -> bool)
    (Separator : ascii)
    (Node_String : parser.Node -> string)
    (yaml_ParseBytes : string -> golang.result (list (option parser.DocumentNode)))
    (yaml_Unmarshal : string -> option Value)
    (yaml_Unmarshal_map : string -> golang.result gomap)
    (yaml_Unmarshal_config : string -> config.Config -> golang.result config.Config)
    (yaml_Marshal : gomap -> golang.result string)
    (flags flags' : main.Flags) (args : list string) (fuel : nat) (w : World)
    (out : list main.Event) :
  main.verbose flags' = main.verbose flags ->
  main.fixMode flags' = main.fixMode flags ->
  main.configPath flags' = main.configPath flags ->
  main.run ToLower World os_Getwd os_Stat os_ReadFile os_WriteFile filepath_Glob
    filepath_Join filepath_Dir filepath_Base filepath_Match Separator Node_String
    yaml_ParseBytes yaml_Unmarshal yaml_Unmarshal_map yaml_Unmarshal_config
    yaml_Marshal flags' args fuel w out
  = main.run ToLower World os_Getwd os_Stat os_ReadFile os_WriteFile filepath_Glob
      filepath_Join filepath_Dir filepath_Base filepath_Match Separator Node_String
      yaml_ParseBytes yaml_Unmarshal yaml_Unmarshal_map yaml_Unmarshal_config
      yaml_Marshal flags args fuel w out.
Proof.
  destruct flags as [v f c o a], flags' as [v' f' c' o' a']. cbn.
  intros -> -> ->. unfold main.run. cbn [main.verbose main.fixMode main.configPath].
  destruct (_ =? _); [done|].
  destruct (if negb (c =? "")%string then _ else _) as [[cfg|err]|]; cbn; try done.
  by rewrite (processPatterns_flags ToLower World os_ReadFile os_WriteFile
                filepath_Glob filepath_Base filepath_Match Separator Node_String
                yaml_ParseBytes yaml_Unmarshal yaml_Unmarshal_map yaml_Marshal
                v f c o a o' a').
Qed.

Lemma check_only_flags_ignored_witness :
  main.verbose example.orderOnlyFlags = main.verbose example.checkFlags
  /\ main.fixMode example.orderOnlyFlags = main.fixMode example.checkFlags
  /\ main.configPath example.orderOnlyFlags = main.configPath example.checkFlags
  /\ main.run golang.ToLower_ascii example.World example.getwd example.stat
       example.readFile example.writeFile example.glob example.joinPath
       example.parentDir example.baseName example.matchName "/"%char
       example.nodeString example.parseBytes example.unmarshalValue
       example.unmarshal example.unmarshalConfig example.marshal
       example.orderOnlyFlags ["compose.yml"] 0 example.disk []
     = main.run golang.ToLower_ascii example.World example.getwd example.stat
         example.readFile example.writeFile example.glob example.joinPath
         example.parentDir example.baseName example.matchName "/"%char
         example.nodeString example.parseBytes example.unmarshalValue
         example.unmarshal example.unmarshalConfig example.marshal
         example.checkFlags ["compose.yml"] 0 example.disk [].
Proof.
  split; [reflexivity|]. split; [reflexivity|]. split; [reflexivity|].
  apply (check_only_flags_ignored golang.ToLower_ascii example.World example.getwd
           example.stat example.readFile example.writeFile example.glob
           example.joinPath example.parentDir example.baseName example.matchName
           "/"%char example.nodeString example.parseBytes example.unmarshalValue
           example.unmarshal example.unmarshalConfig example.marshal
           example.checkFlags example.orderOnlyFlags); reflexivity.
Defined.

(** X25.  [--fix] and the order of the fields.  When a file is not valid and
    the special fields of all its services are in order, so that only order
    violations are left, [processFile] with [--fix] leaves the file system as
    it is, prints nothing and returns the result of the validation, which is
    not valid. *)
Theorem fix_mode_keeps_order_violations (ToLower : string -> string) (World : Type)
    (os_ReadFile : World -> string -> golang.result string)
    (os_WriteFile : World -> string -> string -> World * option string)
    (Node_String : parser.Node -> string)
    (yaml_ParseBytes : string -> golang.result (list (option parser.DocumentNode)))
    (yaml_Unmarshal : string -> option Value)
    (yaml_Unmarshal_map : string -> golang.result gomap)
    (yaml_Marshal : gomap -> golang.result string)
    (flags : main.Flags) (path : string) (cfg : config.Config)
    (w : World) (out : list main.Event)
    (file : parser.ComposeFile) (content services : gomap) :
  main.fixMode flags = true ->
  parser.ParseFile World os_ReadFile yaml_ParseBytes w path = golang.Ok file ->
  validator.Valid (validator.Validate ToLower Node_String yaml_Unmarshal file cfg)
  = false ->
  yaml_Unmarshal_map (parser.RawData file) = golang.Ok content ->
  golang.map_get "services" content = Some (VMap services) ->
  (forall n m, (n, VMap m) ∈ services ->
     spec.wellFormed m = true
     /\ spec.comparableEntries cfg m = true
     /\ validator.validateAlphabetization ToLower n (spec.serviceOf n m 0 0) cfg = []) ->
  main.processFile ToLower World os_ReadFile os_WriteFile Node_String yaml_ParseBytes
    yaml_Unmarshal yaml_Unmarshal_map yaml_Marshal flags path cfg w out
  = Some (w, out,
          golang.Ok (validator.Validate ToLower Node_String yaml_Unmarshal file cfg)).
Proof.
  intros Hfix Hparse Hinvalid Hcontent Hservices Hsettled.
  assert (Hfile : parser.Path file = path
                  /\ os_ReadFile w path = golang.Ok (parser.RawData file)).
  { unfold parser.ParseFile, parser.ParseBytes in Hparse.
    destruct (os_ReadFile w path) as [data|err]; [|done].
    destruct (yaml_ParseBytes data) as [docs|err]; [|done].
    by injection Hparse as <-. }
  destruct Hfile as [Hpath Hread].
  unfold main.processFile. rewrite Hparse. cbn zeta. rewrite Hfix, Hinvalid.
  cbn [andb negb].
  unfold fixer.Fix. cbn zeta. rewrite Hpath, Hread, Hcontent, Hservices.
  destruct (fixServices_settled ToLower cfg services Hsettled [] false services)
    as [services' ->].
  reflexivity.
Qed.

Lemma fix_mode_keeps_order_violations_witness :
  main.fixMode example.fixFlags = true
  /\ main.processFile golang.ToLower_ascii example.World example.readFile
       example.writeFile example.nodeString example.parseMisordered
       example.unmarshalValue example.unmarshal example.marshal example.fixFlags
       "misordered.yml" config.NewDefaultConfig example.disk []
     = Some (example.disk, [],
             golang.Ok
               (validator.Validate golang.ToLower_ascii example.nodeString
                  example.unmarshalValue
                  {| parser.Path := "misordered.yml";
                     parser.Documents := [example.misorderedDocument];
                     parser.RawData := "misordered" |}
                  config.NewDefaultConfig)).
Proof.
  split; [reflexivity|].
  apply (fix_mode_keeps_order_violations golang.ToLower_ascii example.World
           example.readFile example.writeFile example.nodeString
           example.parseMisordered example.unmarshalValue example.unmarshal
           example.marshal example.fixFlags "misordered.yml" config.NewDefaultConfig
           example.disk []
           {| parser.Path := "misordered.yml";
              parser.Documents := [example.misorderedDocument];
              parser.RawData := "misordered" |}
           (example.services (parser.Config scenario.misordered))
           [("web", VMap (parser.Config scenario.misordered))]);
    try reflexivity.
  intros n m Hin. apply list_elem_of_singleton in Hin. injection Hin as -> ->.
  repeat split; reflexivity.
Defined.
